(** * TestGenie back end: Zephyr step replacement, retry, signing, bulk fan-out

    A shallow embedding of the Python sources

      - [app/utils/retry.py]            (module [Retry])
      - [app/utils/zephyr_auth.py]      (module [ZephyrAuth])
      - [app/services/zephyr_service.py] (modules [Zephyr], [ZephyrExec])
      - [app/routers/zephyr.py]         (module [ZephyrRouter])
      - [app/routers/test_case.py]      (modules [Bulk], [FullCreate])

    Conventions.  A Python [str] is a [string] whose characters are the code
    points below 256.  A decoded JSON document is a [json] value; Python's
    [None] is [JNull]; floating point numbers are left out of JSON, and the
    delays of the retry loop are rationals, with the overflow of a float
    power written out.  A coroutine is a state transformer that returns an
    [outcome]: either the value it returns or the exception it raises.  The state carries the remote system, the
    per-issue lock table and the trace of what the process did (requests,
    sleeps, lock operations); a sleep is recorded, its duration is not, and
    the time-out of a request is left out. *)

From Stdlib Require Import ZArith QArith Qabs Qminmax Lia Ascii String.
From stdpp Require Import base tactics option list sorting gmap pretty.
From stdpp Require Import strings.

Local Open Scope Z_scope.

(* ================================================================== *)
(** * Python strings *)

Module PyStr.

Definition code (c : ascii) : N := N_of_ascii c.

(** [str.isspace] on the code points below 256. *)
Definition isspace (c : ascii) : bool :=
  let n := code c in
  ((9 <=? n) && (n <=? 13) || (28 <=? n) && (n <=? 32)
   || (n =? 133) || (n =? 160))%N.

Fixpoint lstrip (s : string) : string :=
  match s with
  | EmptyString => EmptyString
  | String c s' => if isspace c then lstrip s' else s
  end.

Definition to_list (s : string) : list ascii := String.list_ascii_of_string s.
Definition of_list (l : list ascii) : string := String.string_of_list_ascii l.

Definition rev (s : string) : string := of_list (List.rev (to_list s)).

Definition rstrip (s : string) : string := rev (lstrip (rev s)).

(** [s.strip()] *)
Definition strip (s : string) : string := rstrip (lstrip s).

(** [c.lower()] on the code points below 256: A-Z and the Latin-1 capitals
    (192..222 without the multiplication sign 215) move up by 32. *)
Definition lower_char (c : ascii) : ascii :=
  let n := code c in
  if ((65 <=? n) && (n <=? 90)
      || (192 <=? n) && (n <=? 222) && negb (n =? 215))%N
  then ascii_of_N (n + 32) else c.

(** [c.upper()]: a-z and the Latin-1 small letters (224..254 without the
    division sign 247) move down by 32.  The three code points whose upper
    case lies outside the alphabet (181, 223, 255) are left as they are. *)
Definition upper_char (c : ascii) : ascii :=
  let n := code c in
  if ((97 <=? n) && (n <=? 122)
      || (224 <=? n) && (n <=? 254) && negb (n =? 247))%N
  then ascii_of_N (n - 32) else c.

Fixpoint map_chars (f : ascii -> ascii) (s : string) : string :=
  match s with
  | EmptyString => EmptyString
  | String c s' => String (f c) (map_chars f s')
  end.

Definition lower : string -> string := map_chars lower_char.
Definition upper : string -> string := map_chars upper_char.

(** [s.startswith(p)] *)
Definition startswith (s p : string) : bool := String.prefix p s.

(** [needle in s] *)
Fixpoint contains (needle s : string) : bool :=
  if String.prefix needle s then true
  else match s with
       | EmptyString => false
       | String _ s' => contains needle s'
       end.

(** [s[:n]] for a non-negative [n]. *)
Definition take (n : nat) (s : string) : string := String.substring 0 n s.

(** [s[n:]] for a non-negative [n]. *)
Fixpoint drop (n : nat) (s : string) : string :=
  match n, s with
  | O, _ => s
  | S _, EmptyString => EmptyString
  | S n', String _ s' => drop n' s'
  end.

(** [sep.join(l)] *)
Fixpoint join (sep : string) (l : list string) : string :=
  match l with
  | [] => ""
  | [x] => x
  | x :: rest => x +:+ sep +:+ join sep rest
  end.

(** [bool(s)]: a string is truthy when it is not empty. *)
Definition nonempty (s : string) : bool :=
  match s with EmptyString => false | _ => true end.

(** [str(n)] for an [int]. *)
Definition of_Z (n : Z) : string := pretty n.

End PyStr.

(* ================================================================== *)
(** * Exceptions and outcomes *)

(** The exceptions the code tells apart.  [str(e)] is the last field.
    An [HTTPStatusError] always carries its response (httpx builds it no
    other way), so the source's tests [e.response is not None] succeed. *)
Inductive exn : Type :=
| NetworkFailure (msg : string)
    (* an instance of one of RETRYABLE_EXCEPTIONS *)
| HTTPStatusError (status_code : Z) (text : string) (msg : string)
    (* httpx.HTTPStatusError: response.status_code, response.text, str(e) *)
| HTTPException (status_code : Z) (detail : string)
    (* fastapi.HTTPException *)
| OtherException (msg : string).

(** [str(e)] *)
Definition exn_str (e : exn) : string :=
  match e with
  | NetworkFailure m => m
  | HTTPStatusError _ _ m => m
  | HTTPException c d => PyStr.of_Z c +:+ ": " +:+ d
  | OtherException m => m
  end.

Inductive outcome (A : Type) : Type :=
| Return (a : A)
| Raise (e : exn).
Arguments Return {A} a.
Arguments Raise {A} e.

(* ================================================================== *)
(** * app/utils/retry.py *)

Module Retry.

(** The delays are floats in the source; here they are rationals. *)
Record RetryConfig : Type := mkRetryConfig {
  max_attempts : Z;
  base_delay : Q;
  max_delay : Q;
  exponential_base : Q;
  jitter : bool
}.

(** [RetryConfig()] *)
Definition default_config : RetryConfig :=
  mkRetryConfig 3 (1 # 1) (60 # 1) (2 # 1) true.

(** The largest finite float (a binary64). *)
Definition float_max : Q := inject_Z (2 ^ 1024 - 2 ^ 971).

(** [OverflowError(34, 'Numerical result out of range')] *)
Definition overflow_error : exn :=
  OtherException "(34, 'Numerical result out of range')".

(** [x ** n] on floats, for an integer [n]: Python raises [OverflowError]
    when the result is too large for a float.  The rationals stand for the
    floats, so the rounding of the result is not modelled. *)
Definition in_range (x : Q) (n : Z) : bool :=
  Qle_bool (Qabs (Qpower x n)) float_max.

Definition float_pow (x : Q) (n : Z) : outcome Q :=
  if in_range x n then Return (Qpower x n) else Raise overflow_error.

(** [calculate_delay]; [uniform a b] is the draw of [random.uniform(a, b)].
    The power is computed before the delay is capped by [max_delay], so it
    can overflow whatever [max_delay] is. *)
Definition calculate_delay (uniform : Q -> Q -> Q) (attempt : Z)
           (config : RetryConfig) : outcome Q :=
  match float_pow (exponential_base config) (attempt - 1) with
  | Raise e => Raise e
  | Return power =>
      let delay := (base_delay config * power)%Q in
      let delay := Qmin delay (max_delay config) in
      if jitter config then
        let jitter_range := (delay * (1 # 4))%Q in
        let delay := (delay + uniform (- jitter_range) jitter_range)%Q in
        Return (Qmax (0 # 1) delay)
      else Return delay
  end.

Definition RETRYABLE_STATUS_CODES : list Z := [408; 429; 500; 502; 503; 504].

Definition retryable_messages : list string :=
  [ "getaddrinfo failed"; "connection reset"; "connection refused";
    "timeout"; "network is unreachable";
    "temporary failure in name resolution" ].

Definition is_retryable_exception (e : exn) : bool :=
  match e with
  | NetworkFailure _ => true
  | HTTPStatusError status _ _ =>
      existsb (Z.eqb status) RETRYABLE_STATUS_CODES
  | HTTPException _ _ | OtherException _ =>
      let error_msg := PyStr.lower (exn_str e) in
      existsb (fun m => PyStr.contains m error_msg) retryable_messages
  end.

Section AsyncRetry.
Context {S A : Type}.
(** the draws of [random.uniform] *)
Variable uniform : Q -> Q -> Q.
(** [await asyncio.sleep(delay)]: what the sleep after the given attempt
    does to the state *)
Variable sleep : Z -> S -> S.
(** [func.__name__], which every log line of the loop reads: the name, or
    the [AttributeError] of a callable that has none (a
    [functools.partial], say) *)
Variable func_name : outcome string.
(** [await func(...)] with the arguments handed to [async_retry] *)
Variable func : S -> outcome A * S.
Variable config : RetryConfig.

(** The body of [for attempt in range(1, config.max_attempts + 1)], with
    [remaining] iterations left; [None] stands for leaving the loop at
    its end, where the function returns Python's [None] unless
    [last_exception] is set.

    The first log line of an iteration reads [func.__name__] inside the
    [try]; when that raises, the handler reads it again in each of its own
    log lines, so the [AttributeError] leaves the loop before [func] is
    awaited.  [calculate_delay] is evaluated in the handler, outside any
    [try]: what it raises leaves the loop too. *)
Fixpoint attempts (remaining : nat) (attempt : Z)
         (last_exception : option exn) (s : S) : outcome (option A) * S :=
  match remaining with
  | O =>
      match last_exception with
      | Some e => (Raise e, s)
      | None => (Return None, s)
      end
  | Datatypes.S remaining' =>
      match func_name with
      | Raise attribute_error => (Raise attribute_error, s)
      | Return _ =>
          match func s with
          | (Return result, s1) => (Return (Some result), s1)
          | (Raise e, s1) =>
              if negb (is_retryable_exception e) then (Raise e, s1)
              else if attempt =? max_attempts config then (Raise e, s1)
              else
                match calculate_delay uniform attempt config with
                | Raise overflow => (Raise overflow, s1)
                | Return delay =>
                    attempts remaining' (attempt + 1) (Some e)
                             (sleep attempt s1)
                end
          end
      end
  end.

Definition async_retry (s : S) : outcome (option A) * S :=
  attempts (Z.to_nat (max_attempts config)) 1 None s.
End AsyncRetry.

(** No delay that a run with this configuration may have to compute (the
    delays after the attempts before the last) overflows. *)
Definition no_overflow (config : RetryConfig) : Prop :=
  forall attempt,
    1 <= attempt < max_attempts config ->
    in_range (exponential_base config) (attempt - 1) = true.

(** A test double that counts how often the wrapped function is awaited. *)
Definition counted {S A : Type} (func : S -> outcome A * S)
  : nat * S -> outcome A * (nat * S) :=
  fun '(n, s) => let '(r, s') := func s in (r, (Datatypes.S n, s')).

Definition counted_sleep {S : Type} (sleep : Z -> S -> S)
  : Z -> nat * S -> nat * S :=
  fun attempt '(n, s) => (n, sleep attempt s).

(** The wrapped function fails with the given HTTP status in state [s]. *)
Definition fails_with {S A : Type} (func : S -> outcome A * S)
           (status : Z) (s : S) : Prop :=
  exists text msg, fst (func s) = Raise (HTTPStatusError status text msg).

(** A mock endpoint that answers every call with the given HTTP status;
    its state is the number of the call. *)
Definition mock_endpoint (status : Z) (calls : nat) : outcome unit * nat :=
  (Raise (HTTPStatusError status "" (PyStr.of_Z (Z.of_nat calls))),
   Datatypes.S calls).

End Retry.

(* ================================================================== *)
(** * app/utils/zephyr_auth.py *)

Module ZephyrAuth.

(** What the module takes from Python's standard library:
    [urllib.parse.urlsplit] (its [path] and [query] fields),
    [urllib.parse.parse_qsl(qs, keep_blank_values=True, strict_parsing=False)]
    and [hashlib.sha256(s.encode("utf-8")).hexdigest()]. *)
Class UrlLib : Type := {
  urlsplit_path : string -> string;
  urlsplit_query : string -> string;
  parse_qsl : string -> list (string * string);
  sha256_hexdigest : string -> string
}.

Definition hex_digit (n : N) : ascii :=
  match String.get (N.to_nat n) "0123456789ABCDEF" with
  | Some c => c
  | None => "0"%char
  end.

(** The characters [quote(..., safe="~")] leaves alone: letters, digits
    and [_.-~]. *)
Definition always_safe (c : ascii) : bool :=
  let n := PyStr.code c in
  ((65 <=? n) && (n <=? 90) || (97 <=? n) && (n <=? 122)
   || (48 <=? n) && (n <=? 57)
   || (n =? 95) || (n =? 46) || (n =? 45) || (n =? 126))%N.

Definition pct_byte (b : N) : string :=
  String "%"%char (String (hex_digit (b / 16)) (String (hex_digit (b mod 16)) "")).

(** The UTF-8 bytes of a code point below 256. *)
Definition utf8_bytes (c : ascii) : list N :=
  let n := PyStr.code c in
  if (n <? 128)%N then [n]
  else [N.lor 192 (N.shiftr n 6); N.lor 128 (N.land n 63)].

Definition quote_char (c : ascii) : string :=
  if always_safe c then String c ""
  else PyStr.join "" (pct_byte <$> utf8_bytes c).

(** [quote(str(s), safe="~")] *)
Fixpoint pct_encode (s : string) : string :=
  match s with
  | EmptyString => ""
  | String c s' => quote_char c +:+ pct_encode s'
  end.

(** The order of [list.sort] and [sorted] on strings. *)
Definition str_le (a b : string) : Prop := String.leb a b = true.

#[global] Instance str_le_dec a b : Decision (str_le a b).
Proof. unfold str_le. apply _. Defined.

(** [sorted(..., key=lambda kv: kv[0])] compares the keys only. *)
Definition key_le (a b : string * list string) : Prop := str_le a.1 b.1.

#[global] Instance key_le_dec a b : Decision (key_le a b).
Proof. unfold key_le. apply _. Defined.

(** [s.rstrip("/")] and [s.lstrip("/")] *)
Fixpoint lstrip_slash (s : string) : string :=
  match s with
  | String "/"%char s' => lstrip_slash s'
  | _ => s
  end.

Definition rstrip_slash (s : string) : string :=
  PyStr.rev (lstrip_slash (PyStr.rev s)).

(** [a or b] on strings *)
Definition str_or (a b : string) : string :=
  if PyStr.nonempty a then a else b.

(** [multimap.setdefault(ek, []).append(ev)]; the dict is a finite map
    (its insertion order is forgotten: the items are sorted by their
    keys, which are distinct, before they are used). *)
Definition multimap_add (m : gmap string (list string))
           (kv : string * string) : gmap string (list string) :=
  let ek := pct_encode kv.1 in
  let ev := pct_encode kv.2 in
  <[ek := default [] (m !! ek) ++ [ev]]> m.

(** The encoded values filed under the encoded key [k], in input order. *)
Definition values_of (k : string) (pairs : list (string * string))
  : list string :=
  (fun kv => pct_encode kv.2)
    <$> filter (fun kv => pct_encode kv.1 = k) pairs.

(** From the parsed pairs to the canonical query string. *)
Definition canonical_query_of (pairs : list (string * string)) : string :=
  let pairs := filter (fun kv => PyStr.lower kv.1 <> "jwt") pairs in
  let multimap := foldl multimap_add ∅ pairs in
  let multimap := merge_sort str_le <$> multimap in
  let items := merge_sort key_le (map_to_list multimap) in
  PyStr.join "&"
    ((fun kv => kv.1 +:+ "=" +:+ PyStr.join "," kv.2) <$> items).

Section Canonicalize.
Context `{UrlLib}.

(** [sp.path or uri] *)
Definition uri_path (uri : string) : string :=
  str_or (urlsplit_path uri) uri.

Definition merged_qs (uri query_params : string) : string :=
  PyStr.join "&"
    (filter (fun q => PyStr.nonempty q = true)
            [str_or (urlsplit_query uri) ""; query_params]).

Definition canonicalize (base_url method uri query_params : string)
  : string * string * string :=
  let method := PyStr.upper method in
  let path := uri_path uri in
  let base_prefix := rstrip_slash (str_or (urlsplit_path base_url) "") in
  let request_path :=
    if PyStr.nonempty base_prefix && negb (PyStr.startswith path base_prefix)
    then base_prefix +:+ "/" +:+ lstrip_slash path
    else path in
  let qsh_path :=
    if PyStr.nonempty base_prefix && PyStr.startswith request_path base_prefix
    then
      let stripped := PyStr.drop (String.length base_prefix) request_path in
      if negb (PyStr.startswith stripped "/") then "/" +:+ stripped
      else stripped
    else request_path in
  let pairs := parse_qsl (merged_qs uri query_params) in
  let canonical_query := canonical_query_of pairs in
  let canonical_request :=
    method +:+ "&" +:+ qsh_path +:+ "&" +:+ canonical_query in
  let qsh := sha256_hexdigest canonical_request in
  (request_path, canonical_query, qsh).
End Canonicalize.

(** A stand-in for the standard library, for running the definitions: a
    URI is split at its first question mark, a query string at [&] and at
    the first [=] of each piece, and the digest is the text itself. *)
Fixpoint split_at (sep : ascii) (s : string) : string * option string :=
  match s with
  | EmptyString => ("", None)
  | String c s' =>
      if Ascii.eqb c sep then ("", Some s')
      else let '(a, b) := split_at sep s' in (String c a, b)
  end.

Fixpoint split_all (fuel : nat) (sep : ascii) (s : string) : list string :=
  match fuel with
  | O => [s]
  | S fuel' =>
      match split_at sep s with
      | (a, None) => [a]
      | (a, Some rest) => a :: split_all fuel' sep rest
      end
  end.

Definition toy_parse_qsl (qs : string) : list (string * string) :=
  (fun nv => let '(n, v) := split_at "="%char nv in (n, default "" v))
    <$> filter (fun nv => PyStr.nonempty nv = true)
               (split_all (String.length qs) "&"%char qs).

Definition toy_urllib : UrlLib := {|
  urlsplit_path uri := (split_at "?"%char uri).1;
  urlsplit_query uri := default "" (split_at "?"%char uri).2;
  parse_qsl := toy_parse_qsl;
  sha256_hexdigest s := s
|}.

End ZephyrAuth.

(* ================================================================== *)
(** * Decoded JSON documents *)

Module Json.

#[local] Set Warnings "-register-all".

Inductive json : Type :=
| JNull
| JBool (b : bool)
| JNum (n : Z)
| JStr (s : string)
| JArr (items : list json)
| JObj (fields : list (string * json)).

(** [bool(v)] *)
Definition truthy (v : json) : bool :=
  match v with
  | JNull => false
  | JBool b => b
  | JNum n => negb (n =? 0)
  | JStr s => PyStr.nonempty s
  | JArr items => match items with [] => false | _ => true end
  | JObj fields => match fields with [] => false | _ => true end
  end.

Fixpoint assoc (k : string) (fields : list (string * json)) : option json :=
  match fields with
  | [] => None
  | (k', v) :: rest => if String.eqb k k' then Some v else assoc k rest
  end.

(** What the code takes from the Python run time. *)
Class Builtins : Type := {
  (** [str(v)] *)
  py_str : json -> string;
  (** [int(v)], which raises on what is not a number *)
  py_int : json -> outcome Z;
  (** the [AttributeError] of [v.get] on a value that is no dict *)
  no_get : json -> exn;
  (** the [TypeError] of iterating over a value that is not iterable *)
  not_iterable : json -> exn;
  (** the pydantic [ValidationError] of a model *)
  validation_error : string -> exn;
  (** [repr] of a list of strings, as an f-string prints it *)
  repr_list : list string -> string
}.

Section WithBuiltins.
Context `{Builtins}.

(** [v.get(k)] *)
Definition get (v : json) (k : string) : outcome json :=
  match v with
  | JObj fields => Return (default JNull (assoc k fields))
  | _ => Raise (no_get v)
  end.

(** [v.get(k, {})] *)
Definition get_or_empty (v : json) (k : string) : outcome json :=
  match v with
  | JObj fields => Return (default (JObj []) (assoc k fields))
  | _ => Raise (no_get v)
  end.

(** [a or b]: [b] is looked at only when [a] is falsy. *)
Definition or_else (a b : outcome json) : outcome json :=
  match a with
  | Return v => if truthy v then Return v else b
  | Raise e => Raise e
  end.

(** The items a [for] loop over [v] sees. *)
Definition iterate (v : json) : outcome (list json) :=
  match v with
  | JArr items => Return items
  | JStr s => Return ((fun c => JStr (String c "")) <$> PyStr.to_list s)
  | JObj fields => Return ((fun kv => JStr kv.1) <$> fields)
  | _ => Raise (not_iterable v)
  end.
End WithBuiltins.

Definition obind {A B : Type} (o : outcome A) (k : A -> outcome B)
  : outcome B :=
  match o with
  | Return a => k a
  | Raise e => Raise e
  end.

Fixpoint omapM {A B : Type} (f : A -> outcome B) (l : list A)
  : outcome (list B) :=
  match l with
  | [] => Return []
  | x :: rest =>
      obind (f x) (fun y => obind (omapM f rest) (fun ys => Return (y :: ys)))
  end.

End Json.

(* ================================================================== *)
(** * Python's sort *)

Module PySort.

Section StableSort.
Context {A : Type} (le : A -> A -> Prop) `{!forall x y, Decision (le x y)}.

(** [x] goes before the first element that it is not above. *)
Fixpoint insert_sorted (x : A) (l : list A) : list A :=
  match l with
  | [] => [x]
  | y :: l' => if decide (le x y) then x :: l else y :: insert_sorted x l'
  end.

(** [l.sort(key=...)] with [le] the order of the keys.  The sort is
    stable: elements with equal keys keep the order they had in [l]. *)
Definition stable_sort (l : list A) : list A := foldr insert_sorted [] l.
End StableSort.

End PySort.

(* ================================================================== *)
(** * app/services/zephyr_service.py *)

Module Zephyr.
Import Json.

Definition API_VERSION : string := "1.0".

Record Request : Type := mkRequest {
  req_method : string;
  req_uri : string;
  req_query : string;
  req_json : option json
}.

Inductive event : Type :=
| EvRequest (r : Request)          (* one HTTP exchange *)
| EvRetrySleep (attempt : Z)       (* the sleep of async_retry *)
| EvDeleteSleep (attempts : Z)     (* asyncio.sleep(0.2 * attempts) *)
| EvAcquire (key : string)         (* entering [async with lock] *)
| EvRelease (key : string).        (* leaving it *)

(** The surroundings of the service: the settings, the Python run time
    and the remote system.  [exchange] is one HTTP exchange as
    [_make_request_without_retry] performs it with httpx: the decoded body
    of a successful response ([JNull] when there is none), or the exception
    raised. *)
Class Env : Type := {
  PROJECT_ID : Z;
  env_builtins :: Builtins;
  world : Type;
  exchange : Request -> world -> outcome json * world;
  (** the draws of [random.uniform] for the jitter of a retry delay *)
  random_uniform : Q -> Q -> Q
}.

Section Service.
Context `{Env}.

Record state : Type := mkState {
  trace : list event;
  (** [self._issue_locks]: the keys that have a lock object *)
  issue_locks : gset string;
  (** the order in which the event loop completes concurrent tasks *)
  schedule : list nat;
  remote : world
}.

Definition log (ev : event) (st : state) : state :=
  mkState (trace st ++ [ev]) (issue_locks st) (schedule st) (remote st).

(** Coroutines. *)
Definition M (A : Type) : Type := state -> outcome A * state.

Definition ret {A : Type} (a : A) : M A := fun st => (Return a, st).

Definition bind {A B : Type} (c : M A) (k : A -> M B) : M B :=
  fun st =>
    match c st with
    | (Return a, st') => k a st'
    | (Raise e, st') => (Raise e, st')
    end.

Definition lift {A : Type} (o : outcome A) : M A := fun st => (o, st).

(** Coroutines that raise nothing: every exception of their body is
    caught inside. *)
Definition task (A : Type) : Type := state -> A * state.

Definition tret {A : Type} (a : A) : task A := fun st => (a, st).

Definition tbind {A B : Type} (c : task A) (k : A -> task B) : task B :=
  fun st => let '(a, st') := c st in k a st'.

(** [try: c  except Exception as e: handler e] *)
Definition try_except {A : Type} (c : M A) (handler : exn -> task A)
  : task A :=
  fun st =>
    match c st with
    | (Return a, st') => (a, st')
    | (Raise e, st') => handler e st'
    end.

(** [try: c  except httpx.HTTPStatusError as e: handler e] *)
Definition try_except_status {A : Type} (c : M A)
           (handler : exn -> task A) : M A :=
  fun st =>
    match c st with
    | (Raise (HTTPStatusError code text msg), st') =>
        let '(a, st'') := handler (HTTPStatusError code text msg) st' in
        (Return a, st'')
    | r => r
    end.

(** The methods [_make_request_without_retry] knows. *)
Definition supported_method (method : string) : bool :=
  existsb (String.eqb method) ["GET"; "POST"; "PUT"; "DELETE"].

(** [_make_request_without_retry]: any other method raises [ValueError]
    before anything is sent; a falsy body becomes the empty dict. *)
Definition _make_request_without_retry
           (method uri query_params : string) (json_data : option json)
  : M json :=
  fun st =>
    if negb (supported_method method)
    then (Raise (OtherException ("Unsupported HTTP method: " +:+ method)), st)
    else
      let req := mkRequest method uri query_params json_data in
      let '(r, w) := exchange req (remote st) in
      let st' := mkState (trace st ++ [EvRequest req]) (issue_locks st)
                         (schedule st) w in
      match r with
      | Return body => (Return (if truthy body then body else JObj []), st')
      | Raise e => (Raise e, st')
      end.

Definition retry_config : Retry.RetryConfig :=
  Retry.mkRetryConfig 3 (1 # 1) (10 # 1) (2 # 1) true.

(** [_make_request]: the exchange under [async_retry]. *)
Definition _make_request
           (method uri query_params : string) (json_data : option json)
  : M json :=
  fun st =>
    match Retry.async_retry random_uniform
            (fun attempt => log (EvRetrySleep attempt))
            (Return "_make_request_without_retry")
            (_make_request_without_retry method uri query_params json_data)
            retry_config st with
    | (Return (Some body), st') => (Return body, st')
    | (Return None, st') => (Return JNull, st')
    | (Raise e, st') => (Raise e, st')
    end.

Notation "x <- c ;; k" := (bind c (fun x => k))
  (at level 20, c at level 99, k at level 200, only parsing).
Notation "x <~ c ;; k" := (tbind c (fun x => k))
  (at level 20, c at level 99, k at level 200, only parsing).

(** ** Test steps *)

Record ZephyrTestStepResponse : Type := mkStepResponse {
  id : string;
  step : string;
  data : option string;
  result : option string;
  orderId : Z
}.

(** pydantic on a [str] field and on an [Optional[str]] field *)
Definition validate_str (v : json) : outcome string :=
  match v with
  | JStr s => Return s
  | _ => Raise (validation_error "ZephyrTestStepResponse")
  end.

Definition validate_opt_str (v : json) : outcome (option string) :=
  match v with
  | JNull => Return None
  | JStr s => Return (Some s)
  | _ => Raise (validation_error "ZephyrTestStepResponse")
  end.

(** The body of the loop of [_parse_test_steps]. *)
Definition parse_item (item : json) : outcome ZephyrTestStepResponse :=
  obind (or_else (get item "teststep")
                 (or_else (get item "testStep") (Return item))) (fun ts =>
  obind (or_else (get ts "id") (Return (JStr ""))) (fun id_value =>
  let step_id := py_str id_value in
  obind (or_else (get ts "orderId") (Return (JNum 0))) (fun order_value =>
  obind (py_int order_value) (fun order_id =>
  obind (or_else (get ts "step")
                 (or_else (get ts "testStep") (Return (JStr "")))) (fun step_text =>
  obind (or_else (get ts "data") (get ts "testData")) (fun data =>
  obind (or_else (get ts "result") (get ts "expectedResult")) (fun result =>
  obind (validate_str step_text) (fun step_text =>
  obind (validate_opt_str data) (fun data =>
  obind (validate_opt_str result) (fun result =>
  Return (mkStepResponse step_id step_text data result order_id))))))))))).

(** The sort key [(s.orderId or 0, s.id)]. *)
Definition step_le (a b : ZephyrTestStepResponse) : Prop :=
  orderId a < orderId b
  \/ (orderId a = orderId b /\ ZephyrAuth.str_le (id a) (id b)).

#[global] Instance step_le_dec a b : Decision (step_le a b).
Proof. unfold step_le. apply _. Defined.

Definition _parse_test_steps (raw_data : json)
  : outcome (list ZephyrTestStepResponse) :=
  let raw_data :=
    match raw_data with
    | JObj _ =>
        or_else (get raw_data "testSteps")
          (or_else (get raw_data "values")
             (or_else (get raw_data "results") (Return (JArr []))))
    | _ => Return raw_data
    end in
  obind raw_data (fun raw_data =>
  obind (iterate raw_data) (fun items =>
  obind (omapM parse_item items) (fun test_steps =>
  Return (PySort.stable_sort step_le test_steps)))).

(** Of [ZephyrTestCaseWithSteps] the code builds, only the identifier and
    the steps vary; the other fields are constants. *)
Record ZephyrTestCaseWithSteps : Type := mkTestCase {
  tc_id : string;
  testSteps : list ZephyrTestStepResponse
}.

Definition teststep_uri (issue_id : string) : string :=
  "/public/rest/api/" +:+ API_VERSION +:+ "/teststep/" +:+ issue_id.

Definition project_query (project_id : Z) : string :=
  "projectId=" +:+ PyStr.of_Z project_id.

Definition get_test_case (issue_id : string)
  : task (option ZephyrTestCaseWithSteps) :=
  try_except
    (raw_data <- _make_request "GET" (teststep_uri issue_id)
                   (project_query PROJECT_ID) None ;;
     test_steps <- lift (_parse_test_steps raw_data) ;;
     ret (Some (mkTestCase issue_id test_steps)))
    (fun e => tret None).

(** ** Adding steps *)

(** One entry of [steps]: what [step.get("step")], [step.get("data")]
    and [step.get("result")] give ([None] for a missing key too). *)
Record StepIn : Type := mkStepIn {
  in_step : option string;
  in_data : option string;
  in_result : option string
}.

Record Payload : Type := mkPayload {
  p_step : string;
  p_data : string;
  p_result : option string
}.

Definition opt_str_json (o : option string) : json :=
  match o with
  | Some s => JStr s
  | None => JNull
  end.

Definition payload_json (p : Payload) : json :=
  JObj [("step", JStr (p_step p)); ("data", JStr (p_data p));
        ("result", opt_str_json (p_result p))].

Definition make_payload (step : StepIn) (is_last_step : bool) : Payload :=
  mkPayload
    (PyStr.strip (ZephyrAuth.str_or (default "" (in_step step)) ""))
    (match in_data step with Some d => d | None => "" end)
    (if is_last_step then in_result step else Some "").

(** The dict [{"success", "id", "error"}] of [_add_single_step]:
    [Created i] is success with identifier [i], [Failed e] is failure
    with error text [e]. *)
Inductive StepOutcome : Type :=
| Created (new_id : string)
| Failed (error : string).

Definition new_id_of (data : json) : outcome string :=
  obind (or_else (get data "id") (Return (JStr ""))) (fun a =>
  if PyStr.nonempty (py_str a) then Return (py_str a)
  else
    obind (or_else (get data "teststep") (Return (JObj []))) (fun ts =>
    obind (or_else (get ts "id") (Return (JStr ""))) (fun b =>
    Return (py_str b)))).

Definition _add_single_step (uri : string) (project_id : Z)
           (step : StepIn) (is_last_step : bool) : task StepOutcome :=
  let payload := make_payload step is_last_step in
  if negb (PyStr.nonempty (p_step payload))
  then tret (Failed "Empty step text")
  else
    try_except
      (data <- _make_request "POST" uri (project_query project_id)
                 (Some (payload_json payload)) ;;
       new_id <- lift (new_id_of data) ;;
       ret (Created new_id))
      (fun e => tret (Failed (PyStr.take 300 (exn_str e)))).

Record AddResult : Type := mkAddResult {
  steps_created : Z;
  created_ids : list string;
  errors : list string
}.

(** The loop [for i, step in enumerate(steps)] from index [i] on, over
    the steps that are left; [n] is [len(steps)]. *)
Fixpoint add_loop (uri : string) (project_id : Z) (n : Z) (i : Z)
         (rest : list StepIn) (created_ids errors : list string)
  : task (list string * list string) :=
  match rest with
  | [] => tret (created_ids, errors)
  | step :: rest' =>
      let is_last_step := i =? n - 1 in
      result <~ _add_single_step uri project_id step is_last_step ;;
      match result with
      | Created new_id =>
          add_loop uri project_id n (i + 1) rest'
                   (created_ids ++ [new_id]) errors
      | Failed error =>
          add_loop uri project_id n (i + 1) rest'
                   created_ids (errors ++ [error])
      end
  end.

Definition add_test_steps (issue_id : string) (project_id : Z)
           (steps : list StepIn) : task AddResult :=
  match steps with
  | [] => tret (mkAddResult 0 [] [])
  | _ =>
      let uri := teststep_uri issue_id in
      r <~ add_loop uri project_id (Z.of_nat (length steps)) 0 steps [] [] ;;
      tret (mkAddResult (Z.of_nat (length r.1)) r.1 r.2)
  end.

(** ** Replacing steps *)

Definition delete_test_step (issue_id : string) (project_id : Z)
           (step_id : string) : M bool :=
  let uri := "/public/rest/api/1.0/teststep/" +:+ issue_id +:+ "/"
             +:+ step_id in
  let qs := project_query project_id in
  try_except_status
    (response <- _make_request "DELETE" uri qs None ;;
     ret true)
    (fun e => tret false).

(** [asyncio.gather] over tasks that raise nothing.  The event loop is
    free in the order in which it completes them; each task is taken as
    one uninterrupted piece, and the next number of [schedule] (modulo
    the number of tasks still pending) says which one completes next.
    The results come back in the order of the arguments. *)
Definition next_choice : task nat :=
  fun st =>
    (hd 0%nat (schedule st),
     mkState (trace st) (issue_locks st) (tl (schedule st)) (remote st)).

Fixpoint gather_loop {A : Type} (pending_count : nat)
         (pending : list (task A)) : task (list A) :=
  match pending_count with
  | O => tret []
  | S pending_count' =>
      choice <~ next_choice ;;
      let c := (choice `mod` length pending)%nat in
      match pending !! c with
      | None => tret []
      | Some t =>
          r <~ t ;;
          rs <~ gather_loop pending_count' (delete c pending) ;;
          tret (take c rs ++ r :: drop c rs)
      end
  end.

Definition gather {A : Type} (tasks : list (task A)) : task (list A) :=
  gather_loop (length tasks) tasks.

(** The loop [while attempts < 3] of [_delete_one], with [remaining]
    rounds left.  The semaphore only bounds how many of these tasks
    overlap (6 by default). *)
Fixpoint delete_rounds (remaining : nat) (attempts : Z)
         (issue_id : string) (project_id : Z) (step_id : string)
  : task bool :=
  match remaining with
  | O => tret false
  | S remaining' =>
      let attempts := attempts + 1 in
      ok <~ try_except (delete_test_step issue_id project_id step_id)
              (fun e => tret false) ;;
      if ok : bool then tret true
      else
        fun st =>
          delete_rounds remaining' attempts issue_id project_id step_id
                        (log (EvDeleteSleep attempts) st)
  end.

Definition _delete_one (issue_id : string) (project_id : Z)
           (step_id : string) : task bool :=
  delete_rounds 3 0 issue_id project_id step_id.

Definition steps_of (test_case : option ZephyrTestCaseWithSteps)
  : list ZephyrTestStepResponse :=
  match test_case with
  | Some tc => testSteps tc
  | None => []
  end.

(** 1) the identifiers of the snapshot *)
Definition snapshot_ids_of (test_case : option ZephyrTestCaseWithSteps)
  : list string :=
  omap (fun s =>
          if PyStr.nonempty (id s)
          then let sid := PyStr.strip (id s) in
               if PyStr.nonempty sid then Some sid else None
          else None)
       (steps_of test_case).

(** [[str(s.id).strip() for s in ... if getattr(s, "id", None)]] *)
Definition present_ids_of (test_case : option ZephyrTestCaseWithSteps)
  : list string :=
  (fun s => PyStr.strip (id s))
    <$> filter (fun s => PyStr.nonempty (id s) = true) (steps_of test_case).

Definition delete_failed_msg : string :=
  "Failed to delete a step (returned False after retries)".

(** [for ok in results] *)
Fixpoint count_results (results : list bool) (deleted_count : Z)
         (errors : list string) : Z * list string :=
  match results with
  | [] => (deleted_count, errors)
  | true :: rest => count_results rest (deleted_count + 1) errors
  | false :: rest =>
      count_results rest deleted_count (errors ++ [delete_failed_msg])
  end.

(** 2) delete the snapshot *)
Definition delete_snapshot (issue_id : string) (project_id : Z)
           (snapshot_ids : list string) (deleted_count : Z)
           (errors : list string) : task (Z * list string) :=
  match snapshot_ids with
  | [] => tret (deleted_count, errors)
  | _ =>
      results <~ gather (_delete_one issue_id project_id <$> snapshot_ids) ;;
      tret (count_results results deleted_count errors)
  end.

(** [for sid in leftovers] *)
Fixpoint delete_leftovers (issue_id : string) (project_id : Z)
         (leftovers : list string) (deleted_count : Z)
         (errors : list string) : task (Z * list string) :=
  match leftovers with
  | [] => tret (deleted_count, errors)
  | sid :: rest =>
      r <~ try_except
             (ok <- delete_test_step issue_id project_id sid ;;
              if ok : bool then ret (deleted_count + 1, errors)
              else ret (deleted_count,
                        errors ++ ["Failed to delete leftover step " +:+ sid]))
             (fun e =>
                tret (deleted_count,
                      errors ++ ["Exception deleting leftover step " +:+ sid
                                 +:+ ": " +:+ PyStr.take 200 (exn_str e)])) ;;
      delete_leftovers issue_id project_id rest r.1 r.2
  end.

(** 3) fetch again and clean up what is left *)
Definition cleanup_leftovers (issue_id : string) (project_id : Z)
           (deleted_count : Z) (errors : list string)
  : task (Z * list string) :=
  post_delete_case <~ get_test_case issue_id ;;
  let leftovers := present_ids_of post_delete_case in
  match leftovers with
  | [] => tret (deleted_count, errors)
  | _ =>
      r <~ delete_leftovers issue_id project_id leftovers
             deleted_count errors ;;
      confirm_case <~ get_test_case issue_id ;;
      let still := present_ids_of confirm_case in
      match still with
      | [] => tret r
      | _ =>
          let warn := "Steps still present after cleanup for issue "
                      +:+ issue_id +:+ ": " +:+ repr_list still in
          tret (r.1, r.2 ++ [warn])
      end
  end.

Record UpdateResult : Type := mkUpdateResult {
  steps_deleted : Z;
  upd_steps_created : Z;
  upd_created_ids : list string;
  upd_errors : list string
}.

(** [lock = self._issue_locks[key]]: the defaultdict makes the entry *)
Definition lock_entry (key : string) (st : state) : state :=
  mkState (trace st) ({[key]} ∪ issue_locks st) (schedule st) (remote st).

(** [async with lock: body] *)
Definition with_lock {A : Type} (key : string) (body : task A) : task A :=
  fun st =>
    let '(a, st') := body (log (EvAcquire key) st) in
    (a, log (EvRelease key) st').

(** 4) add the new steps, and the result *)
Definition recreate (issue_id : string) (project_id : Z)
           (steps : list StepIn) (deleted_count : Z)
           (errors_so_far : list string) : task UpdateResult :=
  add_result <~ add_test_steps issue_id project_id steps ;;
  tret (mkUpdateResult deleted_count (steps_created add_result)
          (created_ids add_result) (errors_so_far ++ errors add_result)).

(** What runs under the lock.  Nothing the [try] block awaits can raise
    (each callee catches its own exceptions), so its [except] branch is
    never entered. *)
Definition replace_steps (issue_id : string) (project_id : Z)
           (steps : list StepIn) : task UpdateResult :=
  test_case <~ get_test_case issue_id ;;
  let snapshot_ids := snapshot_ids_of test_case in
  r <~ delete_snapshot issue_id project_id snapshot_ids 0 [] ;;
  r <~ cleanup_leftovers issue_id project_id r.1 r.2 ;;
  recreate issue_id project_id steps r.1 r.2.

Definition update_test_steps (issue_id : string) (project_id : Z)
           (steps : list StepIn) : task UpdateResult :=
  match steps with
  | [] => tret (mkUpdateResult 0 0 [] [])
  | _ =>
      fun st =>
        with_lock issue_id (replace_steps issue_id project_id steps)
                  (lock_entry issue_id st)
  end.

(** ** Executions *)

Record ExecResult : Type := mkExecResult {
  execution_id : option string;
  created : bool;
  raw : option json;
  error : option string
}.

(** [str.isdigit] on the code points below 256: the ten digits and the
    superscripts one, two and three. *)
Definition isdigit_char (c : ascii) : bool :=
  let n := PyStr.code c in
  ((48 <=? n) && (n <=? 57) || (n =? 178) || (n =? 179) || (n =? 185))%N.

Definition isdigit (s : string) : bool :=
  PyStr.nonempty s && forallb isdigit_char (PyStr.to_list s).

Definition opt_Z_json (o : option Z) : json :=
  match o with
  | Some n => JNum n
  | None => JNull
  end.

Definition execution_body (issue_id_str : string) (project_id cycle_id : Z)
           (version_id folder_id : option Z) : outcome json :=
  obind (if isdigit issue_id_str
         then obind (py_int (JStr issue_id_str)) (fun n => Return (JNum n))
         else Return (JStr issue_id_str)) (fun issue =>
  Return (JObj ([("issueId", issue); ("projectId", JNum project_id);
                 ("versionId", opt_Z_json version_id);
                 ("cycleId", JNum cycle_id)]
                ++ match folder_id with
                   | Some f => [("folderId", JNum f)]
                   | None => []
                   end))).

(** [try_cycle not in (None, str(cycle_id), cycle_id)] *)
Definition cycle_differs (try_cycle : json) (cycle_id : Z) : bool :=
  match try_cycle with
  | JNull => false
  | JStr s => negb (String.eqb s (PyStr.of_Z cycle_id))
  | JNum n => negb (n =? cycle_id)
  | JBool b => negb ((if b then 1 else 0) =? cycle_id)
  | _ => true
  end.

(** The loop [for item in raw or []] of [_find_execution]. *)
Fixpoint find_in (items : list json) (cycle_id : option Z)
  : outcome (option string) :=
  match items with
  | [] => Return None
  | item :: rest =>
      obind (or_else (get item "execution") (Return item)) (fun obj =>
      obind (or_else (get obj "cycleId")
               (obind (get_or_empty obj "cycle") (fun c => get c "id")))
            (fun try_cycle =>
      if match cycle_id with
         | Some c => cycle_differs try_cycle c
         | None => false
         end
      then find_in rest cycle_id
      else
        obind (or_else (get obj "id") (get obj "executionId")) (fun exec_id =>
        match exec_id with
        | JNull => find_in rest cycle_id
        | _ => Return (Some (py_str exec_id))
        end)))
  end.

Definition pair_le (a b : string * string) : Prop :=
  ZephyrAuth.str_le a.1 b.1.

#[global] Instance pair_le_dec a b : Decision (pair_le a b).
Proof. unfold pair_le. apply _. Defined.

Definition executions_query (issue_id : string) (project_id : Z)
           (cycle_id : option Z) : string :=
  let pairs :=
    [("issueId", issue_id); ("projectId", PyStr.of_Z project_id)]
    ++ match cycle_id with
       | Some c => [("cycleId", PyStr.of_Z c)]
       | None => []
       end in
  PyStr.join "&"
    ((fun kv => kv.1 +:+ "=" +:+ kv.2) <$> merge_sort pair_le pairs).

Definition _find_execution (issue_id : string) (project_id : Z)
           (cycle_id : option Z) : M (option string) :=
  let uri := "/public/rest/api/1.0/executions" in
  let qs := executions_query issue_id project_id cycle_id in
  fun st =>
    match _make_request "GET" uri qs None st with
    | (Raise e, st') => (Return None, st')
    | (Return data, st') =>
        (obind (or_else (get data "executions")
                  (or_else (get data "searchObjectList")
                     (or_else (get data "values")
                        (or_else (Return data) (Return (JArr []))))))
           (fun raw =>
            let raw := match raw with
                       | JObj fields => JArr (snd <$> fields)
                       | _ => raw
                       end in
            obind (if truthy raw then iterate raw else Return [])
                  (fun items => find_in items cycle_id)),
         st')
    end.

Definition _handle_existing_execution (issue_id : string)
           (project_id cycle_id : Z) (http_error : exn) : task ExecResult :=
  let text := match http_error with
              | HTTPStatusError _ text _ => text
              | _ => exn_str http_error
              end in
  let failed := mkExecResult None false None (Some (PyStr.take 500 text)) in
  if PyStr.contains "already exist" (PyStr.lower text)
  then
    try_except
      (existing_id <- _find_execution issue_id project_id (Some cycle_id) ;;
       match existing_id with
       | Some i =>
           if PyStr.nonempty i
           then ret (mkExecResult (Some i) false None None)
           else ret failed
       | None => ret failed
       end)
      (fun e => tret failed)
  else tret failed.

Definition add_test_to_cycle (issue_id_str : string)
           (project_id cycle_id : Z) (version_id folder_id : option Z)
  : task ExecResult :=
  let uri := "/public/rest/api/1.0/execution" in
  let query_params := "issueId=" +:+ issue_id_str +:+ "&projectId="
                      +:+ PyStr.of_Z project_id in
  try_except
    (try_except_status
       (body <- lift (execution_body issue_id_str project_id cycle_id
                        version_id folder_id) ;;
        data <- _make_request "POST" uri query_params (Some body) ;;
        exec_id <- lift (or_else (get data "id")
                           (obind (or_else (get data "execution")
                                     (Return (JObj [])))
                                  (fun ex => get ex "id"))) ;;
        ret (mkExecResult
               (match exec_id with
                | JNull => None
                | _ => Some (py_str exec_id)
                end) true (Some data) None))
       (_handle_existing_execution issue_id_str project_id cycle_id))
    (fun e => tret (mkExecResult None false None (Some (exn_str e)))).

(** ** Reading traces and outcomes *)

(** The HTTP exchanges among some events, in order. *)
Definition requests_of (evs : list event) : list Request :=
  omap (fun ev => match ev with EvRequest r => Some r | _ => None end) evs.

Definition created_of (o : StepOutcome) : option string :=
  match o with Created i => Some i | Failed _ => None end.

Definition failed_of (o : StepOutcome) : option string :=
  match o with Created _ => None | Failed e => Some e end.

(** The request [_add_single_step] sends for a step. *)
Definition step_request (uri : string) (project_id : Z) (step : StepIn)
           (is_last_step : bool) : Request :=
  mkRequest "POST" uri (project_query project_id)
            (Some (payload_json (make_payload step is_last_step))).

(** The create request for a step text, its data and its result. *)
Definition create_request (issue_id : string) (project_id : Z)
           (text data : string) (result : option string) : Request :=
  mkRequest "POST" (teststep_uri issue_id) (project_query project_id)
            (Some (JObj [("step", JStr text); ("data", JStr data);
                         ("result", opt_str_json result)])).
End Service.

End Zephyr.

(* ================================================================== *)
(** * app/routers/test_case.py: the bulk endpoint *)

Module Bulk.
Import Json Zephyr.

Record FullCreateBody : Type := mkFullCreateBody {
  summary : string;
  description : option string;
  components : option (list string);
  related_issues : option (list string);
  sprint_id : option Z;
  steps : option (list StepIn);
  version_id : option Z;
  cycle_id : option Z;
  execution_status : option json
}.

Record BulkFullCreateRequest : Type := mkBulkRequest {
  TestCases : list FullCreateBody;
  top_version_id : option Z;
  top_cycle_id : option Z
}.

(** [{"jira": {"id", "key"}, "execution_id"}] *)
Record ItemSuccess : Type := mkItemSuccess {
  jira_id : string;
  jira_key : string;
  item_execution_id : option string
}.

Record ItemFailure : Type := mkItemFailure { error : string }.

Record BulkItemResult : Type := mkBulkItemResult {
  index : Z;
  input_summary : option string;
  success : bool;
  result : option ItemSuccess;
  failure : option ItemFailure
}.

Record BulkFullCreateResponse : Type := mkBulkResponse {
  total : Z;
  succeeded : Z;
  failed : Z;
  results : list BulkItemResult
}.

(** The override of the per-item version and cycle by the top-level ones. *)
Definition enforce (payload : BulkFullCreateRequest) (tc : FullCreateBody)
  : FullCreateBody :=
  mkFullCreateBody (summary tc) (description tc) (components tc)
    (related_issues tc) (sprint_id tc) (steps tc)
    (match top_version_id payload with
     | Some v => Some v
     | None => version_id tc
     end)
    (match top_cycle_id payload with
     | Some c => Some c
     | None => cycle_id tc
     end)
    (execution_status tc).

Section Endpoint.
Context `{Env}.
(** The work on one item, [_full_create_one]: it creates the Jira issue,
    adds the steps, links the execution and returns the item's success
    record, or raises.  The endpoint treats it as a unit of work, so it
    is a variable here. *)
Variable _full_create_one : FullCreateBody -> M ItemSuccess.

Definition run_one (idx : Z) (body : FullCreateBody) : task BulkItemResult :=
  fun st =>
    match _full_create_one body st with
    | (Return r, st') =>
        (mkBulkItemResult idx (Some (summary body)) true (Some r) None, st')
    | (Raise (HTTPException status_code detail), st') =>
        (mkBulkItemResult idx (Some (summary body)) false None
           (Some (mkItemFailure ("HTTP " +:+ PyStr.of_Z status_code +:+ ": "
                                 +:+ detail))), st')
    | (Raise e, st') =>
        (mkBulkItemResult idx (Some (summary body)) false None
           (Some (mkItemFailure (exn_str e))), st')
    end.

Definition create_bulk_test_cases (payload : BulkFullCreateRequest)
  : task BulkFullCreateResponse :=
  let items := TestCases payload in
  let total := Z.of_nat (length items) in
  let enforced_items := enforce payload <$> items in
  fun st =>
    let '(results, st') :=
      gather (imap (fun i tc => run_one (Z.of_nat i) tc) enforced_items) st in
    let succeeded :=
      Z.of_nat (length (filter (fun r => success r = true) results)) in
    let failed := total - succeeded in
    (mkBulkResponse total succeeded failed results, st').
End Endpoint.

End Bulk.

(* ================================================================== *)
(** * A mock remote system, for running the service *)

Module Mock.
Import Json Zephyr.

Definition mock_str (v : json) : string :=
  match v with
  | JNull => "None"
  | JBool true => "True"
  | JBool false => "False"
  | JNum n => PyStr.of_Z n
  | JStr s => s
  | JArr _ => "[...]"
  | JObj _ => "{...}"
  end.

Definition mock_builtins : Builtins := {|
  py_str := mock_str;
  py_int v := match v with
              | JNum n => Return n
              | JBool b => Return (if b then 1 else 0)
              | JStr s =>
                  if isdigit s && forallb (fun c => (PyStr.code c <? 58)%N)
                                          (PyStr.to_list s)
                  then Return (fold_left
                                 (fun acc c =>
                                    10 * acc + Z.of_N (PyStr.code c) - 48)
                                 (PyStr.to_list s) 0)
                  else Raise (OtherException "invalid literal for int()")
              | _ => Raise (OtherException "int() argument is not a number")
              end;
  no_get v := OtherException "object has no attribute 'get'";
  not_iterable v := OtherException "object is not iterable";
  validation_error model := OtherException ("validation error for " +:+ model);
  repr_list l :=
    "[" +:+ PyStr.join ", " ((fun x => "'" +:+ x +:+ "'") <$> l) +:+ "]"
|}.

(** The remote test case: the steps it holds, how many more times it
    refuses to delete a step, how many of the next GETs of the step list
    fail, and the number of the next step it creates. *)
Record mock_world : Type := mkWorld {
  held : list string;
  refusals : list (string * nat);
  failing_gets : nat;
  next_id : Z
}.

Fixpoint refuses (sid : string) (l : list (string * nat))
  : option (list (string * nat)) :=
  match l with
  | [] => None
  | (i, n) :: rest =>
      if String.eqb sid i
      then match n with
           | O => None
           | S n' => Some ((i, n') :: rest)
           end
      else match refuses sid rest with
           | Some rest' => Some ((i, n) :: rest')
           | None => None
           end
  end.

Definition last_segment (uri : string) : string :=
  List.last (ZephyrAuth.split_all (String.length uri) "/"%char uri) "".

Definition step_json (i : string) : json :=
  JObj [("id", JStr i); ("orderId", JNum 0); ("step", JStr "do")].

Definition bad_request : exn :=
  HTTPStatusError 400 "Bad Request" "Client error '400 Bad Request'".

Definition conflict : exn :=
  HTTPStatusError 400 "Execution Already Exists for this cycle"
                  "Client error '400 Bad Request'".

Definition execution_list : json :=
  JObj [("executions",
         JArr [JObj [("execution",
                      JObj [("id", JStr "exec-77"); ("cycleId", JNum 3)])]])].

Definition mock_exchange (req : Request) (w : mock_world)
  : outcome json * mock_world :=
  if String.eqb (req_uri req) "/public/rest/api/1.0/execution"
  then (Raise conflict, w)
  else if String.eqb (req_uri req) "/public/rest/api/1.0/executions"
  then (Return execution_list, w)
  else if String.eqb (req_method req) "GET" then
    match failing_gets w with
    | S k => (Raise bad_request,
              mkWorld (held w) (refusals w) k (next_id w))
    | O => (Return (JArr (step_json <$> held w)), w)
    end
  else if String.eqb (req_method req) "DELETE" then
    let sid := last_segment (req_uri req) in
    match refuses sid (refusals w) with
    | Some refusals' =>
        (Raise bad_request,
         mkWorld (held w) refusals' (failing_gets w) (next_id w))
    | None =>
        (Return JNull,
         mkWorld (filter (fun i => i <> sid) (held w)) (refusals w)
                 (failing_gets w) (next_id w))
    end
  else
    let new := "n" +:+ PyStr.of_Z (next_id w) in
    (Return (JObj [("id", JStr new)]),
     mkWorld (held w ++ [new]) (refusals w) (failing_gets w)
             (next_id w + 1)).

Definition mock_env : Env := {|
  PROJECT_ID := 24300;
  env_builtins := mock_builtins;
  world := mock_world;
  exchange := mock_exchange;
  random_uniform lo hi := lo
|}.

Definition start (w : mock_world) (sched : list nat) : @state mock_env :=
  @mkState mock_env [] ∅ sched w.

Definition steps3 : list StepIn :=
  [ mkStepIn (Some "open") None (Some "opened");
    mkStepIn (Some " ") (Some "x") (Some "ignored");
    mkStepIn (Some "close") (Some "y") (Some "closed") ].

Definition steps2 : list StepIn :=
  [ mkStepIn (Some "open") None (Some "opened");
    mkStepIn (Some "close") (Some "y") (Some "closed") ].

(** Five steps, two of which the remote system refuses to delete, time
    and again. *)
Definition stubborn : mock_world :=
  mkWorld ["a"; "b"; "c"; "d"; "e"] [("d", 100%nat); ("e", 100%nat)] 0 1.

(** Five steps; the remote system refuses the first three deletions of two
    of them (the three rounds of [_delete_one]) and then gives in. *)
Definition reluctant : mock_world :=
  mkWorld ["a"; "b"; "c"; "d"; "e"] [("d", 3%nat); ("e", 3%nat)] 0 1.

(** Two steps, and the next fetch of the step list fails. *)
Definition flaky : mock_world := mkWorld ["a"; "b"] [] 1 1.

(** The state in which the body of [update_test_steps] starts. *)
Definition locked (issue_id : string) (st : @state mock_env)
  : @state mock_env :=
  log (EvAcquire issue_id) (lock_entry issue_id st).

(** An item workflow that fails on the item called "bad" and succeeds on
    every other item. *)
Definition mock_worker (body : Bulk.FullCreateBody)
  : @M mock_env Bulk.ItemSuccess :=
  fun st =>
    if String.eqb (Bulk.summary body) "bad"
    then (Raise (OtherException "boom"), st)
    else (Return (Bulk.mkItemSuccess "10001" (Bulk.summary body) None),
          log (EvRetrySleep 0) st).

Definition item (name : string) : Bulk.FullCreateBody :=
  Bulk.mkFullCreateBody name None None None None None None None None.

Definition batch10 : Bulk.BulkFullCreateRequest :=
  Bulk.mkBulkRequest
    [item "t0"; item "t1"; item "t2"; item "t3"; item "bad";
     item "t5"; item "t6"; item "t7"; item "t8"; item "t9"]
    (Some 10000) (Some 5000).

(** The requests of a trace, as (method, last path segment, body). *)
Definition calls (tr : list (@event)) : list (string * string * option json) :=
  omap (fun ev =>
          match ev with
          | EvRequest r =>
              Some (req_method r, last_segment (req_uri r), req_json r)
          | _ => None
          end) tr.

End Mock.

(* ================================================================== *)
(** * Counting what the retry loop does *)

Module RetryTally.

(** Test doubles that count the calls of the wrapped function and the
    sleeps of the loop: the state is (calls, sleeps, state of the function). *)
Definition tally_func {S A : Type} (func : S -> outcome A * S)
  : nat * nat * S -> outcome A * (nat * nat * S) :=
  fun '(c, z, s) => let '(r, s') := func s in (r, (Datatypes.S c, z, s')).

Definition tally_sleep {S : Type} (sleep : Z -> S -> S)
  : Z -> nat * nat * S -> nat * nat * S :=
  fun attempt '(c, z, s) => (c, Datatypes.S z, sleep attempt s).

(** Test doubles that write down the calls and the sleeps in the order in
    which they happen: the state is (log, state of the function). *)
Inductive step : Type :=
| Called
| Slept (attempt : Z).

Definition logged_func {S A : Type} (func : S -> outcome A * S)
  : list step * S -> outcome A * (list step * S) :=
  fun '(l, s) => let '(r, s') := func s in (r, (l ++ [Called], s')).

Definition logged_sleep {S : Type} (sleep : Z -> S -> S)
  : Z -> list step * S -> list step * S :=
  fun attempt '(l, s) => (l ++ [Slept attempt], sleep attempt s).

(** [k + 1] calls with the sleep of its attempt after each call but the
    last, counting the attempts from [attempt]. *)
Fixpoint retry_log (attempt : Z) (k : nat) : list step :=
  match k with
  | O => [Called]
  | Datatypes.S k' => Called :: Slept attempt :: retry_log (attempt + 1) k'
  end.

(** An endpoint that fails with HTTP 503 on its first [n] calls and then
    answers; its state is the number of calls so far. *)
Definition flaky_endpoint (n : nat) (calls : nat) : outcome nat * nat :=
  if (calls <? n)%nat
  then (Raise (HTTPStatusError 503 "" ""), Datatypes.S calls)
  else (Return calls, Datatypes.S calls).

End RetryTally.

(* ================================================================== *)
(** * The shape of the trace of one request *)

Module ZephyrTrace.
Import Json Zephyr.

(** What [_make_request] adds to the trace when the request is sent
    [k + 1] times: the request, then a sleep and the request again, [k]
    times over. *)
Fixpoint retry_events (req : Request) (attempt : Z) (k : nat) : list event :=
  match k with
  | O => [EvRequest req]
  | S k' =>
      EvRequest req :: EvRetrySleep attempt :: retry_events req (attempt + 1) k'
  end.

End ZephyrTrace.

(* ================================================================== *)
(** * Reading canonical queries back *)

Module ZephyrAuthExt.
Import ZephyrAuth.

Definition hex_value (c : ascii) : N :=
  let n := PyStr.code c in
  if ((48 <=? n) && (n <=? 57))%N then n - 48 else n - 55.

(** Reads one percent-encoded code point off the front of a text. *)
Definition decode_char (s : string) : option (ascii * string) :=
  match s with
  | String "%"%char (String h1 (String l1 rest)) =>
      let b1 := (16 * hex_value h1 + hex_value l1)%N in
      if (b1 <? 128)%N then Some (ascii_of_N b1, rest)
      else
        match rest with
        | String "%"%char (String h2 (String l2 rest')) =>
            let b2 := (16 * hex_value h2 + hex_value l2)%N in
            Some (ascii_of_N (N.lor (N.shiftl (N.land b1 3) 6) (N.land b2 63)),
                  rest')
        | _ => None
        end
  | String "%"%char _ => None
  | String c rest => Some (c, rest)
  | EmptyString => None
  end.

(** The items of the canonical query: the sorted [(key, values)] list that
    [canonicalize] joins. *)
Definition canonical_items (pairs : list (string * string))
  : list (string * list string) :=
  let pairs := filter (fun kv => PyStr.lower kv.1 <> "jwt") pairs in
  let multimap := foldl multimap_add ∅ pairs in
  let multimap := merge_sort str_le <$> multimap in
  merge_sort key_le (map_to_list multimap).

Section Paths.
Context `{UrlLib}.

(** [base_prefix], [request_path] and [qsh_path] of [canonicalize]. *)
Definition base_prefix_of (base_url : string) : string :=
  rstrip_slash (str_or (urlsplit_path base_url) "").

Definition request_path_of (base_url uri : string) : string :=
  let path := uri_path uri in
  let base_prefix := base_prefix_of base_url in
  if PyStr.nonempty base_prefix && negb (PyStr.startswith path base_prefix)
  then base_prefix +:+ "/" +:+ lstrip_slash path
  else path.

Definition qsh_path_of (base_url uri : string) : string :=
  let base_prefix := base_prefix_of base_url in
  let request_path := request_path_of base_url uri in
  if PyStr.nonempty base_prefix && PyStr.startswith request_path base_prefix
  then
    let stripped := PyStr.drop (String.length base_prefix) request_path in
    if negb (PyStr.startswith stripped "/") then "/" +:+ stripped
    else stripped
  else request_path.
End Paths.

End ZephyrAuthExt.

(* ================================================================== *)
(** * A remote system that is always busy *)

Module Busy.
Import Json Zephyr.

Definition busy : exn := HTTPStatusError 503 "busy" "Server error '503'".

Definition busy_exchange (req : Request) (n : nat) : outcome json * nat :=
  (Raise busy, S n).

Definition busy_env : Env := {|
  PROJECT_ID := 24300;
  env_builtins := Mock.mock_builtins;
  world := nat;
  exchange := busy_exchange;
  random_uniform lo hi := lo
|}.

End Busy.

(* ================================================================== *)
(** * A remote system with one malformed step *)

Module Odd.
Import Json Zephyr.

(** The step list holds a well-formed step and a bare number. *)
Definition odd_list : list json :=
  [JObj [("id", JStr "7"); ("orderId", JNum 2); ("step", JStr "press")];
   JNum 5].

Definition odd_exchange (req : Request) (n : nat) : outcome json * nat :=
  (Return (JArr odd_list), S n).

Definition odd_env : Env := {|
  PROJECT_ID := 24300;
  env_builtins := Mock.mock_builtins;
  world := nat;
  exchange := odd_exchange;
  random_uniform lo hi := lo
|}.

Definition two_steps : list json :=
  [JObj [("teststep",
          JObj [("id", JNum 12); ("orderId", JNum 2); ("step", JStr "b")])];
   JObj [("id", JStr "11"); ("orderId", JNum 1); ("step", JStr "a");
         ("expectedResult", JStr "ok")]].

(** A flat step whose text stands under the key [testStep]. *)
Definition flat_step : json :=
  JObj [("id", JStr "11"); ("orderId", JNum 1); ("testStep", JStr "a")].

End Odd.

(* ================================================================== *)
(** * What the step replacement may put on the trace *)

Module ZephyrInv.
Import Json Zephyr.

Section Inv.
Context `{Env}.

(** The request of [get_test_case]: it carries the configured project. *)
Definition fetch_request (issue_id : string) : Request :=
  mkRequest "GET" (teststep_uri issue_id) (project_query PROJECT_ID) None.

(** The request of [delete_test_step]. *)
Definition delete_request (issue_id : string) (project_id : Z)
           (step_id : string) : Request :=
  mkRequest "DELETE"
    ("/public/rest/api/1.0/teststep/" +:+ issue_id +:+ "/" +:+ step_id)
    (project_query project_id) None.

(** The requests of one run of [update_test_steps]. *)
Definition body_request (issue_id : string) (project_id : Z) (r : Request)
  : Prop :=
  r = fetch_request issue_id
  \/ (exists step_id, r = delete_request issue_id project_id step_id)
  \/ (exists step is_last_step,
        r = step_request (teststep_uri issue_id) project_id step is_last_step).

(** The events between taking the lock and giving it back. *)
Definition body_event (issue_id : string) (project_id : Z) (ev : event)
  : Prop :=
  match ev with
  | EvRequest r => body_request issue_id project_id r
  | EvRetrySleep _ | EvDeleteSleep _ => True
  | EvAcquire _ | EvRelease _ => False
  end.

(** [st'] comes from [st] by adding events that satisfy [P], with the
    lock table as it was. *)
Definition grows (P : event -> Prop) (st st' : state) : Prop :=
  exists evs,
    trace st' = trace st ++ evs
    /\ Forall P evs
    /\ issue_locks st' = issue_locks st.

(** The arguments of the sleeps of [_delete_one] among some events. *)
Definition delete_sleeps_of (evs : list event) : list Z :=
  omap (fun ev => match ev with EvDeleteSleep a => Some a | _ => None end) evs.
End Inv.

End ZephyrInv.

(* ================================================================== *)
(** * Setting the status of an execution
      (app/services/zephyr_service.py) *)

Module ZephyrExec.
Import Json Zephyr.

Record CreateExecution : Type := mkCreateExecution {
  ce_execution_id : option string;
  ce_created : bool;
  status_updated : bool
}.

(** [x if x else None] on an optional text *)
Definition truthy_id (exec_id : option string) : option string :=
  match exec_id with
  | Some i => if PyStr.nonempty i then Some i else None
  | None => None
  end.

Notation "x <- c ;; k" := (bind c (fun x => k))
  (at level 20, c at level 99, k at level 200, only parsing).
Notation "x <~ c ;; k" := (tbind c (fun x => k))
  (at level 20, c at level 99, k at level 200, only parsing).

Section Exec.
Context `{Env}.

(** [await t] for a coroutine [t] that raises nothing. *)
Definition await {A : Type} (t : task A) : M A :=
  fun st => let '(a, st') := t st in (Return a, st').

(** [if o is not None: body[key] = o] *)
Definition optional_number (key : string) (o : option Z)
  : list (string * json) :=
  match o with
  | Some n => [(key, JNum n)]
  | None => []
  end.

(** The request of [execute_test]. *)
Definition execute_request (project_id issue_id : Z) (execution_id : string)
           (status_id : Z) (cycle_id version_id : option Z) : Request :=
  mkRequest "PUT"
    ("/public/rest/api/" +:+ API_VERSION +:+ "/execution/" +:+ execution_id)
    ("issueId=" +:+ PyStr.of_Z issue_id +:+ "&projectId="
     +:+ PyStr.of_Z project_id)
    (Some (JObj ([("status", JObj [("id", JNum status_id)])]
                 ++ optional_number "cycleId" cycle_id
                 ++ optional_number "versionId" version_id
                 ++ [("projectId", JNum project_id);
                     ("id", JStr execution_id);
                     ("issueId", JNum issue_id)]))).

(** [execute_test]: its [except] branch logs and raises again. *)
Definition execute_test (project_id issue_id : Z) (execution_id : string)
           (status_id : Z) (cycle_id version_id : option Z) : M unit :=
  let r := execute_request project_id issue_id execution_id status_id
             cycle_id version_id in
  sent <- _make_request (req_method r) (req_uri r) (req_query r) (req_json r) ;;
  ret tt.

(** [int(str(issue_id))], and 0 on [ValueError]: the result of
    [add_test_to_cycle] has no key [issue_id]. *)
Definition issue_number (issue_id : string) : Z :=
  match py_int (JStr issue_id) with
  | Return n => n
  | Raise _ => 0
  end.

Definition create_execution_and_optionally_execute (issue_id : string)
           (project_id cycle_id : Z) (version_id status_id : option Z)
  : M CreateExecution :=
  res <- await (add_test_to_cycle issue_id project_id cycle_id version_id
                  None) ;;
  let exec_id := execution_id res in
  let created := created res in
  status_updated <-
    match truthy_id exec_id, status_id with
    | Some i, Some s =>
        sent <- execute_test project_id (issue_number issue_id) i s None None ;;
        ret true
    | _, _ => ret false
    end ;;
  ret (mkCreateExecution (truthy_id exec_id) created status_updated).
End Exec.

End ZephyrExec.

(* ================================================================== *)
(** * The endpoints of app/routers/zephyr.py *)

Module ZephyrRouter.
Import Json Zephyr ZephyrExec.

(** The pydantic model [StepIn] of a request body. *)
Record StepInModel : Type := mkStepInModel {
  m_step : string;
  m_data : option string;
  m_result : option string
}.

Definition model_dump (s : StepInModel) : StepIn :=
  mkStepIn (Some (m_step s)) (m_data s) (m_result s).

Record UpdateZephyrTestCaseRequest : Type := mkUpdateRequest {
  req_steps : option (list StepInModel);
  req_expected_result : option string
}.

(** The dict [update_test_case] answers with; the first answer has no
    key [updated_fields]. *)
Record UpdateReply : Type := mkUpdateReply {
  success : bool;
  message : string;
  updated_fields : option (list string)
}.

Record ExecuteBody : Type := mkExecuteBody {
  eb_status : option string;
  eb_status_id : option Z;
  eb_cycle_id : option Z;
  eb_version_id : option Z
}.

Record ExecuteReply : Type := mkExecuteReply {
  ok : bool;
  er_execution_id : string;
  er_issue_id : Z;
  er_status : string;
  er_status_id : Z;
  er_cycle_id : option Z;
  er_version_id : option Z
}.

(** [except HTTPException: raise] followed by
    [except Exception as e: raise HTTPException(502, prefix + str(e))] *)
Definition bad_gateway (prefix : string) (e : exn) : exn :=
  match e with
  | HTTPException _ _ => e
  | _ => HTTPException 502 (prefix +:+ exn_str e)
  end.

Section Routes.
Context `{Env}.

(** [try: c  except Exception as e: raise handler e] *)
Definition try_reraise {A : Type} (c : M A) (handler : exn -> exn) : M A :=
  fun st =>
    match c st with
    | (Raise e, st') => (Raise (handler e), st')
    | r => r
    end.

(** GET /api/zephyr/test-cases/{test_case_id} *)
Definition get_test_case (test_case_id : string)
  : M ZephyrTestCaseWithSteps :=
  try_reraise
    (test_case <- await (Zephyr.get_test_case test_case_id) ;;
     match test_case with
     | None => lift (Raise (HTTPException 404 "Test case not found"))
     | Some tc => ret tc
     end)
    (fun e => HTTPException 500 "Failed to fetch test case").

(** PUT /api/zephyr/executions/{execution_id} *)
Definition execute_test_route (execution_id : string) (issue_id : Z)
           (body : ExecuteBody) : M ExecuteReply :=
  try_reraise
    (match eb_status_id body with
     | Some status_id =>
         let status_name :=
           match eb_status body with
           | Some s => if PyStr.nonempty s then s else "<by-id>"
           | None => "<by-id>"
           end in
         sent <- execute_test PROJECT_ID issue_id execution_id status_id
                (eb_cycle_id body) (eb_version_id body) ;;
         ret (mkExecuteReply true execution_id issue_id status_name status_id
                (eb_cycle_id body) (eb_version_id body))
     | None =>
         lift (Raise (HTTPException 400 "'status_id' must be provided."))
     end)
    (bad_gateway "Failed to execute test: ").

(** PUT /api/zephyr/test-cases/{issue_id} *)
Definition update_test_case (issue_id : string)
           (payload : UpdateZephyrTestCaseRequest) : M UpdateReply :=
  try_reraise
    (match req_steps payload, req_expected_result payload with
     | None, None => ret (mkUpdateReply true "No fields to update" None)
     | _, _ =>
         updated_fields <-
           match req_steps payload with
           | Some (s :: rest) =>
               res <- await (update_test_steps issue_id PROJECT_ID
                             (model_dump <$> s :: rest)) ;;
               ret ["steps"]
           | _ => ret []
           end ;;
         ret (mkUpdateReply true "Test case updated successfully"
                (Some updated_fields))
     end)
    (fun e => HTTPException 500
                ("Failed to update test case: " +:+ exn_str e)).
End Routes.

End ZephyrRouter.

(* ================================================================== *)
(** * The work on one item of a bulk request (app/routers/test_case.py) *)

Module FullCreate.
Import Json Zephyr ZephyrExec.

Section One.
Context `{Env}.

(** [jira_service.create_test_issue], as the identifier and the key of
    the issue it made; it belongs to the Jira side and is a variable. *)
Variable create_test_issue : Bulk.FullCreateBody -> M (Z * string).

(** [await asyncio.gather(a, b)] on two tasks: [gather] on a list of
    two, with the results told apart. *)
Definition both {A B : Type} (a : task A) (b : task B) : task (A * B) :=
  choice <~ next_choice ;;
  if (choice `mod` 2 =? 0)%nat
  then x <~ a ;; last <~ next_choice ;; y <~ b ;; tret (x, y)
  else y <~ b ;; last <~ next_choice ;; x <~ a ;; tret (x, y).

(** Steps 2 and 3: the steps and the execution, together when both are
    asked for; the result is [exec_id]. *)
Definition steps_and_cycle (body : Bulk.FullCreateBody) (issue_id : string)
  : task (option string) :=
  let add_steps_task :=
    match Bulk.steps body with
    | Some (s :: rest) => Some (add_test_steps issue_id PROJECT_ID (s :: rest))
    | _ => None
    end in
  let add_to_cycle_task :=
    match Bulk.version_id body, Bulk.cycle_id body with
    | Some v, Some c =>
        Some (add_test_to_cycle issue_id PROJECT_ID c (Some v) None)
    | _, _ => None
    end in
  match add_steps_task, add_to_cycle_task with
  | Some a, Some b => r <~ both a b ;; tret (execution_id r.2)
  | Some a, None => steps_res <~ a ;; tret None
  | None, Some b => r <~ b ;; tret (execution_id r)
  | None, None => tret None
  end.

(** [int(issue_id)] is the number [created["id"]] again, [issue_id]
    being its decimal text. *)
Definition _full_create_one (body : Bulk.FullCreateBody)
  : M Bulk.ItemSuccess :=
  created <- create_test_issue body ;;
  let issue_id := PyStr.of_Z created.1 in
  let issue_key := created.2 in
  exec_id <- await (steps_and_cycle body issue_id) ;;
  executed <-
    match truthy_id exec_id, Bulk.execution_status body with
    | Some i, Some status =>
        if truthy status
        then
          status_id <- lift (get status "id") ;;
          status_id <- lift (py_int status_id) ;;
          execute_test PROJECT_ID created.1 i status_id None None
        else ret tt
    | _, _ => ret tt
    end ;;
  ret (Bulk.mkItemSuccess issue_id issue_key (truthy_id exec_id)).
End One.

(** A Jira side that makes issue 10001. *)
Definition mock_create (body : Bulk.FullCreateBody)
  : @M Mock.mock_env (Z * string) :=
  fun st => (Return (10001, "SE2-1"), st).

(** An item for cycle 3 whose status is given by name only. *)
Definition by_name : Bulk.FullCreateBody :=
  Bulk.mkFullCreateBody "login" None None None None None
    (Some 10000) (Some 3) (Some (JObj [("name", JStr "PASS")])).

End FullCreate.

(* ================================================================== *)
(** * The verification phase of the step replacement, as the result shows it *)

Module ZephyrReplace.
Import Json Zephyr.

(** What the second pass over one leftover step leaves behind: nothing
    when the step is deleted (the count goes up), else the entry of
    [errors]. *)
Definition leftover_outcome (step_id : string) (r : outcome bool)
  : option string :=
  match r with
  | Return true => None
  | Return false => Some ("Failed to delete leftover step " +:+ step_id)
  | Raise e =>
      Some ("Exception deleting leftover step " +:+ step_id +:+ ": "
            +:+ PyStr.take 200 (exn_str e))
  end.

Definition deleted_among (outs : list (option string)) : nat :=
  length (filter (fun o => o = None) outs).

Definition errors_among (outs : list (option string)) : list string :=
  omap (fun o => o) outs.

(** The entry for the steps that the last fetch still reports. *)
Definition still_present_warning `{Builtins} (issue_id : string)
           (still : list string) : list string :=
  match still with
  | [] => []
  | _ => ["Steps still present after cleanup for issue " +:+ issue_id
          +:+ ": " +:+ repr_list still]
  end.

End ZephyrReplace.

(* ================================================================== *)
(** * Part II.  Properties *)

(* ================================================================== *)
(** * Facts about app/utils/retry.py *)

Module RetryFacts.
Import Retry.

Lemma calculate_delay_defined uniform attempt cfg :
  in_range (exponential_base cfg) (attempt - 1) = true ->
  exists delay, calculate_delay uniform attempt cfg = Return delay.
Proof.
  intros Hrange. unfold calculate_delay, float_pow. rewrite Hrange.
  destruct (jitter cfg); eauto.
Qed.

Lemma calculate_delay_overflow uniform attempt cfg :
  in_range (exponential_base cfg) (attempt - 1) = false ->
  calculate_delay uniform attempt cfg = Raise overflow_error.
Proof.
  intros Hrange. unfold calculate_delay, float_pow. by rewrite Hrange.
Qed.

Section Facts.
Context {S A : Type}.
Variable uniform : Q -> Q -> Q.
Variable sleep : Z -> S -> S.
Variable name : string.
Variable func : S -> outcome A * S.

Lemma attempts_all_503 cfg remaining attempt last n s :
  no_overflow cfg ->
  (forall s', fails_with func 503 s') ->
  (0 < remaining)%nat ->
  1 <= attempt ->
  attempt + Z.of_nat remaining = max_attempts cfg + 1 ->
  exists e s_last s_end,
    attempts uniform (counted_sleep sleep) (Return name) (counted func) cfg
             remaining attempt last (n, s)
    = (Raise e, ((n + remaining)%nat, s_end))
    /\ func s_last = (Raise e, s_end).
Proof.
  intros Hdelays Hfail. revert attempt last n s.
  induction remaining as [|k IH]; intros attempt last n s Hpos Hone Hsum;
    [lia|].
  destruct (Hfail s) as (text & msg & Hs).
  cbn [attempts counted].
  destruct (func s) as [r s1] eqn:Hf. cbn in Hs. subst r.
  cbn [is_retryable_exception RETRYABLE_STATUS_CODES existsb negb].
  replace (503 =? 503) with true by reflexivity.
  rewrite !orb_true_r. cbn [negb].
  destruct (attempt =? max_attempts cfg) eqn:Hlast.
  - apply Z.eqb_eq in Hlast.
    assert (k = 0%nat) by lia. subst k.
    exists (HTTPStatusError 503 text msg), s, s1.
    split; [f_equal; f_equal; lia | exact Hf].
  - apply Z.eqb_neq in Hlast.
    destruct (calculate_delay_defined uniform attempt cfg) as [delay ->];
      [apply Hdelays; lia|].
    destruct (IH (attempt + 1) (Some (HTTPStatusError 503 text msg))
                 (Datatypes.S n) (sleep attempt s1))
      as (e & s_last & s_end & Hrun & Hcall); [lia | lia | lia |].
    exists e, s_last, s_end. split; [|exact Hcall].
    cbn [counted_sleep]. rewrite Hrun. f_equal. f_equal. lia.
Qed.

(** The retry claim where the code keeps it: the wrapped function has a
    name, at least one attempt is configured and no delay overflows.  A
    function that fails with HTTP 503 on every call is then awaited
    exactly [max_attempts] times and the exception of the last call is
    raised with no sleep after it; a function whose first call fails with
    HTTP 400 is awaited once and that exception is raised at once. *)
Lemma async_retry_exhaustion_and_no_retry cfg (s : S) :
  1 <= max_attempts cfg ->
  no_overflow cfg ->
  ((forall s', fails_with func 503 s') ->
   exists e s_last s_end,
     async_retry uniform (counted_sleep sleep) (Return name) (counted func)
                 cfg (0%nat, s)
     = (Raise e, (Z.to_nat (max_attempts cfg), s_end))
     /\ func s_last = (Raise e, s_end))
  /\
  (forall text msg s1,
     func s = (Raise (HTTPStatusError 400 text msg), s1) ->
     async_retry uniform (counted_sleep sleep) (Return name) (counted func)
                 cfg (0%nat, s)
     = (Raise (HTTPStatusError 400 text msg), (1%nat, s1))).
Proof.
  intros Hmax Hdelays. split.
  - intros Hfail. unfold async_retry.
    destruct (attempts_all_503 cfg (Z.to_nat (max_attempts cfg)) 1 None
                0%nat s Hdelays Hfail) as (e & s_last & s_end & Hrun & Hcall);
      [lia | lia | lia |].
    exists e, s_last, s_end. split; [exact Hrun | exact Hcall].
  - intros text msg s1 Hf. unfold async_retry.
    destruct (Z.to_nat (max_attempts cfg)) as [|k] eqn:Hk; [lia|].
    cbn [attempts counted]. rewrite Hf. reflexivity.
Qed.

(** With no attempt configured the loop body never runs, nothing is
    awaited and Python's [None] is returned. *)
Lemma async_retry_no_attempt func_name cfg (s : nat * S) :
  max_attempts cfg <= 0 ->
  async_retry uniform (counted_sleep sleep) func_name (counted func) cfg s
  = (Return None, s).
Proof.
  intros H. unfold async_retry.
  replace (Z.to_nat (max_attempts cfg)) with 0%nat by lia. reflexivity.
Qed.
End Facts.

Lemma no_overflow_default : no_overflow default_config.
Proof.
  intros attempt Hattempt. cbn in Hattempt.
  assert (attempt = 1 \/ attempt = 2) as [-> | ->] by lia;
    vm_compute; reflexivity.
Qed.

(** The two runs of the specification, evaluated: three calls on 503, the
    exception of the third call is raised; one call on 400. *)
Example retry_runs :
  async_retry (fun lo hi => lo) (counted_sleep (fun _ s => s))
              (Return "endpoint") (counted (mock_endpoint 503))
              default_config (0%nat, 0%nat)
  = (Raise (HTTPStatusError 503 "" "2"), (3%nat, 3%nat))
  /\ async_retry (fun lo hi => lo) (counted_sleep (fun _ s => s))
                 (Return "endpoint") (counted (mock_endpoint 400))
                 default_config (0%nat, 0%nat)
     = (Raise (HTTPStatusError 400 "" "0"), (1%nat, 1%nat)).
Proof. vm_compute. split; reflexivity. Qed.

(** C5: the code breaks the claim when a delay overflows.  With 1026 attempts
    configured and everything else as in [RetryConfig()], an endpoint that
    always answers 503 is awaited 1025 times, not 1026: the delay after the
    1025th failure is 1.0 * 2.0 ** 1024, which is no float, so
    [calculate_delay] raises [OverflowError] and that exception, not the
    last 503, leaves [async_retry]. *)
Theorem async_retry_overflow_before_exhaustion :
  async_retry (fun lo hi => lo) (counted_sleep (fun _ s => s))
              (Return "endpoint") (counted (mock_endpoint 503))
              (mkRetryConfig 1026 (1 # 1) (60 # 1) (2 # 1) true)
              (0%nat, 0%nat)
  = (Raise overflow_error, (1025%nat, 1025%nat)).
Proof. vm_compute. reflexivity. Qed.

End RetryFacts.

(* ================================================================== *)
(** * Facts about app/utils/zephyr_auth.py *)

Module ZephyrAuthFacts.
Import ZephyrAuth.

Example canonicalize_example :
  @canonicalize toy_urllib "/connect/" "get"
    "/public/rest/api/1.0/executions?b=2" "a=x y&jwt=t&b=1&a=~"
  = ("/connect/public/rest/api/1.0/executions", "a=x%20y,~&b=1,2",
     "GET&/public/rest/api/1.0/executions&a=x%20y,~&b=1,2").
Proof. vm_compute. reflexivity. Qed.

(** ** The order on strings *)

Lemma ascii_compare_N a b :
  Ascii.compare a b = N.compare (N_of_ascii a) (N_of_ascii b).
Proof. reflexivity. Qed.

Lemma string_leb_trans a b c :
  String.leb a b = true -> String.leb b c = true -> String.leb a c = true.
Proof.
  unfold String.leb. revert b c.
  induction a as [|x a IH]; intros [|y b] [|z c]; cbn; try congruence.
  rewrite !ascii_compare_N.
  destruct (N.compare_spec (N_of_ascii x) (N_of_ascii y)) as [Hxy|Hxy|Hxy];
    destruct (N.compare_spec (N_of_ascii y) (N_of_ascii z)) as [Hyz|Hyz|Hyz];
    try congruence.
  - rewrite Hxy, Hyz, N.compare_refl. apply IH.
  - rewrite Hxy. intros _ _.
    destruct (N.compare_spec (N_of_ascii y) (N_of_ascii z)); [lia|done|lia].
  - rewrite <- Hyz. intros _ _.
    destruct (N.compare_spec (N_of_ascii x) (N_of_ascii y)); [lia|done|lia].
  - intros _ _.
    destruct (N.compare_spec (N_of_ascii x) (N_of_ascii z)); [lia|done|lia].
Qed.

#[local] Instance str_le_trans : Transitive str_le.
Proof. intros a b c. apply string_leb_trans. Qed.

#[local] Instance str_le_antisym : AntiSymm (=) str_le.
Proof. intros a b. apply String.leb_antisym. Qed.

#[local] Instance str_le_total : Total str_le.
Proof. intros a b. apply String.leb_total. Qed.


(** ** Grouping the encoded pairs *)

Lemma foldl_multimap_add_lookup pairs m k :
  foldl multimap_add m pairs !! k
  = match m !! k, values_of k pairs with
    | None, [] => None
    | o, vs => Some (default [] o ++ vs)
    end.
Proof.
  revert m. induction pairs as [|[a b] pairs IH]; intros m.
  - cbn. destruct (m !! k); [by rewrite app_nil_r | done].
  - cbn [foldl]. rewrite IH. unfold multimap_add, values_of. cbn [fst snd].
    rewrite filter_cons. cbn [fst].
    destruct (decide (pct_encode a = k)) as [->|Hne].
    + rewrite lookup_insert_eq, fmap_cons. cbn [snd default].
      destruct (m !! k); cbn; [|done].
      unfold id. by rewrite <- app_assoc.
    + by rewrite lookup_insert_ne.
Qed.






End ZephyrAuthFacts.

(* ================================================================== *)
(** * Facts about app/services/zephyr_service.py *)

Module ZephyrFacts.
Import Json Zephyr.

Section Facts.
Context `{Env}.

(** ** Traces *)

Lemma requests_of_app evs1 evs2 :
  requests_of (evs1 ++ evs2) = requests_of evs1 ++ requests_of evs2.
Proof. unfold requests_of. apply omap_app. Qed.

Lemma exchange_trace method uri qs body st r st' :
  supported_method method = true ->
  _make_request_without_retry method uri qs body st = (r, st') ->
  trace st' = trace st ++ [EvRequest (mkRequest method uri qs body)].
Proof.
  unfold _make_request_without_retry. intros -> Hrun. cbn [negb] in Hrun.
  destruct (exchange _ _) as [[b|e] w]; inversion Hrun; reflexivity.
Qed.

(** A request under [async_retry] is sent at least once, and only
    that request and sleeps are added to the trace. *)
Lemma attempts_trace method uri qs body remaining attempt last st r st' :
  supported_method method = true ->
  Retry.attempts random_uniform (fun a => log (EvRetrySleep a))
    (Return "_make_request_without_retry")
    (_make_request_without_retry method uri qs body) retry_config
    remaining attempt last st = (r, st') ->
  exists evs,
    trace st' = trace st ++ evs
    /\ requests_of evs
       = replicate (length (requests_of evs)) (mkRequest method uri qs body)
    /\ (remaining <> 0%nat -> requests_of evs <> []).
Proof.
  intros Hmethod. revert attempt last st.
  induction remaining as [|k IH]; intros attempt last st Hrun.
  - exists []. cbn in Hrun.
    destruct last; inversion Hrun; rewrite app_nil_r; done.
  - cbn [Retry.attempts] in Hrun.
    destruct (_make_request_without_retry method uri qs body st)
      as [[b|e] st1] eqn:Hcall;
      pose proof (exchange_trace _ _ _ _ _ _ _ Hmethod Hcall) as Htr.
    + inversion Hrun; subst. eexists; split; [exact Htr|]. by cbn.
    + destruct (negb (Retry.is_retryable_exception e)).
      { inversion Hrun; subst. eexists; split; [exact Htr|]. by cbn. }
      destruct (attempt =? Retry.max_attempts retry_config).
      { inversion Hrun; subst. eexists; split; [exact Htr|]. by cbn. }
      destruct (Retry.calculate_delay _ _ _) as [delay|overflow].
      2: { inversion Hrun; subst. eexists; split; [exact Htr|]. by cbn. }
      apply IH in Hrun as (evs & Hevs & Hreq & _).
      exists (EvRequest (mkRequest method uri qs body)
                :: EvRetrySleep attempt :: evs).
      split; [|split; [|by cbn]].
      * rewrite Hevs. cbn [log trace]. rewrite Htr, <- !app_assoc. done.
      * cbn. f_equal. exact Hreq.
Qed.

Lemma make_request_trace method uri qs body st r st' :
  supported_method method = true ->
  _make_request method uri qs body st = (r, st') ->
  exists evs k,
    trace st' = trace st ++ evs
    /\ requests_of evs = replicate (S k) (mkRequest method uri qs body).
Proof.
  unfold _make_request, Retry.async_retry. intros Hmethod Hrun.
  destruct (Retry.attempts _ _ _ _ _ _ _ _ _) as [r0 st0] eqn:Hatt.
  apply attempts_trace in Hatt as (evs & Hevs & Hreq & Hne); [|done].
  assert (st0 = st') as ->.
  { destruct r0 as [[b|]|e]; by inversion Hrun. }
  exists evs. destruct (requests_of evs) as [|x l] eqn:E.
  - exfalso. by apply Hne.
  - exists (length l). split; [done|]. exact Hreq.
Qed.

(** C9: with no new step, [update_test_steps] returns the empty result
    at once and leaves the state as it was: the trace gains no request
    and no lock operation, the lock table gains no entry, and the remote
    step set is untouched. *)
Theorem update_test_steps_empty_is_noop
    (issue_id : string) (project_id : Z) (st : state) :
  update_test_steps issue_id project_id [] st
  = (mkUpdateResult 0 0 [] [], st).
Proof. reflexivity. Qed.

(** ** Adding steps *)

Lemma add_single_step_empty uri project_id step is_last_step st :
  PyStr.nonempty (p_step (make_payload step is_last_step)) = false ->
  _add_single_step uri project_id step is_last_step st
  = (Failed "Empty step text", st).
Proof. intros Hempty. unfold _add_single_step. by rewrite Hempty. Qed.

Lemma add_single_step_trace uri project_id step is_last_step st :
  exists evs,
    trace (_add_single_step uri project_id step is_last_step st).2
    = trace st ++ evs
    /\ (forall r, r ∈ requests_of evs ->
          r = step_request uri project_id step is_last_step
          /\ PyStr.nonempty (p_step (make_payload step is_last_step)) = true)
    /\ (PyStr.nonempty (p_step (make_payload step is_last_step)) = true ->
        step_request uri project_id step is_last_step ∈ requests_of evs).
Proof.
  unfold _add_single_step.
  destruct (PyStr.nonempty (p_step (make_payload step is_last_step)))
    eqn:Htext; cbn [negb].
  - unfold try_except, bind.
    destruct (_make_request _ _ _ _ st) as [r0 st0] eqn:Hreq.
    apply make_request_trace in Hreq as (evs & k & Htr & Hreqs); [|done].
    exists evs. split; [|split].
    + destruct r0 as [b|e]; [|exact Htr]. unfold lift, ret, tret.
      by destruct (new_id_of b).
    + intros r Hr. rewrite Hreqs in Hr.
      apply elem_of_replicate in Hr as [-> _]. done.
    + intros _. rewrite Hreqs. apply elem_of_replicate. split; [done|lia].
  - exists []. rewrite app_nil_r. split; [done|].
    split; [intros r Hr; by apply elem_of_nil in Hr | done].
Qed.

Lemma outcomes_length (outs : list StepOutcome) :
  (length (omap created_of outs) + length (omap failed_of outs)
   = length outs)%nat.
Proof. induction outs as [|[i|e] outs IH]; cbn; lia. Qed.

Lemma add_loop_cons uri project_id n i step rest created errors st :
  add_loop uri project_id n i (step :: rest) created errors st
  = let '(o, st1) :=
      _add_single_step uri project_id step (i =? n - 1) st in
    match o with
    | Created new_id =>
        add_loop uri project_id n (i + 1) rest (created ++ [new_id])
                 errors st1
    | Failed error =>
        add_loop uri project_id n (i + 1) rest created
                 (errors ++ [error]) st1
    end.
Proof.
  cbn [add_loop]. unfold tbind.
  destruct (_add_single_step _ _ _ _ st) as [[new_id|error] st1]; done.
Qed.

Lemma add_loop_spec uri project_id n rest :
  forall i created errors st,
  exists outs evs,
    (add_loop uri project_id n i rest created errors st).1
    = (created ++ omap created_of outs, errors ++ omap failed_of outs)
    /\ length outs = length rest
    /\ trace (add_loop uri project_id n i rest created errors st).2
       = trace st ++ evs
    /\ (forall j step, rest !! j = Some step ->
          exists s,
            outs !! j
            = Some (_add_single_step uri project_id step
                      (i + Z.of_nat j =? n - 1) s).1)
    /\ (forall r, r ∈ requests_of evs ->
          exists j step,
            rest !! j = Some step
            /\ PyStr.nonempty
                 (p_step (make_payload step (i + Z.of_nat j =? n - 1))) = true
            /\ r = step_request uri project_id step
                     (i + Z.of_nat j =? n - 1))
    /\ (forall j step, rest !! j = Some step ->
          PyStr.nonempty
            (p_step (make_payload step (i + Z.of_nat j =? n - 1))) = true ->
          step_request uri project_id step (i + Z.of_nat j =? n - 1)
          ∈ requests_of evs).
Proof.
  induction rest as [|step rest IH]; intros i created errors st.
  - exists [], []. cbn. rewrite !app_nil_r.
    repeat split; try done.
    intros r Hr. by apply elem_of_nil in Hr.
  - rewrite add_loop_cons.
    destruct (add_single_step_trace uri project_id step (i =? n - 1) st)
      as (evs1 & Htr1 & Hin1 & Hout1).
    destruct (_add_single_step uri project_id step (i =? n - 1) st)
      as [o st1] eqn:Hstep. cbn [snd] in Htr1.
    set (created' := match o with
                     | Created new_id => created ++ [new_id]
                     | Failed _ => created
                     end).
    set (errors' := match o with
                    | Created _ => errors
                    | Failed e => errors ++ [e]
                    end).
    destruct (IH (i + 1) created' errors' st1)
      as (outs & evs2 & Hres & Hlen & Htr2 & Hnth & Hin2 & Hout2).
    assert (add_loop uri project_id n (i + 1) rest created' errors' st1
            = match o with
              | Created new_id =>
                  add_loop uri project_id n (i + 1) rest
                           (created ++ [new_id]) errors st1
              | Failed error =>
                  add_loop uri project_id n (i + 1) rest created
                           (errors ++ [error]) st1
              end) as Heq by (by destruct o).
    rewrite <- Heq. clear Heq.
    exists (o :: outs), (evs1 ++ evs2).
    split; [|split; [|split; [|split; [|split]]]].
    + rewrite Hres. subst created' errors'.
      destruct o; cbn; by rewrite <- ?app_assoc.
    + cbn. by rewrite Hlen.
    + rewrite Htr2, Htr1, app_assoc. done.
    + intros [|j] step' Hj; cbn in Hj.
      * inversion Hj; subst step'. exists st.
        rewrite Z.add_0_r, Hstep. done.
      * destruct (Hnth j step' Hj) as [s Hs]. exists s.
        change ((o :: outs) !! S j) with (outs !! j).
        rewrite Hs. do 4 f_equal. lia.
    + intros r Hr. rewrite requests_of_app in Hr.
      apply elem_of_app in Hr as [Hr|Hr].
      * destruct (Hin1 r Hr) as [-> Hne]. exists 0%nat, step.
        rewrite Z.add_0_r. done.
      * destruct (Hin2 r Hr) as (j & step' & Hj & Hne & ->).
        exists (S j), step'.
        replace (i + Z.of_nat (S j)) with (i + 1 + Z.of_nat j) by lia.
        done.
    + intros [|j] step' Hj Hne; cbn in Hj; rewrite requests_of_app;
        apply elem_of_app.
      * inversion Hj; subst step'. left. rewrite Z.add_0_r in *.
        by apply Hout1.
      * right.
        replace (i + Z.of_nat (S j)) with (i + 1 + Z.of_nat j) in * by lia.
        by apply Hout2.
Qed.

Lemma add_test_steps_nonempty issue_id project_id steps st :
  steps <> [] ->
  add_test_steps issue_id project_id steps st
  = let '(r, st1) :=
      add_loop (teststep_uri issue_id) project_id
               (Z.of_nat (length steps)) 0 steps [] [] st in
    (mkAddResult (Z.of_nat (length r.1)) r.1 r.2, st1).
Proof. intros Hne. destruct steps as [|step0 steps']; done. Qed.

Lemma is_last_index (j n : nat) :
  (0 + Z.of_nat j =? Z.of_nat n - 1) = bool_decide (S j = n).
Proof.
  destruct (bool_decide_reflect (S j = n)) as [<-|Hne].
  - apply Z.eqb_eq. lia.
  - apply Z.eqb_neq. lia.
Qed.

(** C10: the result of [add_test_steps] accounts for every input step
    once.  There is one outcome per step, in input order, the outcome of
    [_add_single_step] on that step; [created_ids] are the identifiers
    of the successful outcomes and [errors] the texts of the failed ones,
    both in input order; [steps_created] is the length of [created_ids];
    the two lengths add up to the number of steps; and a step whose text
    is empty after stripping fails with "Empty step text" and leaves the
    state, hence the trace of requests, as it was. *)
Theorem add_test_steps_accounting
    (issue_id : string) (project_id : Z) (steps : list StepIn)
    (st : state) :
  let r := (add_test_steps issue_id project_id steps st).1 in
  steps_created r = Z.of_nat (length (created_ids r))
  /\ (length (created_ids r) + length (errors r) = length steps)%nat
  /\ (exists outs : list StepOutcome,
        length outs = length steps
        /\ created_ids r = omap created_of outs
        /\ errors r = omap failed_of outs
        /\ forall j step, steps !! j = Some step ->
             exists s,
               outs !! j
               = Some (_add_single_step (teststep_uri issue_id) project_id
                         step (bool_decide (S j = length steps)) s).1)
  /\ (forall uri step is_last_step s,
        p_step (make_payload step is_last_step) = "" ->
        _add_single_step uri project_id step is_last_step s
        = (Failed "Empty step text", s)).
Proof.
  assert (forall uri step is_last_step s,
            p_step (make_payload step is_last_step) = "" ->
            _add_single_step uri project_id step is_last_step s
            = (Failed "Empty step text", s)) as Hempty.
  { intros uri step b s Htext. apply add_single_step_empty.
    by rewrite Htext. }
  destruct (decide (steps = [])) as [->|Hsteps].
  { cbn. repeat split; try done. exists []. repeat split; try done. }
  rewrite add_test_steps_nonempty by done.
  destruct (add_loop_spec (teststep_uri issue_id) project_id
              (Z.of_nat (length steps)) steps 0 [] [] st)
    as (outs & evs & Hres & Hlen & _ & Hnth & _ & _).
  destruct (add_loop _ _ _ _ _ _ _ st) as [[created errs] st1].
  cbn [fst snd] in *. inversion Hres; subst created errs. clear Hres.
  cbn [steps_created created_ids errors app].
  split; [done|]. split; [rewrite outcomes_length; exact Hlen|].
  split; [|exact Hempty].
  exists outs. repeat split; try done.
  intros j step Hj. destruct (Hnth j step Hj) as [s Hs].
  exists s. by rewrite <- is_last_index.
Qed.

(** C3: every create request that [add_test_steps] sends is the request
    of one of the input steps, with its stripped text and its data; the
    result it carries is the caller's for the final step and the empty
    string for every step before it, whatever result the caller gave
    there.  Every step with a non-empty text is sent. *)
Theorem add_test_steps_last_result_only
    (issue_id : string) (project_id : Z) (steps : list StepIn)
    (st : state) :
  exists evs,
    trace (add_test_steps issue_id project_id steps st).2 = trace st ++ evs
    /\ (forall r, r ∈ requests_of evs ->
          exists j step,
            steps !! j = Some step
            /\ r = create_request issue_id project_id
                     (PyStr.strip (default "" (in_step step)))
                     (default "" (in_data step))
                     (if bool_decide (S j = length steps)
                      then in_result step else Some ""))
    /\ (forall j step,
          steps !! j = Some step ->
          PyStr.strip (default "" (in_step step)) <> "" ->
          create_request issue_id project_id
            (PyStr.strip (default "" (in_step step)))
            (default "" (in_data step))
            (if bool_decide (S j = length steps)
             then in_result step else Some "")
          ∈ requests_of evs).
Proof.
  assert (forall step b,
            step_request (teststep_uri issue_id) project_id step b
            = create_request issue_id project_id
                (PyStr.strip (default "" (in_step step)))
                (default "" (in_data step))
                (if b then in_result step else Some "")) as Hreq.
  { intros step b. unfold step_request, create_request, payload_json,
      make_payload, ZephyrAuth.str_or. cbn.
    destruct (in_step step) as [[|c t]|]; destruct (in_data step); done. }
  assert (forall step b,
            PyStr.strip (default "" (in_step step)) <> "" ->
            PyStr.nonempty (p_step (make_payload step b)) = true) as Hne.
  { intros step b Htext. unfold make_payload. cbn [p_step].
    replace (ZephyrAuth.str_or (default "" (in_step step)) "")
      with (default "" (in_step step))
      by (unfold ZephyrAuth.str_or; by destruct (default "" (in_step step))).
    by destruct (PyStr.strip (default "" (in_step step))). }
  destruct (decide (steps = [])) as [->|Hsteps].
  { exists []. cbn. rewrite app_nil_r. split; [done|].
    split; [intros r Hr; by apply elem_of_nil in Hr | done]. }
  rewrite add_test_steps_nonempty by done.
  destruct (add_loop_spec (teststep_uri issue_id) project_id
              (Z.of_nat (length steps)) steps 0 [] [] st)
    as (outs & evs & _ & _ & Htr & _ & Hin & Hout).
  destruct (add_loop _ _ _ _ _ _ _ st) as [res st1]. cbn [snd] in *.
  exists evs. split; [exact Htr|]. split.
  - intros r Hr. destruct (Hin r Hr) as (j & step & Hj & _ & ->).
    exists j, step. split; [done|]. by rewrite is_last_index, Hreq.
  - intros j step Hj Htext. rewrite <- Hreq, <- is_last_index.
    apply Hout; [done|]. by apply Hne.
Qed.

(** ** Gathering tasks *)

Lemma gather_loop_step {A : Type} (n : nat) (tasks : list (task A)) st :
  gather_loop (S n) tasks st
  = let '(choice, st0) := next_choice st in
    let c := (choice `mod` length tasks)%nat in
    match tasks !! c with
    | None => ([], st0)
    | Some t =>
        let '(r, st1) := t st0 in
        let '(rs, st2) := gather_loop n (delete c tasks) st1 in
        (take c rs ++ r :: drop c rs, st2)
    end.
Proof.
  cbn [gather_loop]. unfold tbind, tret.
  destruct (next_choice st) as [choice st0].
  destruct (tasks !! _) as [t|]; [|done].
  destruct (t st0) as [r st1].
  by destruct (gather_loop n _ st1).
Qed.

Lemma gather_loop_spec {A : Type} (n : nat) :
  forall (tasks : list (task A)) (st : state),
    length tasks = n ->
    length (gather_loop n tasks st).1 = n
    /\ forall i t, tasks !! i = Some t ->
         exists s, (gather_loop n tasks st).1 !! i = Some (t s).1.
Proof.
  induction n as [|n IH]; intros tasks st Hlen.
  - split; [done|]. intros i t Hi.
    apply lookup_lt_Some in Hi. unfold task in *. lia.
  - rewrite gather_loop_step.
    destruct (next_choice st) as [choice st0].
    assert (choice `mod` length tasks < length tasks)%nat as Hc
      by (apply Nat.mod_upper_bound; lia).
    cbv zeta.
    set (c := (choice `mod` length tasks)%nat) in *.
    destruct (tasks !! c) as [t|] eqn:Ht;
      [|apply lookup_ge_None in Ht; unfold task in *; lia].
    destruct (t st0) as [r st1] eqn:Hrun.
    destruct (IH (delete c tasks) st1) as [Hl Hnth].
    { rewrite length_delete by (by eexists). lia. }
    destruct (gather_loop n (delete c tasks) st1) as [rs st2].
    cbn [fst] in *. split.
    + rewrite length_app, length_take_le by lia. cbn [length].
      rewrite length_drop. lia.
    + intros i t' Hi.
      destruct (Nat.lt_trichotomy i c) as [Hlt|[->|Hgt]].
      * destruct (Hnth i t') as [s Hs].
        { by rewrite list_lookup_delete_lt. }
        exists s. rewrite lookup_app_l by (rewrite length_take_le; lia).
        by rewrite lookup_take_lt.
      * exists st0. rewrite Ht in Hi. inversion Hi; subst t'.
        rewrite list_lookup_middle by (rewrite length_take_le; lia).
        by rewrite Hrun.
      * destruct i as [|i]; [lia|].
        destruct (Hnth i t') as [s Hs].
        { rewrite list_lookup_delete_ge by lia. done. }
        exists s. rewrite lookup_app_r by (rewrite length_take_le; lia).
        rewrite length_take_le by lia.
        replace (S i - c)%nat with (S (i - c)) by lia.
        change ((r :: drop c rs) !! S (i - c)) with (drop c rs !! (i - c)%nat).
        rewrite lookup_drop. replace (c + (i - c))%nat with i by lia. done.
Qed.

Lemma gather_spec {A : Type} (tasks : list (task A)) (st : state) :
  length (gather tasks st).1 = length tasks
  /\ forall i t, tasks !! i = Some t ->
       exists s, (gather tasks st).1 !! i = Some (t s).1.
Proof. by apply gather_loop_spec. Qed.

(** ** Replacing steps *)

Lemma count_results_spec results deleted_count errors :
  count_results results deleted_count errors
  = (deleted_count
     + Z.of_nat (length (filter (fun ok : bool => ok = true) results)),
     errors ++ replicate
                 (length (filter (fun ok : bool => ok = false) results))
                 delete_failed_msg).
Proof.
  revert deleted_count errors.
  induction results as [|[|] results IH]; intros d e; cbn [count_results].
  - cbn. by rewrite Z.add_0_r, app_nil_r.
  - rewrite IH, filter_cons_True, filter_cons_False by done.
    cbn [length]. f_equal. lia.
  - rewrite IH, filter_cons_False, filter_cons_True by done.
    cbn [length replicate]. by rewrite <- app_assoc.
Qed.

Lemma bool_filter_length (results : list bool) :
  (length (filter (fun ok : bool => ok = true) results)
   + length (filter (fun ok : bool => ok = false) results)
   = length results)%nat.
Proof.
  induction results as [|[|] results IH]; [done|..].
  - rewrite filter_cons_True, filter_cons_False by done. cbn [length]. lia.
  - rewrite filter_cons_False, filter_cons_True by done. cbn [length]. lia.
Qed.

Lemma delete_leftovers_spec issue_id project_id leftovers :
  forall deleted_count errors st,
  exists (k : nat) more,
    (delete_leftovers issue_id project_id leftovers deleted_count errors
       st).1
    = (deleted_count + Z.of_nat k, errors ++ more)
    /\ (k + length more = length leftovers)%nat.
Proof.
  induction leftovers as [|sid rest IH]; intros d e st.
  - exists 0%nat, []. cbn. by rewrite Z.add_0_r, app_nil_r.
  - cbn [delete_leftovers]. unfold tbind, try_except, bind, ret, tret.
    destruct (delete_test_step issue_id project_id sid st)
      as [[[|]|ex] st1]; cbn [fst snd].
    + destruct (IH (d + 1) e st1) as (k & more & Hres & Hlen).
      exists (S k), more. rewrite Hres. split; [f_equal; lia | cbn; lia].
    + destruct (IH d (e ++ ["Failed to delete leftover step " +:+ sid]) st1)
        as (k & more & Hres & Hlen).
      eexists k, (_ :: more). rewrite Hres, <- app_assoc.
      split; [done | cbn; lia].
    + destruct (IH d (e ++ ["Exception deleting leftover step " +:+ sid
                             +:+ ": " +:+ PyStr.take 200 (exn_str ex)]) st1)
        as (k & more & Hres & Hlen).
      eexists k, (_ :: more). rewrite Hres, <- app_assoc.
      split; [done | cbn; lia].
Qed.

Lemma cleanup_leftovers_spec issue_id project_id deleted_count errors st :
  exists (k : nat) more,
    (cleanup_leftovers issue_id project_id deleted_count errors st).1
    = (deleted_count + Z.of_nat k, errors ++ more)
    /\ (present_ids_of (get_test_case issue_id st).1 = [] ->
        k = 0%nat /\ more = []).
Proof.
  unfold cleanup_leftovers, tbind, tret.
  destruct (get_test_case issue_id st) as [post st1]. cbn [fst].
  destruct (present_ids_of post) as [|sid rest] eqn:Hleft.
  - exists 0%nat, []. cbn. by rewrite Z.add_0_r, app_nil_r.
  - destruct (delete_leftovers_spec issue_id project_id (sid :: rest)
                deleted_count errors st1) as (k & more & Hres & _).
    destruct (delete_leftovers _ _ _ _ _ st1) as [r st2].
    cbn [fst] in Hres. subst r.
    destruct (get_test_case issue_id st2) as [confirm st3].
    destruct (present_ids_of confirm) as [|sid' rest'].
    + exists k, more. done.
    + eexists k, (more ++ [_]). cbn [fst snd]. rewrite app_assoc.
      done.
Qed.

Lemma update_test_steps_nonempty issue_id project_id steps st :
  steps <> [] ->
  update_test_steps issue_id project_id steps st
  = let '(test_case, st1) :=
      get_test_case issue_id (log (EvAcquire issue_id)
                                  (lock_entry issue_id st)) in
    let '(r, st2) :=
      delete_snapshot issue_id project_id (snapshot_ids_of test_case)
                      0 [] st1 in
    let '(r, st3) := cleanup_leftovers issue_id project_id r.1 r.2 st2 in
    let '(add_result, st4) :=
      add_test_steps issue_id project_id steps st3 in
    (mkUpdateResult r.1 (steps_created add_result)
       (created_ids add_result) (r.2 ++ errors add_result),
     log (EvRelease issue_id) st4).
Proof.
  intros Hne. destruct steps as [|step0 steps']; [done|].
  unfold update_test_steps, with_lock, replace_steps, recreate, tbind, tret.
  destruct (get_test_case _ _) as [tc st1].
  destruct (delete_snapshot _ _ _ _ _ _) as [r st2].
  destruct (cleanup_leftovers _ _ _ _ _) as [r' st3].
  destruct (add_test_steps _ _ _ _) as [add_result st4].
  reflexivity.
Qed.

Lemma get_test_case_requests issue_id st :
  exists evs,
    trace (get_test_case issue_id st).2 = trace st ++ evs
    /\ forall r, r ∈ requests_of evs -> req_method r = "GET".
Proof.
  unfold get_test_case, try_except, bind.
  destruct (_make_request _ _ _ _ st) as [r0 st0] eqn:Hreq.
  apply make_request_trace in Hreq as (evs & k & Htr & Hreqs); [|done].
  exists evs. split.
  - destruct r0 as [b|e]; [|exact Htr]. unfold lift, ret, tret.
    by destruct (_parse_test_steps b).
  - intros r Hr. rewrite Hreqs in Hr.
    by apply elem_of_replicate in Hr as [-> _].
Qed.

(** ** Executions *)

Lemma executions_query_sorted issue_id project_id cycle_id :
  executions_query issue_id project_id (Some cycle_id)
  = "cycleId=" +:+ PyStr.of_Z cycle_id +:+ "&issueId=" +:+ issue_id
    +:+ "&projectId=" +:+ PyStr.of_Z project_id.
Proof.
  unfold executions_query.
  change (merge_sort pair_le
            ([("issueId", issue_id);
              ("projectId", PyStr.of_Z project_id)]
             ++ [("cycleId", PyStr.of_Z cycle_id)]))
    with [("cycleId", PyStr.of_Z cycle_id); ("issueId", issue_id);
          ("projectId", PyStr.of_Z project_id)].
  reflexivity.
Qed.

Lemma find_execution_trace issue_id project_id cycle_id st r st' :
  _find_execution issue_id project_id cycle_id st = (r, st') ->
  exists evs k,
    trace st' = trace st ++ evs
    /\ requests_of evs
       = replicate (S k)
           (mkRequest "GET" "/public/rest/api/1.0/executions"
              (executions_query issue_id project_id cycle_id) None).
Proof.
  unfold _find_execution. intros Hrun.
  destruct (_make_request _ _ _ _ st) as [r0 st0] eqn:Hreq.
  apply make_request_trace in Hreq as (evs & k & Htr & Hreqs); [|done].
  exists evs, k. split; [|exact Hreqs].
  destruct r0; inversion Hrun; by subst.
Qed.

(** C6: when the creation request of [add_test_to_cycle] fails with an
    HTTP error whose response text contains "already exist" (whatever the
    case of its letters), the operation looks the execution up with a GET
    of the executions filtered by cycleId, issueId and projectId; when
    the lookup finds an identifier, the result is that identifier with
    [created] false and no error. *)
Theorem add_test_to_cycle_existing_execution
    (issue_id : string) (project_id cycle_id : Z)
    (version_id folder_id : option Z) (body : json)
    (status : Z) (text msg existing : string) (st st1 st2 : state) :
  execution_body issue_id project_id cycle_id version_id folder_id
  = Return body ->
  _make_request "POST" "/public/rest/api/1.0/execution"
    ("issueId=" +:+ issue_id +:+ "&projectId=" +:+ PyStr.of_Z project_id)
    (Some body) st
  = (Raise (HTTPStatusError status text msg), st1) ->
  PyStr.contains "already exist" (PyStr.lower text) = true ->
  _find_execution issue_id project_id (Some cycle_id) st1
  = (Return (Some existing), st2) ->
  existing <> "" ->
  add_test_to_cycle issue_id project_id cycle_id version_id folder_id st
  = (mkExecResult (Some existing) false None None, st2)
  /\ exists evs k,
       trace st2 = trace st1 ++ evs
       /\ requests_of evs
          = replicate (S k)
              (mkRequest "GET" "/public/rest/api/1.0/executions"
                 ("cycleId=" +:+ PyStr.of_Z cycle_id +:+ "&issueId="
                  +:+ issue_id +:+ "&projectId="
                  +:+ PyStr.of_Z project_id) None).
Proof.
  intros Hbody Hpost Htext Hfind Hexisting. split.
  - unfold add_test_to_cycle, try_except, try_except_status.
    unfold bind at 1. unfold lift. rewrite Hbody.
    unfold bind at 1. rewrite Hpost.
    unfold _handle_existing_execution. rewrite Htext.
    unfold try_except, bind. rewrite Hfind.
    destruct existing; [done|]. reflexivity.
  - rewrite <- executions_query_sorted.
    by apply find_execution_trace in Hfind.
Qed.

End Facts.
End ZephyrFacts.

(* ================================================================== *)
(** * Facts about app/routers/test_case.py *)

Module BulkFacts.
Import Json Zephyr Bulk ZephyrFacts.

Section Facts.
Context `{Env}.
Variable worker : FullCreateBody -> M ItemSuccess.

Lemma run_one_record idx body s :
  let r := (run_one worker idx body s).1 in
  index r = idx
  /\ input_summary r = Some (summary body)
  /\ match (worker body s).1 with
     | Return v => success r = true /\ result r = Some v /\ failure r = None
     | Raise e => success r = false /\ result r = None /\ is_Some (failure r)
     end.
Proof.
  unfold run_one.
  destruct (worker body s) as [[v|[m|c t m|c d|m]] s']; cbn; eauto.
Qed.

Lemma success_filter_length (rs : list BulkItemResult) :
  (length (filter (fun r => success r = true) rs)
   + length (filter (fun r => success r = false) rs) = length rs)%nat.
Proof.
  induction rs as [|r rs IH]; [done|].
  destruct (success r) eqn:Hs.
  - rewrite filter_cons_True, filter_cons_False by (by rewrite Hs).
    cbn [length]. lia.
  - rewrite filter_cons_False, filter_cons_True by (by rewrite Hs).
    cbn [length]. lia.
Qed.

(** C8: for a batch of N items, whatever the order in which the event
    loop completes them, the response has N records; the record at
    position i is the record of running item i (with the top-level
    version and cycle enforced): its index is i, its summary is the
    item's, and it is a success record when the item's workflow returned
    and a failure record when it raised; [succeeded] and [failed] count
    the two kinds and add up to N. *)
Theorem create_bulk_test_cases_isolation
    (payload : BulkFullCreateRequest) (st : state) :
  let resp := (create_bulk_test_cases worker payload st).1 in
  let n := length (TestCases payload) in
  total resp = Z.of_nat n
  /\ length (results resp) = n
  /\ succeeded resp + failed resp = Z.of_nat n
  /\ succeeded resp
     = Z.of_nat (length (filter (fun r => success r = true) (results resp)))
  /\ failed resp
     = Z.of_nat (length (filter (fun r => success r = false) (results resp)))
  /\ forall i tc, TestCases payload !! i = Some tc ->
       exists r s,
         results resp !! i = Some r
         /\ r = (run_one worker (Z.of_nat i) (enforce payload tc) s).1
         /\ index r = Z.of_nat i
         /\ input_summary r = Some (summary tc)
         /\ match (worker (enforce payload tc) s).1 with
            | Return v =>
                success r = true /\ result r = Some v /\ failure r = None
            | Raise e =>
                success r = false /\ result r = None /\ is_Some (failure r)
            end.
Proof.
  unfold create_bulk_test_cases.
  pose proof (gather_spec
                (imap (fun i tc => run_one worker (Z.of_nat i) tc)
                      (enforce payload <$> TestCases payload)) st)
    as [Hlen Hnth].
  destruct (gather _ st) as [rs st']. cbn [fst] in *.
  rewrite length_imap, length_fmap in Hlen.
  pose proof (success_filter_length rs) as Hsum.
  cbn [total results succeeded failed].
  split; [done|]. split; [done|]. split; [lia|]. split; [done|].
  split; [lia|].
  intros i tc Hi.
  destruct (Hnth i (run_one worker (Z.of_nat i) (enforce payload tc)))
    as [s Hs].
  { by rewrite list_lookup_imap, list_lookup_fmap, Hi. }
  eexists _, s. split; [exact Hs|]. split; [done|].
  apply (run_one_record (Z.of_nat i) (enforce payload tc) s).
Qed.
End Facts.

(** The batch of the specification: ten items, item 4 raises; the
    schedule completes the items out of order. *)
Example bulk_batch_of_ten :
  let resp :=
    (@create_bulk_test_cases Mock.mock_env Mock.mock_worker Mock.batch10
       (Mock.start (Mock.mkWorld [] [] 0 1) [7; 2; 5; 0; 3]%nat)).1 in
  total resp = 10 /\ succeeded resp = 9 /\ failed resp = 1
  /\ results resp !! 4%nat
     = Some (mkBulkItemResult 4 (Some "bad") false None
               (Some (mkItemFailure "boom")))
  /\ index <$> results resp = [0; 1; 2; 3; 4; 5; 6; 7; 8; 9].
Proof. vm_compute. repeat split. Qed.

End BulkFacts.

(* ================================================================== *)
(** * The service on the mock remote system *)

Module ZephyrExamples.
Import Json Zephyr Mock ZephyrFacts.

(** The rule of the specification on three steps that all carry a result:
    only the third create request carries one. *)
Example last_step_result_only_on_three_steps :
  let steps := [ mkStepIn (Some "one") None (Some "r1");
                 mkStepIn (Some "two") None (Some "r2");
                 mkStepIn (Some "three") None (Some "r3") ] in
  requests_of
    (trace (@add_test_steps mock_env "42" 7 steps
              (start (mkWorld [] [] 0 1) [])).2)
  = [ create_request "42" 7 "one" "" (Some "");
      create_request "42" 7 "two" "" (Some "");
      create_request "42" 7 "three" "" (Some "r3") ].
Proof. vm_compute. reflexivity. Qed.

(** C1 fails on the code: the first fetch of the step list fails, and the
    workflow still deletes the two steps its second fetch reports and
    creates the two new steps. *)
Lemma fetch_failure_still_mutates :
  let st := start flaky [] in
  (get_test_case "42" (locked "42" st)).1 = None
  /\ let '(r, st') := @update_test_steps mock_env "42" 7 steps2 st in
     (fun '(m, i, _) => (m, i)) <$> calls (trace st')
     = [ ("GET", "42"); ("GET", "42"); ("DELETE", "a"); ("DELETE", "b");
         ("GET", "42"); ("POST", "42"); ("POST", "42") ]
     /\ steps_deleted r = 2
     /\ upd_steps_created r = 2
     /\ upd_created_ids r = ["n1"; "n2"]
     /\ held (remote st') = ["n1"; "n2"].
Proof. vm_compute. repeat split. Qed.

(** C4 fails on the code: five steps in the snapshot, the deletion of two
    of them fails after its three rounds.  On the first remote system the
    verification phase finds the two, fails to delete them again and reports
    that they are still there: 3 deleted, five error entries.  On the second
    one the verification phase deletes the two: 5 deleted, two error
    entries. *)
Lemma partial_delete_other_counts :
  (let st := start stubborn [2; 0]%nat in
   let '(test_case, st1) := get_test_case "42" (locked "42" st) in
   length (snapshot_ids_of test_case) = 5%nat
   /\ (gather (_delete_one "42" 7 <$> snapshot_ids_of test_case) st1).1
      = [true; true; true; false; false]
   /\ (@update_test_steps mock_env "42" 7 steps2 st).1
      = mkUpdateResult 3 2 ["n1"; "n2"]
          [ delete_failed_msg; delete_failed_msg;
            "Failed to delete leftover step d";
            "Failed to delete leftover step e";
            "Steps still present after cleanup for issue 42: ['d', 'e']" ])
  /\
  (let st := start reluctant [2; 0]%nat in
   let '(test_case, st1) := get_test_case "42" (locked "42" st) in
   length (snapshot_ids_of test_case) = 5%nat
   /\ (gather (_delete_one "42" 7 <$> snapshot_ids_of test_case) st1).1
      = [true; true; true; false; false]
   /\ (@update_test_steps mock_env "42" 7 steps2 st).1
      = mkUpdateResult 5 2 ["n1"; "n2"]
          [ delete_failed_msg; delete_failed_msg ]).
Proof. vm_compute. repeat split. Qed.

Lemma add_test_to_cycle_existing_execution_witness :
  let st := start (mkWorld [] [] 0 1) [] in
  exists st2,
    @add_test_to_cycle mock_env "42" 7 3 (Some 10000) None st
    = (mkExecResult (Some "exec-77") false None None, st2).
Proof.
  set (st := start (mkWorld [] [] 0 1) []).
  set (body := JObj [("issueId", JNum 42); ("projectId", JNum 7);
                     ("versionId", JNum 10000); ("cycleId", JNum 3)]).
  set (posted := @_make_request mock_env "POST"
                   "/public/rest/api/1.0/execution"
                   "issueId=42&projectId=7" (Some body) st).
  set (found := @_find_execution mock_env "42" 7 (Some 3) posted.2).
  exists found.2.
  apply (@add_test_to_cycle_existing_execution mock_env "42" 7 3
           (Some 10000) None body 400
           "Execution Already Exists for this cycle"
           "Client error '400 Bad Request'" "exec-77" st posted.2 found.2).
  - vm_compute. reflexivity.
  - apply injective_projections; [vm_compute; reflexivity | reflexivity].
  - vm_compute. reflexivity.
  - apply injective_projections; [vm_compute; reflexivity | reflexivity].
  - discriminate.
Defined.

End ZephyrExamples.

(* ================================================================== *)
(** * More facts about app/utils/retry.py *)

Module RetryTallyFacts.
Import Retry RetryTally.

Section Facts.
Context {S A : Type}.
Variable uniform : Q -> Q -> Q.
Variable sleep : Z -> S -> S.
Variable func_name : outcome string.
Variable func : S -> outcome A * S.
Variable cfg : RetryConfig.

Lemma attempts_tally remaining :
  forall attempt last c z s,
    (exists name, func_name = Return name) ->
    no_overflow cfg ->
    1 <= attempt ->
    attempt + Z.of_nat remaining = max_attempts cfg + 1 ->
    (0 < remaining)%nat ->
    exists k s_last,
      let run := attempts uniform (tally_sleep sleep) func_name
                          (tally_func func) cfg remaining attempt last
                          (c, z, s) in
      run.2 = ((c + Datatypes.S k)%nat, (z + k)%nat, (func s_last).2)
      /\ (Datatypes.S k <= remaining)%nat
      /\ match run.1 with
         | Return (Some v) => (func s_last).1 = Return v
         | Return None => False
         | Raise e =>
             (func s_last).1 = Raise e
             /\ (is_retryable_exception e = false
                 \/ Datatypes.S k = remaining)
         end.
Proof.
  induction remaining as [|n IH];
    intros attempt last c z s [name Hname] Hdelays Hone Hsum Hpos; [lia|].
  cbn [attempts tally_func]. rewrite Hname.
  destruct (func s) as [[v|e] s1] eqn:Hf.
  - exists 0%nat, s. rewrite Hf. cbn.
    split; [do 2 f_equal; lia|]. split; [lia|done].
  - destruct (is_retryable_exception e) eqn:Hretry; cbn [negb].
    + destruct (attempt =? max_attempts cfg) eqn:Hlast.
      * apply Z.eqb_eq in Hlast. exists 0%nat, s. rewrite Hf. cbn.
        split; [do 2 f_equal; lia|]. split; [lia|].
        split; [done|]. right. lia.
      * apply Z.eqb_neq in Hlast. cbn [tally_sleep].
        destruct (RetryFacts.calculate_delay_defined uniform attempt cfg)
          as [delay ->]; [apply Hdelays; lia|].
        destruct (IH (attempt + 1) (Some e) (Datatypes.S c) (Datatypes.S z)
                     (sleep attempt s1)) as (k & s_last & Hst & Hle & Hres);
          [by exists name | done | lia | lia | lia |].
        exists (Datatypes.S k), s_last. cbv zeta in *. rewrite Hname in *.
        destruct (attempts _ _ _ _ _ _ _ _ _) as [r st']. cbn [fst snd] in *.
        split; [rewrite Hst; do 2 f_equal; lia|]. split; [lia|].
        destruct r as [[v|]|e']; [done|done|].
        destruct Hres as [Hcall [Hnr|Hk]]; (split; [done|]);
          [by left | right; lia].
    + exists 0%nat, s. rewrite Hf. cbn.
      split; [do 2 f_equal; lia|]. split; [lia|]. split; [done|]. by left.
Qed.

Lemma attempts_log remaining :
  forall attempt last l s name,
    func_name = Return name ->
    attempt + Z.of_nat remaining = max_attempts cfg + 1 ->
    (0 < remaining)%nat ->
    exists k,
      (Datatypes.S k <= remaining)%nat
      /\ (attempts uniform (logged_sleep sleep) func_name (logged_func func)
                   cfg remaining attempt last (l, s)).2.1
         = l ++ retry_log attempt k.
Proof.
  induction remaining as [|n IH];
    intros attempt last l s name Hname Hsum Hpos; [lia|].
  cbn [attempts logged_func]. rewrite Hname.
  destruct (func s) as [[v|e] s1] eqn:Hf.
  { exists 0%nat. split; [lia|done]. }
  destruct (negb (is_retryable_exception e)).
  { exists 0%nat. split; [lia|done]. }
  destruct (attempt =? max_attempts cfg) eqn:Hlast.
  { exists 0%nat. split; [lia|done]. }
  destruct (calculate_delay uniform attempt cfg) as [delay|overflow].
  2: { exists 0%nat. split; [lia|done]. }
  apply Z.eqb_neq in Hlast. cbn [logged_sleep].
  destruct (IH (attempt + 1) (Some e) ((l ++ [Called]) ++ [Slept attempt])
               (sleep attempt s1) name Hname) as (k & Hk & Hlog);
    [lia | lia |].
  exists (Datatypes.S k). split; [lia|].
  rewrite Hname in Hlog. rewrite Hlog. cbn [retry_log].
  rewrite <- !app_assoc. done.
Qed.

(** X1: the calls and the sleeps of [async_retry] in the order in which
    they happen, whatever the function, its name, the configuration and
    the draws are.  Either nothing happens at all, or the function is
    awaited [k + 1] times, at most [max_attempts] times, the sleep of
    attempt [i] comes right after call [i] for [i] from 1 to [k], and
    nothing follows the last call.  That holds on every exit of the loop:
    a returned value, a raised exception of the function, a delay that
    overflows, and a function without a name (nothing happens then). *)
Theorem async_retry_calls_and_sleeps (s : S) :
  let run := async_retry uniform (logged_sleep sleep) func_name
                         (logged_func func) cfg ([], s) in
  run.2.1 = []
  \/ exists k,
       (Datatypes.S k <= Z.to_nat (max_attempts cfg))%nat
       /\ run.2.1 = retry_log 1 k.
Proof.
  unfold async_retry.
  destruct (Z.to_nat (max_attempts cfg)) as [|n] eqn:Hn; [by left|].
  assert ((exists name, func_name = Return name)
          \/ (exists e, func_name = Raise e)) as [[name Hname]|[e Hname]]
    by (destruct func_name; eauto).
  - right.
    destruct (attempts_log (Datatypes.S n) 1 None [] s name Hname)
      as (k & Hk & Hlog); [lia | lia |].
    exists k. split; [done|]. exact Hlog.
  - left. cbn [attempts]. by rewrite Hname.
Qed.

(** X2: when the function has a name, at least one attempt is configured
    and no delay overflows, what [async_retry] hands back is the outcome
    of its last call: a returned value is the value that call returned,
    and a raised exception is the one that call raised, which is either
    not retryable or the exception of call number [max_attempts].  The
    final state is the state that call left (no sleep follows it). *)
Theorem async_retry_outcome_of_last_call (s : S) :
  (exists name, func_name = Return name) ->
  no_overflow cfg ->
  1 <= max_attempts cfg ->
  exists s_last,
    let run := async_retry uniform (tally_sleep sleep) func_name
                           (tally_func func) cfg (0%nat, 0%nat, s) in
    run.2.2 = (func s_last).2
    /\ match run.1 with
       | Return (Some v) => (func s_last).1 = Return v
       | Return None => False
       | Raise e =>
           (func s_last).1 = Raise e
           /\ (is_retryable_exception e = false
               \/ run.2.1.1 = Z.to_nat (max_attempts cfg))
       end.
Proof.
  intros Hname Hdelays Hmax. unfold async_retry.
  destruct (attempts_tally (Z.to_nat (max_attempts cfg)) 1 None 0%nat 0%nat s
              Hname Hdelays)
    as (k & s_last & Hst & Hle & Hres); [lia | lia | lia |].
  exists s_last. cbv zeta in *.
  destruct (attempts _ _ _ _ _ _ _ _ _) as [r st']. cbn [fst snd] in *.
  subst st'. cbn [fst snd]. split; [done|].
  destruct r as [[v|]|e]; [done|done|].
  destruct Hres as [Hcall [Hnr|Hk]]; split; auto.
Qed.

(** X3: with [max_attempts] zero or negative the loop body never runs: the
    function is not awaited, nothing is raised, and Python's [None] comes
    back. *)
Theorem async_retry_without_attempts (s : nat * nat * S) :
  max_attempts cfg <= 0 ->
  async_retry uniform (tally_sleep sleep) func_name (tally_func func) cfg s
  = (Return None, s).
Proof.
  intros Hmax. unfold async_retry.
  replace (Z.to_nat (max_attempts cfg)) with 0%nat by lia. reflexivity.
Qed.
End Facts.

Lemma async_retry_outcome_of_last_call_witness :
  exists s_last,
    let run := async_retry (fun lo hi => lo) (tally_sleep (fun _ s => s))
                 (Return "endpoint") (tally_func (flaky_endpoint 2))
                 default_config (0%nat, 0%nat, 0%nat) in
    run.2.2 = (flaky_endpoint 2 s_last).2
    /\ match run.1 with
       | Return (Some v) => (flaky_endpoint 2 s_last).1 = Return v
       | Return None => False
       | Raise e =>
           (flaky_endpoint 2 s_last).1 = Raise e
           /\ (is_retryable_exception e = false
               \/ run.2.1.1 = Z.to_nat (max_attempts default_config))
       end.
Proof.
  apply (async_retry_outcome_of_last_call (fun lo hi => lo) (fun _ s => s)
           (Return "endpoint") (flaky_endpoint 2) default_config 0%nat).
  - exists "endpoint". reflexivity.
  - intros attempt Hattempt. simpl in Hattempt.
    assert (attempt = 1 \/ attempt = 2) as [-> | ->] by lia;
      vm_compute; reflexivity.
  - simpl. lia.
Defined.

Lemma async_retry_without_attempts_witness :
  async_retry (fun lo hi => lo) (tally_sleep (fun _ s => s))
              (Return "endpoint") (tally_func (flaky_endpoint 0))
              (mkRetryConfig 0 (1 # 1) (60 # 1) (2 # 1) true)
              (0%nat, 0%nat, 0%nat)
  = (Return None, (0%nat, 0%nat, 0%nat)).
Proof.
  apply (async_retry_without_attempts (fun lo hi => lo) (fun _ s => s)
           (Return "endpoint") (flaky_endpoint 0)).
  cbn. lia.
Defined.

(** Two failures, then success: three calls, two sleeps, the value of the
    third call. *)
Example retry_then_success :
  async_retry (fun lo hi => lo) (tally_sleep (fun _ s => s))
              (Return "endpoint") (tally_func (flaky_endpoint 2))
              default_config (0%nat, 0%nat, 0%nat)
  = (Return (Some 2%nat), (3%nat, 2%nat, 3%nat)).
Proof. vm_compute. reflexivity. Qed.

(** The other two exits, evaluated.  A delay that overflows: with base
    1e308 the delay after the third failure is out of range, so the fourth
    of five attempts is never made.  A function without a name: it is
    never awaited. *)
Example retry_other_exits :
  async_retry (fun lo hi => lo) (logged_sleep (fun _ s => s))
              (Return "endpoint") (logged_func (flaky_endpoint 9))
              (mkRetryConfig 5 (1 # 1) (60 # 1) (inject_Z (10 ^ 308)) true)
              ([], 0%nat)
  = (Raise overflow_error,
     ([Called; Slept 1; Called; Slept 2; Called], 3%nat))
  /\ async_retry (fun lo hi => lo) (logged_sleep (fun _ s => s))
                 (Raise (OtherException "no attribute '__name__'"))
                 (logged_func (flaky_endpoint 9)) default_config ([], 0%nat)
     = (Raise (OtherException "no attribute '__name__'"), ([], 0%nat)).
Proof. vm_compute. split; reflexivity. Qed.

End RetryTallyFacts.

(* ================================================================== *)
(** * The trace of one request *)

Module ZephyrTraceFacts.
Import Json Zephyr ZephyrTrace.

Section Facts.
Context `{Env}.

Lemma exchange_state method uri qs body st r st1 :
  supported_method method = true ->
  _make_request_without_retry method uri qs body st = (r, st1) ->
  trace st1 = trace st ++ [EvRequest (mkRequest method uri qs body)]
  /\ issue_locks st1 = issue_locks st
  /\ schedule st1 = schedule st.
Proof.
  unfold _make_request_without_retry. intros -> Hrun. cbn [negb] in Hrun.
  destruct (exchange _ _) as [[b|e] w]; inversion Hrun; done.
Qed.

Lemma attempts_shape method uri qs body remaining :
  supported_method method = true ->
  forall attempt last st,
    (0 < remaining)%nat ->
    attempt + Z.of_nat remaining = Retry.max_attempts retry_config + 1 ->
    exists k,
      let run := Retry.attempts random_uniform
                   (fun a => log (EvRetrySleep a))
                   (Return "_make_request_without_retry")
                   (_make_request_without_retry method uri qs body)
                   retry_config remaining attempt last st in
      (k < remaining)%nat
      /\ trace run.2
         = trace st ++ retry_events (mkRequest method uri qs body) attempt k
      /\ issue_locks run.2 = issue_locks st
      /\ schedule run.2 = schedule st.
Proof.
  intros Hmethod.
  induction remaining as [|n IH]; intros attempt last st Hpos Hsum; [lia|].
  cbv zeta. cbn [Retry.attempts].
  destruct (_make_request_without_retry method uri qs body st)
    as [[b|e] s1] eqn:Hcall;
    destruct (exchange_state _ _ _ _ _ _ _ Hmethod Hcall)
      as (Htr1 & Hlocks1 & Hsched1).
  - exists 0%nat. cbn [fst snd retry_events]. split; [lia|done].
  - destruct (negb (Retry.is_retryable_exception e)).
    { exists 0%nat. cbn [fst snd retry_events]. split; [lia|done]. }
    destruct (attempt =? Retry.max_attempts retry_config) eqn:Hlast.
    { exists 0%nat. cbn [fst snd retry_events]. split; [lia|done]. }
    destruct (Retry.calculate_delay _ _ _) as [delay|overflow].
    2: { exists 0%nat. cbn [fst snd retry_events]. split; [lia|done]. }
    apply Z.eqb_neq in Hlast.
    destruct (IH (attempt + 1) (Some e) (log (EvRetrySleep attempt) s1))
      as (k & Hk & Htr & Hlocks & Hsched); [lia | lia |].
    exists (S k). cbv zeta in *. split; [lia|].
    rewrite Htr, Hlocks, Hsched. cbn [log trace issue_locks schedule].
    rewrite Htr1, Hlocks1, Hsched1. cbn [retry_events].
    rewrite <- !app_assoc. done.
Qed.

Lemma make_request_shape method uri qs body st :
  supported_method method = true ->
  exists k,
    (k <= 2)%nat
    /\ trace (_make_request method uri qs body st).2
       = trace st ++ retry_events (mkRequest method uri qs body) 1 k
    /\ issue_locks (_make_request method uri qs body st).2 = issue_locks st
    /\ schedule (_make_request method uri qs body st).2 = schedule st.
Proof.
  intros Hmethod. unfold _make_request, Retry.async_retry.
  destruct (attempts_shape method uri qs body
              (Z.to_nat (Retry.max_attempts retry_config)) Hmethod 1 None st)
    as (k & Hk & Htr & Hlocks & Hsched); [cbn; lia | cbn; lia |].
  exists k. cbv zeta in *.
  destruct (Retry.attempts _ _ _ _ _ _ _ _ _) as [[[b|]|e] st'];
    cbn [fst snd] in *; (split; [cbn in Hk; lia | done]).
Qed.

(** X4: [_make_request] sends its request at least once and at most three
    times, with one sleep between two sendings and none after the last;
    nothing else enters the trace, and the lock table and the schedule are
    left alone. *)
Theorem make_request_sends_one_to_three method uri qs body st :
  supported_method method = true ->
  exists k,
    (k <= 2)%nat
    /\ trace (_make_request method uri qs body st).2
       = trace st ++ retry_events (mkRequest method uri qs body) 1 k
    /\ issue_locks (_make_request method uri qs body st).2 = issue_locks st
    /\ schedule (_make_request method uri qs body st).2 = schedule st.
Proof. apply make_request_shape. Qed.

(** X5: a request the remote system answers with an HTTP status outside
    408, 429, 500, 502, 503, 504 is sent exactly once: the error is raised
    at once, without a sleep. *)
Theorem make_request_no_retry_on_other_status
    method uri qs body st status text msg w :
  supported_method method = true ->
  exchange (mkRequest method uri qs body) (remote st)
  = (Raise (HTTPStatusError status text msg), w) ->
  status ∉ Retry.RETRYABLE_STATUS_CODES ->
  _make_request method uri qs body st
  = (Raise (HTTPStatusError status text msg),
     mkState (trace st ++ [EvRequest (mkRequest method uri qs body)])
             (issue_locks st) (schedule st) w).
Proof.
  intros Hmethod Hex Hstatus.
  unfold _make_request, Retry.async_retry. cbn [Retry.max_attempts retry_config].
  change (Z.to_nat 3) with 3%nat. cbn [Retry.attempts].
  unfold _make_request_without_retry at 1. rewrite Hmethod, Hex. cbn [negb].
  assert (Retry.is_retryable_exception (HTTPStatusError status text msg)
          = false) as ->; [|done].
  cbn [Retry.is_retryable_exception]. apply not_true_is_false. intros Hin.
  apply Hstatus. apply existsb_exists in Hin as (x & Hx & Heq).
  apply Z.eqb_eq in Heq. subst x. by apply list_elem_of_In.
Qed.

(** X6: a request that fails three times with a retryable HTTP status is
    sent three times with two sleeps in between, and the third error is
    raised. *)
Theorem make_request_gives_up_after_three
    method uri qs body st
    status1 text1 msg1 w1 status2 text2 msg2 w2 status3 text3 msg3 w3 :
  supported_method method = true ->
  let req := mkRequest method uri qs body in
  exchange req (remote st) = (Raise (HTTPStatusError status1 text1 msg1), w1) ->
  exchange req w1 = (Raise (HTTPStatusError status2 text2 msg2), w2) ->
  exchange req w2 = (Raise (HTTPStatusError status3 text3 msg3), w3) ->
  status1 ∈ Retry.RETRYABLE_STATUS_CODES ->
  status2 ∈ Retry.RETRYABLE_STATUS_CODES ->
  _make_request method uri qs body st
  = (Raise (HTTPStatusError status3 text3 msg3),
     mkState (trace st ++ [EvRequest req; EvRetrySleep 1; EvRequest req;
                           EvRetrySleep 2; EvRequest req])
             (issue_locks st) (schedule st) w3).
Proof.
  intros Hmethod req Hex1 Hex2 Hex3 Hs1 Hs2.
  assert (forall status text msg,
            status ∈ Retry.RETRYABLE_STATUS_CODES ->
            Retry.is_retryable_exception (HTTPStatusError status text msg)
            = true) as Hretry.
  { intros status text msg Hin. cbn [Retry.is_retryable_exception].
    apply existsb_exists. exists status.
    split; [by apply list_elem_of_In | apply Z.eqb_refl]. }
  unfold _make_request, Retry.async_retry. cbn [Retry.max_attempts retry_config].
  change (Z.to_nat 3) with 3%nat. cbn [Retry.attempts].
  unfold _make_request_without_retry. rewrite Hmethod. cbn [negb].
  destruct (RetryFacts.calculate_delay_defined random_uniform 1 retry_config)
    as [delay1 Hdelay1]; [vm_compute; reflexivity|].
  destruct (RetryFacts.calculate_delay_defined random_uniform (1 + 1)
              retry_config) as [delay2 Hdelay2]; [vm_compute; reflexivity|].
  fold req. rewrite Hex1, (Hretry _ _ _ Hs1). cbn [negb remote log].
  change (1 =? 3) with false. cbn iota. rewrite Hdelay1.
  rewrite Hex2, (Hretry _ _ _ Hs2). cbn [negb remote log trace issue_locks schedule].
  change (1 + 1 =? 3) with false. cbn iota. rewrite Hdelay2.
  rewrite Hex3. cbn [remote trace issue_locks schedule].
  destruct (negb _); rewrite <- !app_assoc; reflexivity.
Qed.

End Facts.

Lemma make_request_sends_one_to_three_witness :
  exists k,
    (k <= 2)%nat
    /\ trace (@_make_request Mock.mock_env "GET" "/x" "" None
                (Mock.start Mock.flaky [])).2
       = trace (Mock.start Mock.flaky [])
         ++ retry_events (mkRequest "GET" "/x" "" None) 1 k
    /\ issue_locks (@_make_request Mock.mock_env "GET" "/x" "" None
                      (Mock.start Mock.flaky [])).2
       = issue_locks (Mock.start Mock.flaky [])
    /\ schedule (@_make_request Mock.mock_env "GET" "/x" "" None
                   (Mock.start Mock.flaky [])).2
       = schedule (Mock.start Mock.flaky []).
Proof.
  apply (@make_request_sends_one_to_three Mock.mock_env). reflexivity.
Defined.

Lemma make_request_no_retry_on_other_status_witness :
  let st := Mock.start Mock.flaky [] in
  let req := mkRequest "GET" "/public/rest/api/1.0/teststep/42"
                       "projectId=24300" None in
  @_make_request Mock.mock_env "GET" "/public/rest/api/1.0/teststep/42"
                 "projectId=24300" None st
  = (Raise Mock.bad_request,
     @mkState Mock.mock_env [EvRequest req] ∅ [] (Mock.mkWorld ["a"; "b"] [] 0 1)).
Proof.
  apply (@make_request_no_retry_on_other_status Mock.mock_env "GET"
           "/public/rest/api/1.0/teststep/42" "projectId=24300" None
           (Mock.start Mock.flaky []) 400 "Bad Request"
           "Client error '400 Bad Request'" (Mock.mkWorld ["a"; "b"] [] 0 1)).
  - reflexivity.
  - reflexivity.
  - intros Hin. repeat (apply elem_of_cons in Hin as [Heq|Hin]; [discriminate|]).
    by apply elem_of_nil in Hin.
Defined.

End ZephyrTraceFacts.

Module BusyExamples.

Lemma make_request_gives_up_after_three_witness :
  let req := Zephyr.mkRequest "DELETE" "/x" "" None in
  @Zephyr._make_request Busy.busy_env "DELETE" "/x" "" None
    (@Zephyr.mkState Busy.busy_env [] ∅ [] 0%nat)
  = (Raise Busy.busy,
     @Zephyr.mkState Busy.busy_env
       [Zephyr.EvRequest req; Zephyr.EvRetrySleep 1; Zephyr.EvRequest req;
        Zephyr.EvRetrySleep 2; Zephyr.EvRequest req] ∅ [] 3%nat).
Proof.
  apply (@ZephyrTraceFacts.make_request_gives_up_after_three Busy.busy_env
           "DELETE" "/x" "" None (@Zephyr.mkState Busy.busy_env [] ∅ [] 0%nat)
           503 "busy" "Server error '503'" 1%nat
           503 "busy" "Server error '503'" 2%nat
           503 "busy" "Server error '503'" 3%nat);
    try reflexivity.
  - apply list_elem_of_In. cbn. auto 10.
  - apply list_elem_of_In. cbn. auto 10.
Defined.

End BusyExamples.

(* ================================================================== *)
(** * More facts about app/utils/zephyr_auth.py *)

Module ZephyrAuthExtFacts.
Import ZephyrAuth ZephyrAuthExt ZephyrAuthFacts.

Lemma quote_char_checked (c : ascii) :
  forallb (fun x => always_safe x || Ascii.eqb x "%"%char)
          (PyStr.to_list (quote_char c)) = true.
Proof. destruct c as [[] [] [] [] [] [] [] []]; vm_compute; reflexivity. Qed.

Lemma quote_char_alphabet (c x : ascii) :
  In x (PyStr.to_list (quote_char c)) ->
  always_safe x = true \/ x = "%"%char.
Proof.
  intros Hin.
  pose proof (proj1 (forallb_forall _ _) (quote_char_checked c) x Hin) as Hx.
  apply orb_true_iff in Hx as [Hx|Hx]; [by left|].
  right. by apply Ascii.eqb_eq.
Qed.

Lemma to_list_append (a b : string) :
  PyStr.to_list (a +:+ b) = PyStr.to_list a ++ PyStr.to_list b.
Proof.
  unfold PyStr.to_list. induction a as [|c a IH]; [done|].
  change (list_ascii_of_string (String c a +:+ b))
    with (c :: list_ascii_of_string (a +:+ b)).
  rewrite IH. done.
Qed.

(** X7: a percent-encoded text consists of letters, digits, the characters
    [_.-~] and the percent sign; so the separators of the canonical query
    ([&], [=] and the comma) never occur inside an encoded key or value. *)
Theorem pct_encode_alphabet (s : string) (x : ascii) :
  In x (PyStr.to_list (pct_encode s)) ->
  (always_safe x = true \/ x = "%"%char)
  /\ x <> "&"%char /\ x <> "="%char /\ x <> ","%char.
Proof.
  intros Hin.
  assert (always_safe x = true \/ x = "%"%char) as Hx.
  { induction s as [|c s IH]; [contradiction|].
    cbn [pct_encode] in Hin. rewrite to_list_append in Hin.
    apply in_app_or in Hin as [Hin|Hin]; [|by apply IH].
    by apply (quote_char_alphabet c). }
  split; [exact Hx|].
  destruct Hx as [Hx| ->]; [|done].
  repeat split; intros ->; discriminate.
Qed.

Lemma decode_quote_char (c : ascii) (rest : string) :
  decode_char (quote_char c +:+ rest) = Some (c, rest).
Proof. destruct c as [[] [] [] [] [] [] [] []]; reflexivity. Qed.

(** X8: percent-encoding is injective: two different keys, or two
    different values, never have the same encoded text. *)
Theorem pct_encode_injective (s1 s2 : string) :
  pct_encode s1 = pct_encode s2 -> s1 = s2.
Proof.
  revert s2. induction s1 as [|c1 s1 IH]; intros [|c2 s2] Heq.
  - done.
  - apply (f_equal decode_char) in Heq. cbn [pct_encode] in Heq.
    rewrite decode_quote_char in Heq. discriminate.
  - apply (f_equal decode_char) in Heq. cbn [pct_encode] in Heq.
    rewrite decode_quote_char in Heq. discriminate.
  - apply (f_equal decode_char) in Heq. cbn [pct_encode] in Heq.
    rewrite !decode_quote_char in Heq. inversion Heq; subst.
    f_equal. by apply IH.
Qed.

(** X9: a parameter whose name is [jwt] in any case of its letters has no
    part in the canonical query, wherever it stands and whatever its
    value. *)
Theorem canonical_query_ignores_jwt
    (before after : list (string * string)) (k v : string) :
  PyStr.lower k = "jwt" ->
  canonical_query_of (before ++ (k, v) :: after)
  = canonical_query_of (before ++ after).
Proof.
  intros Hk. unfold canonical_query_of.
  rewrite !filter_app, filter_cons_False; [done|].
  cbn [fst]. intros Hne. by apply Hne.
Qed.

Lemma canonical_query_ignores_jwt_witness :
  canonical_query_of ([("a", "1")] ++ ("JwT", "token") :: [("b", "2")])
  = canonical_query_of ([("a", "1")] ++ [("b", "2")]).
Proof. apply canonical_query_ignores_jwt. reflexivity. Defined.

Lemma canonical_query_of_items (pairs : list (string * string)) :
  canonical_query_of pairs
  = PyStr.join "&"
      ((fun kv => kv.1 +:+ "=" +:+ PyStr.join "," kv.2)
         <$> canonical_items pairs).
Proof. reflexivity. Qed.

#[local] Instance key_le_trans : Transitive key_le.
Proof. intros a b c. unfold key_le. apply str_le_trans. Qed.

#[local] Instance key_le_total : Total key_le.
Proof. intros a b. unfold key_le. apply str_le_total. Qed.

(** X10: the items that [canonicalize] joins into the canonical query
    (canonical_query_of is their join) are in ascending order of their keys,
    no key occurs twice, and an item [(k, vs)] is there exactly when some
    parameter other than jwt has the encoded name [k], with [vs] the sorted
    list of the encoded values of all such parameters. *)
Theorem canonical_items_sorted_and_complete (pairs : list (string * string)) :
  let kept := filter (fun kv => PyStr.lower kv.1 <> "jwt") pairs in
  canonical_query_of pairs
  = PyStr.join "&"
      ((fun kv => kv.1 +:+ "=" +:+ PyStr.join "," kv.2)
         <$> canonical_items pairs)
  /\ Sorted key_le (canonical_items pairs)
  /\ NoDup (canonical_items pairs).*1
  /\ forall k vs,
       (k, vs) ∈ canonical_items pairs
       <-> values_of k kept <> []
           /\ vs = merge_sort str_le (values_of k kept)
           /\ Sorted str_le vs.
Proof.
  intros kept. split; [reflexivity|]. unfold canonical_items. fold kept.
  set (m := merge_sort str_le <$> foldl multimap_add ∅ kept).
  split; [apply Sorted_merge_sort, _|]. split.
  - rewrite merge_sort_Permutation. apply NoDup_fst_map_to_list.
  - intros k vs. rewrite merge_sort_Permutation, elem_of_map_to_list.
    unfold m. rewrite lookup_fmap, foldl_multimap_add_lookup, lookup_empty.
    destruct (values_of k kept) as [|v l] eqn:Hv.
    + cbn. split; [done|]. by intros [? _].
    + cbn [fmap option_fmap option_map default app]. split.
      * intros Heq. inversion Heq; subst. split; [done|]. split; [done|].
        apply Sorted_merge_sort, str_le_total.
      * intros (_ & -> & _). done.
Qed.

(** ** The two paths *)

Lemma prefix_append (p x : string) : String.prefix p (p +:+ x) = true.
Proof.
  induction p as [|c p IH]; [by destruct x|].
  change (String c p +:+ x) with (String c (p +:+ x)).
  cbn [String.prefix]. destruct (ascii_dec c c); [exact IH | done].
Qed.

Lemma drop_append (p x : string) : PyStr.drop (String.length p) (p +:+ x) = x.
Proof. induction p as [|c p IH]; [done|]. exact IH. Qed.

Lemma prefix_split (p s : string) :
  String.prefix p s = true -> s = p +:+ PyStr.drop (String.length p) s.
Proof.
  revert s. induction p as [|c p IH]; intros s Hp; [done|].
  destruct s as [|d s]; [discriminate|]. cbn [String.prefix] in Hp.
  destruct (ascii_dec c d) as [->|]; [|discriminate].
  change (String d s = String d (p +:+ PyStr.drop (String.length p) s)).
  f_equal. by apply IH.
Qed.

Lemma nonempty_true (s : string) : PyStr.nonempty s = true <-> s <> "".
Proof. destruct s; cbn; split; done. Qed.

(** X11: [canonicalize] returns the request path, the canonical query and
    the hash of METHOD&qsh_path&query.  When the base URL has no path, both
    paths are the path of the URI.  When it has one, the request path
    begins with that prefix, the path that is hashed begins with a slash,
    and the request path is the prefix followed by the hashed path, or (when
    the URI path continues the prefix without a slash) by the hashed path
    without its first slash. *)
Theorem canonicalize_paths `{UrlLib} (base_url method uri query_params : string) :
  let prefix := base_prefix_of base_url in
  let request_path := request_path_of base_url uri in
  let qsh_path := qsh_path_of base_url uri in
  let query := canonical_query_of (parse_qsl (merged_qs uri query_params)) in
  canonicalize base_url method uri query_params
  = (request_path, query,
     sha256_hexdigest (PyStr.upper method +:+ "&" +:+ qsh_path +:+ "&"
                       +:+ query))
  /\ (prefix = "" -> request_path = uri_path uri /\ qsh_path = uri_path uri)
  /\ (prefix <> "" ->
      PyStr.startswith request_path prefix = true
      /\ PyStr.startswith qsh_path "/" = true
      /\ (request_path = prefix +:+ qsh_path
          \/ "/" +:+ PyStr.drop (String.length prefix) request_path = qsh_path)).
Proof.
  intros prefix request_path qsh_path query. split; [reflexivity|].
  subst request_path qsh_path. unfold qsh_path_of, request_path_of.
  fold prefix. cbv zeta. split.
  - intros Heq. rewrite Heq. split; reflexivity.
  - intros Hne. apply nonempty_true in Hne. rewrite Hne. cbn [andb].
    unfold PyStr.startswith.
    destruct (String.prefix prefix (uri_path uri)) eqn:Hpre; cbn [negb].
    + rewrite Hpre. split; [done|].
      destruct (String.prefix "/" (PyStr.drop _ (uri_path uri))) eqn:Hslash;
        cbn [negb].
      * split; [done|]. left. by apply prefix_split.
      * split; [apply (prefix_append "/")|]. by right.
    + rewrite prefix_append, drop_append.
      rewrite (prefix_append "/"). cbn [negb].
      split; [done|]. split; [apply (prefix_append "/")|]. by left.
Qed.

Lemma pct_encode_alphabet_witness :
  (always_safe "%"%char = true \/ "%"%char = "%"%char)
  /\ "%"%char <> "&"%char /\ "%"%char <> "="%char /\ "%"%char <> ","%char.
Proof.
  apply (pct_encode_alphabet "a&b=c" "%"%char).
  vm_compute. right; left. reflexivity.
Defined.

Lemma pct_encode_injective_witness : "a b" = "a b".
Proof. apply (pct_encode_injective "a b" "a b"). reflexivity. Defined.

End ZephyrAuthExtFacts.

(* ================================================================== *)
(** * The stable sort *)

Module PySortFacts.
Import PySort.

Section Facts.
Context {A : Type} (le : A -> A -> Prop) `{!forall x y, Decision (le x y)}.

Lemma insert_sorted_perm x l : insert_sorted le x l ≡ₚ x :: l.
Proof.
  induction l as [|y l IH]; [done|]. cbn [insert_sorted].
  destruct (decide (le x y)); [done|].
  rewrite IH. apply Permutation_swap.
Qed.

Lemma stable_sort_perm l : stable_sort le l ≡ₚ l.
Proof.
  induction l as [|x l IH]; [done|].
  cbn [stable_sort foldr]. fold (stable_sort le l).
  by rewrite insert_sorted_perm, IH.
Qed.

Lemma insert_sorted_Sorted `{!Total le} x l :
  Sorted le l -> Sorted le (insert_sorted le x l).
Proof.
  induction l as [|y l IH]; intros Hsorted.
  - repeat constructor.
  - cbn [insert_sorted]. destruct (decide (le x y)) as [Hxy|Hxy].
    + constructor; [done|]. by constructor.
    + apply Sorted_inv in Hsorted as [Hl Hhd].
      constructor; [by apply IH|].
      destruct l as [|z l]; cbn [insert_sorted].
      * constructor. by destruct (total le x y).
      * destruct (decide (le x z)).
        -- constructor. by destruct (total le x y).
        -- constructor. by apply HdRel_inv in Hhd.
Qed.

Lemma stable_sort_Sorted `{!Total le} l : Sorted le (stable_sort le l).
Proof.
  induction l as [|x l IH]; [constructor|].
  cbn [stable_sort foldr]. by apply insert_sorted_Sorted.
Qed.

(** Stability: an element goes before the elements it is not above, so
    among elements with equal keys the one that stood first stays first. *)
Lemma stable_sort_cons x l :
  stable_sort le (x :: l) = insert_sorted le x (stable_sort le l).
Proof. reflexivity. Qed.

Lemma insert_sorted_first x y l :
  le x y -> insert_sorted le x (y :: l) = x :: y :: l.
Proof. intros Hxy. cbn [insert_sorted]. by rewrite decide_True. Qed.
End Facts.

End PySortFacts.

(* ================================================================== *)
(** * Facts about _parse_test_steps and get_test_case *)

Module ParseFacts.
Import Json Zephyr ZephyrAuthFacts.

Section Facts.
Context `{Env}.

#[local] Instance step_le_total : Total step_le.
Proof.
  intros a b. unfold step_le.
  destruct (Z.lt_trichotomy (orderId a) (orderId b)) as [Hlt|[Heq|Hgt]].
  - by left; left.
  - destruct (str_le_total (id a) (id b)); [left|right]; right; split;
      done.
  - by right; left.
Qed.

Lemma omapM_spec {A B : Type} (f : A -> outcome B) (l : list A) :
  match omapM f l with
  | Return ys => length ys = length l
                 /\ forall i x, l !! i = Some x -> Return <$> ys !! i = Some (f x)
  | Raise e => exists x, x ∈ l /\ f x = Raise e
  end.
Proof.
  induction l as [|x l IH]; cbn [omapM obind].
  - split; [done|]. intros i x Hi. by rewrite lookup_nil in Hi.
  - destruct (f x) as [y|e] eqn:Hfx; cbn [obind].
    + destruct (omapM f l) as [ys|e]; cbn [obind].
      * destruct IH as [Hlen Hnth]. split; [cbn; lia|].
        intros [|i] x' Hi; cbn in Hi.
        -- inversion Hi; subst. cbn. by rewrite Hfx.
        -- by apply Hnth.
      * destruct IH as (x' & Hin & Hx'). exists x'.
        split; [by apply list_elem_of_further|done].
    + exists x. split; [apply list_elem_of_here|done].
Qed.

Lemma omapM_raises {A B : Type} (f : A -> outcome B) (l : list A) x e :
  x ∈ l -> f x = Raise e -> exists e', omapM f l = Raise e'.
Proof.
  induction l as [|y l IH]; intros Hin Hx; [by apply elem_of_nil in Hin|].
  cbn [omapM]. apply elem_of_cons in Hin as [->|Hin].
  - rewrite Hx. by eexists.
  - destruct (f y) as [v|e0]; cbn [obind]; [|by eexists].
    destruct (IH Hin Hx) as [e' ->]. by eexists.
Qed.

(** X12: the step list may come bare or wrapped in a dict under
    [testSteps], [values] or [results] (the first of them that is truthy):
    [_parse_test_steps] gives the same result; a dict in which none of the
    three is truthy parses to no step at all. *)
Theorem parse_test_steps_envelopes (fields : list (string * json))
    (items : list json) :
  items <> [] ->
  let falsy k := truthy (default JNull (assoc k fields)) = false in
  (assoc "testSteps" fields = Some (JArr items) ->
   _parse_test_steps (JObj fields) = _parse_test_steps (JArr items))
  /\ (falsy "testSteps" -> assoc "values" fields = Some (JArr items) ->
      _parse_test_steps (JObj fields) = _parse_test_steps (JArr items))
  /\ (falsy "testSteps" -> falsy "values" ->
      assoc "results" fields = Some (JArr items) ->
      _parse_test_steps (JObj fields) = _parse_test_steps (JArr items))
  /\ (falsy "testSteps" -> falsy "values" -> falsy "results" ->
      _parse_test_steps (JObj fields) = Return []).
Proof.
  intros Hne falsy. subst falsy. cbv beta.
  assert (truthy (JArr items) = true) as Htruthy by (by destruct items).
  unfold _parse_test_steps, get, or_else.
  repeat split.
  - intros ->. cbn [default]. unfold Datatypes.id. by rewrite Htruthy.
  - intros -> ->. cbn [default]. unfold Datatypes.id. by rewrite Htruthy.
  - intros -> -> ->. cbn [default]. unfold Datatypes.id. by rewrite Htruthy.
  - intros -> -> ->. reflexivity.
Qed.

(** X13: when [_parse_test_steps] succeeds on a list, it returns one step
    per item (the parsed items, rearranged) in ascending order of
    [(orderId, id)]. *)
Theorem parse_test_steps_sorted (items : list json)
    (steps : list ZephyrTestStepResponse) :
  _parse_test_steps (JArr items) = Return steps ->
  length steps = length items
  /\ Sorted step_le steps
  /\ exists parsed,
       omapM parse_item items = Return parsed
       /\ steps ≡ₚ parsed
       /\ forall i item, items !! i = Some item ->
            Return <$> parsed !! i = Some (parse_item item).
Proof.
  unfold _parse_test_steps. cbn [obind iterate].
  pose proof (omapM_spec parse_item items) as Hspec.
  destruct (omapM parse_item items) as [parsed|e]; cbn [obind]; [|done].
  intros Heq. inversion Heq; subst. destruct Hspec as [Hlen Hnth].
  split; [by rewrite PySortFacts.stable_sort_perm|].
  split; [apply PySortFacts.stable_sort_Sorted, _|].
  exists parsed.
  split; [done|]. split; [apply PySortFacts.stable_sort_perm|done].
Qed.

(** X14: the key [testStep] is read both as the wrapper of a nested step
    and as the text of a flat one, and the wrapper wins: a flat item that
    has a non-empty text under [testStep] (and nothing truthy under
    [teststep]) does not parse, because the text itself is taken for the
    step object and has no [get]. *)
Theorem parse_item_flat_testStep_raises
    (fields : list (string * json)) (text : string) :
  truthy (default JNull (assoc "teststep" fields)) = false ->
  assoc "testStep" fields = Some (JStr text) ->
  text <> "" ->
  parse_item (JObj fields) = Raise (no_get (JStr text)).
Proof.
  intros Hfalsy Htext Hne. unfold parse_item, get, or_else.
  rewrite Hfalsy, Htext. cbn [default truthy].
  by destruct text.
Qed.

(** X15: one item that does not parse spoils the whole fetch: if the GET
    returns a list in which some item makes the loop body raise,
    [get_test_case] returns [None] (not the steps that did parse). *)
Theorem get_test_case_all_or_nothing
    (issue_id : string) (items : list json) (item : json) (e : exn)
    (st st1 : state) :
  _make_request "GET" (teststep_uri issue_id) (project_query PROJECT_ID) None st
  = (Return (JArr items), st1) ->
  item ∈ items ->
  parse_item item = Raise e ->
  get_test_case issue_id st = (None, st1).
Proof.
  intros Hreq Hin Hitem.
  unfold get_test_case, try_except, bind. rewrite Hreq.
  unfold lift, _parse_test_steps. cbn [obind iterate].
  destruct (omapM_raises parse_item items item e Hin Hitem) as [e' ->].
  reflexivity.
Qed.

End Facts.

Lemma parse_test_steps_envelopes_witness :
  @_parse_test_steps Mock.mock_env
    (JObj [("testSteps", JArr []); ("values", JArr Odd.two_steps)])
  = @_parse_test_steps Mock.mock_env (JArr Odd.two_steps).
Proof.
  destruct (@parse_test_steps_envelopes Mock.mock_env
              [("testSteps", JArr []); ("values", JArr Odd.two_steps)]
              Odd.two_steps) as (_ & Hvalues & _); [discriminate|].
  apply Hvalues; reflexivity.
Defined.

Lemma parse_test_steps_sorted_witness :
  let steps := [mkStepResponse "11" "a" None (Some "ok") 1;
                mkStepResponse "12" "b" None None 2] in
  length steps = length Odd.two_steps
  /\ Sorted (@step_le) steps
  /\ exists parsed,
       omapM (@parse_item Mock.mock_env) Odd.two_steps = Return parsed
       /\ steps ≡ₚ parsed
       /\ forall i item, Odd.two_steps !! i = Some item ->
            Return <$> parsed !! i = Some (@parse_item Mock.mock_env item).
Proof.
  apply (@parse_test_steps_sorted Mock.mock_env). vm_compute. reflexivity.
Defined.

Lemma parse_item_flat_testStep_raises_witness :
  @parse_item Mock.mock_env Odd.flat_step
  = Raise (OtherException "object has no attribute 'get'").
Proof.
  apply (@parse_item_flat_testStep_raises Mock.mock_env
           [("id", JStr "11"); ("orderId", JNum 1); ("testStep", JStr "a")]
           "a"); [reflexivity | reflexivity | discriminate].
Defined.

Lemma get_test_case_all_or_nothing_witness :
  @get_test_case Odd.odd_env "42" (@mkState Odd.odd_env [] ∅ [] 0%nat)
  = (None,
     @mkState Odd.odd_env
       [EvRequest (mkRequest "GET" "/public/rest/api/1.0/teststep/42"
                             "projectId=24300" None)] ∅ [] 1%nat).
Proof.
  apply (@get_test_case_all_or_nothing Odd.odd_env "42" Odd.odd_list (JNum 5)
           (OtherException "object has no attribute 'get'")).
  - reflexivity.
  - apply list_elem_of_In. cbn. auto.
  - reflexivity.
Defined.

(** Steps with the same order and identifier come back in the order in
    which the remote system listed them. *)
Example parse_test_steps_keeps_ties :
  @_parse_test_steps Mock.mock_env
    (JArr [JObj [("id", JStr "7"); ("orderId", JNum 1); ("step", JStr "z")];
           JObj [("id", JStr "7"); ("orderId", JNum 1); ("step", JStr "x")];
           JObj [("id", JStr "7"); ("orderId", JNum 1); ("step", JStr "y")];
           JObj [("id", JStr "3"); ("orderId", JNum 0); ("step", JStr "w")]])
  = Return [mkStepResponse "3" "w" None None 0;
            mkStepResponse "7" "z" None None 1;
            mkStepResponse "7" "x" None None 1;
            mkStepResponse "7" "y" None None 1].
Proof. vm_compute. reflexivity. Qed.

End ParseFacts.

(* ================================================================== *)
(** * What one run of update_test_steps puts on the trace *)

Module ZephyrInvFacts.
Import Json Zephyr ZephyrTrace ZephyrInv ZephyrTraceFacts ZephyrFacts.

Section Facts.
Context `{Env}.

Lemma grows_refl P st : grows P st st.
Proof. exists []. by rewrite app_nil_r. Qed.

Lemma grows_trans P st1 st2 st3 :
  grows P st1 st2 -> grows P st2 st3 -> grows P st1 st3.
Proof.
  intros (evs1 & Htr1 & HP1 & Hl1) (evs2 & Htr2 & HP2 & Hl2).
  exists (evs1 ++ evs2). split; [by rewrite Htr2, Htr1, app_assoc|].
  split; [by apply Forall_app|congruence].
Qed.

Lemma grows_log (P : event -> Prop) ev st : P ev -> grows P st (log ev st).
Proof. intros HP. exists [ev]. repeat split; [by constructor]. Qed.

Lemma retry_events_Forall (P : event -> Prop) req a k :
  P (EvRequest req) -> (forall a', P (EvRetrySleep a')) ->
  Forall P (retry_events req a k).
Proof.
  intros Hreq Hsleep. revert a.
  induction k as [|k IH]; intros a; cbn; repeat constructor; auto.
Qed.

Lemma make_request_grows (P : event -> Prop) method uri qs body st :
  supported_method method = true ->
  P (EvRequest (mkRequest method uri qs body)) ->
  (forall a, P (EvRetrySleep a)) ->
  grows P st (_make_request method uri qs body st).2.
Proof.
  intros Hmethod Hreq Hsleep.
  destruct (make_request_shape method uri qs body st Hmethod)
    as (k & _ & Htr & Hlocks & _).
  eexists. split; [exact Htr|]. split; [|exact Hlocks].
  by apply retry_events_Forall.
Qed.

Lemma get_test_case_state issue_id st :
  (get_test_case issue_id st).2
  = (_make_request "GET" (teststep_uri issue_id) (project_query PROJECT_ID)
       None st).2.
Proof.
  unfold get_test_case, try_except, bind, lift, ret, tret.
  destruct (_make_request _ _ _ _ st) as [[b|e] st0]; [|done].
  by destruct (_parse_test_steps b).
Qed.

Lemma delete_test_step_state issue_id project_id step_id st :
  (delete_test_step issue_id project_id step_id st).2
  = (_make_request "DELETE"
       ("/public/rest/api/1.0/teststep/" +:+ issue_id +:+ "/" +:+ step_id)
       (project_query project_id) None st).2.
Proof.
  unfold delete_test_step, try_except_status, bind, ret, tret.
  by destruct (_make_request _ _ _ _ st) as [[b|[]] st0].
Qed.

Section Body.
Variable issue_id : string.
Variable project_id : Z.

Let P := body_event issue_id project_id.

Lemma get_test_case_grows st : grows P st (get_test_case issue_id st).2.
Proof.
  rewrite get_test_case_state. apply make_request_grows; [done| |done].
  by left.
Qed.

Lemma delete_test_step_grows step_id st :
  grows P st (delete_test_step issue_id project_id step_id st).2.
Proof.
  rewrite delete_test_step_state. apply make_request_grows; [done| |done].
  right; left. by exists step_id.
Qed.

Lemma delete_rounds_grows step_id remaining :
  forall attempts st,
    grows P st (delete_rounds remaining attempts issue_id project_id step_id
                  st).2.
Proof.
  induction remaining as [|n IH]; intros attempts st; [apply grows_refl|].
  cbn [delete_rounds]. unfold tbind, try_except, tret.
  pose proof (delete_test_step_grows step_id st) as Hdel.
  destruct (delete_test_step issue_id project_id step_id st)
    as [[[|]|e] st1]; cbn [snd] in *.
  - exact Hdel.
  - eapply grows_trans; [exact Hdel|].
    eapply grows_trans; [|apply IH]. by apply grows_log.
  - eapply grows_trans; [exact Hdel|].
    eapply grows_trans; [|apply IH]. by apply grows_log.
Qed.

Lemma next_choice_grows st : grows P st (next_choice st).2.
Proof. exists []. cbn. by rewrite app_nil_r. Qed.

Lemma gather_loop_grows {A : Type} (n : nat) :
  forall (tasks : list (task A)) st,
    Forall (fun t : task A => forall s, grows P s (t s).2) tasks ->
    grows P st (gather_loop n tasks st).2.
Proof.
  induction n as [|n IH]; intros tasks st Htasks; [apply grows_refl|].
  rewrite gather_loop_step.
  pose proof (next_choice_grows st) as Hchoice.
  destruct (next_choice st) as [choice st0]. cbn [snd] in Hchoice. cbv zeta.
  destruct (tasks !! (choice `mod` length tasks)%nat) as [t|] eqn:Ht;
    [|exact Hchoice].
  pose proof (Forall_lookup_1 _ _ _ _ Htasks Ht st0) as Hrun.
  destruct (t st0) as [r st1]. cbn [snd] in Hrun.
  pose proof (IH (delete (choice `mod` length tasks)%nat tasks) st1
                 (Forall_delete _ _ _ Htasks)) as Hrest.
  destruct (gather_loop n _ st1) as [rs st2]. cbn [snd] in *.
  eapply grows_trans; [exact Hchoice|].
  eapply grows_trans; [exact Hrun|exact Hrest].
Qed.

Lemma delete_snapshot_grows ids deleted errors st :
  grows P st (delete_snapshot issue_id project_id ids deleted errors st).2.
Proof.
  unfold delete_snapshot. destruct ids as [|sid ids]; [apply grows_refl|].
  unfold tbind, tret.
  pose proof (gather_loop_grows
                (length (_delete_one issue_id project_id <$> sid :: ids))
                (_delete_one issue_id project_id <$> sid :: ids) st) as Hg.
  unfold gather.
  destruct (gather_loop _ _ st) as [rs st1]. cbn [snd] in *.
  apply Hg. apply Forall_fmap, Forall_forall. intros x _ s.
  apply delete_rounds_grows.
Qed.

Lemma delete_leftovers_grows leftovers :
  forall deleted errors st,
    grows P st (delete_leftovers issue_id project_id leftovers deleted errors
                  st).2.
Proof.
  induction leftovers as [|sid rest IH]; intros deleted errors st;
    [apply grows_refl|].
  cbn [delete_leftovers]. unfold tbind, try_except, bind, ret, tret.
  pose proof (delete_test_step_grows sid st) as Hdel.
  destruct (delete_test_step issue_id project_id sid st)
    as [[[|]|e] st1]; cbn [snd] in *;
    (eapply grows_trans; [exact Hdel|apply IH]).
Qed.

Lemma cleanup_leftovers_grows deleted errors st :
  grows P st (cleanup_leftovers issue_id project_id deleted errors st).2.
Proof.
  unfold cleanup_leftovers, tbind, tret.
  pose proof (get_test_case_grows st) as Hget.
  destruct (get_test_case issue_id st) as [post st1]. cbn [snd] in Hget.
  destruct (present_ids_of post) as [|sid rest]; [exact Hget|].
  pose proof (delete_leftovers_grows (sid :: rest) deleted errors st1) as Hdel.
  destruct (delete_leftovers _ _ _ _ _ st1) as [r st2]. cbn [snd] in Hdel.
  pose proof (get_test_case_grows st2) as Hget2.
  destruct (get_test_case issue_id st2) as [confirm st3]. cbn [snd] in Hget2.
  assert (grows P st st3) as Hall.
  { eapply grows_trans; [exact Hget|].
    eapply grows_trans; [exact Hdel|exact Hget2]. }
  by destruct (present_ids_of confirm).
Qed.

Lemma add_single_step_grows step is_last_step st :
  grows P st (_add_single_step (teststep_uri issue_id) project_id step
                is_last_step st).2.
Proof.
  unfold _add_single_step.
  destruct (negb _); [apply grows_refl|].
  unfold try_except, bind, lift, ret, tret.
  pose proof (make_request_grows P "POST" (teststep_uri issue_id)
                (project_query project_id)
                (Some (payload_json (make_payload step is_last_step))) st
                eq_refl) as Hreq.
  destruct (_make_request _ _ _ _ st) as [[b|e] st1]; cbn [snd] in Hreq.
  - destruct (new_id_of b); apply Hreq; try done;
      right; right; by exists step, is_last_step.
  - apply Hreq; [|done]. right; right. by exists step, is_last_step.
Qed.

Lemma add_loop_grows n rest :
  forall i created errors st,
    grows P st (add_loop (teststep_uri issue_id) project_id n i rest created
                  errors st).2.
Proof.
  induction rest as [|step rest IH]; intros i created errors st;
    [apply grows_refl|].
  rewrite add_loop_cons.
  pose proof (add_single_step_grows step (i =? n - 1) st) as Hstep.
  destruct (_add_single_step _ _ _ _ st) as [[new_id|error] st1];
    cbn [snd] in Hstep; (eapply grows_trans; [exact Hstep|apply IH]).
Qed.

Lemma add_test_steps_grows steps st :
  grows P st (add_test_steps issue_id project_id steps st).2.
Proof.
  destruct (decide (steps = [])) as [->|Hne]; [apply grows_refl|].
  rewrite add_test_steps_nonempty by done.
  pose proof (add_loop_grows (Z.of_nat (length steps)) steps 0 [] [] st) as Hl.
  by destruct (add_loop _ _ _ _ _ _ _ st).
Qed.

Lemma update_test_steps_body steps st :
  steps <> [] ->
  exists st_body,
    grows P (log (EvAcquire issue_id) (lock_entry issue_id st)) st_body
    /\ (update_test_steps issue_id project_id steps st).2
       = log (EvRelease issue_id) st_body.
Proof.
  intros Hne. rewrite update_test_steps_nonempty by done.
  set (st0 := log (EvAcquire issue_id) (lock_entry issue_id st)).
  pose proof (get_test_case_grows st0) as H1.
  destruct (get_test_case issue_id st0) as [tc st1]. cbn [snd] in H1.
  pose proof (delete_snapshot_grows (snapshot_ids_of tc) 0 [] st1) as H2.
  destruct (delete_snapshot _ _ _ _ _ st1) as [r st2]. cbn [snd] in H2.
  pose proof (cleanup_leftovers_grows r.1 r.2 st2) as H3.
  destruct (cleanup_leftovers _ _ _ _ st2) as [r' st3]. cbn [snd] in H3.
  pose proof (add_test_steps_grows steps st3) as H4.
  destruct (add_test_steps _ _ _ st3) as [add_result st4]. cbn [snd] in H4.
  exists st4. split; [|done].
  eapply grows_trans; [exact H1|]. eapply grows_trans; [exact H2|].
  eapply grows_trans; [exact H3|exact H4].
Qed.
End Body.

(** X16: a run of [update_test_steps] with at least one new step is
    bracketed by the lock of its issue: the first event it adds to the
    trace is the acquisition of that lock, the last one its release, there
    is no lock event in between, and the lock table gains exactly the entry
    of the issue. *)
Theorem update_test_steps_holds_lock
    (issue_id : string) (project_id : Z) (steps : list StepIn) (st : state) :
  steps <> [] ->
  let st' := (update_test_steps issue_id project_id steps st).2 in
  exists evs,
    trace st' = trace st ++ [EvAcquire issue_id] ++ evs ++ [EvRelease issue_id]
    /\ (forall key, (EvAcquire key ∉ evs) /\ (EvRelease key ∉ evs))
    /\ issue_locks st' = {[issue_id]} ∪ issue_locks st.
Proof.
  intros Hne.
  destruct (update_test_steps_body issue_id project_id steps st Hne)
    as (st_body & (evs & Htr & HP & Hlocks) & Hend).
  cbv zeta. rewrite Hend. exists evs. cbn [log trace issue_locks].
  split; [|split].
  - rewrite Htr. cbn [log trace lock_entry]. by rewrite <- !app_assoc.
  - intros key. rewrite Forall_forall in HP.
    split; intros Hin; apply (HP _ Hin).
  - by rewrite Hlocks.
Qed.

(** X17: every request of a run of [update_test_steps] is one of three:
    the GET of the step list of the issue, which carries the configured
    [PROJECT_ID] (not the [project_id] of the call); the DELETE of one step
    of the issue, with the [project_id] of the call; or the POST that
    creates a step of the issue, with the [project_id] of the call. *)
Theorem update_test_steps_requests
    (issue_id : string) (project_id : Z) (steps : list StepIn) (st : state) :
  steps <> [] ->
  exists evs,
    trace (update_test_steps issue_id project_id steps st).2 = trace st ++ evs
    /\ forall r, r ∈ requests_of evs ->
         r = mkRequest "GET" (teststep_uri issue_id)
                       ("projectId=" +:+ PyStr.of_Z PROJECT_ID) None
         \/ (exists step_id,
               r = mkRequest "DELETE"
                     ("/public/rest/api/1.0/teststep/" +:+ issue_id +:+ "/"
                      +:+ step_id)
                     ("projectId=" +:+ PyStr.of_Z project_id) None)
         \/ (exists text data result,
               r = create_request issue_id project_id text data result).
Proof.
  intros Hne.
  destruct (update_test_steps_body issue_id project_id steps st Hne)
    as (st_body & (evs & Htr & HP & Hlocks) & Hend).
  exists ([EvAcquire issue_id] ++ evs ++ [EvRelease issue_id]).
  split.
  { rewrite Hend. cbn [log trace]. rewrite Htr. cbn [log trace lock_entry].
    by rewrite <- !app_assoc. }
  intros r Hr. rewrite !requests_of_app in Hr. cbn in Hr.
  rewrite app_nil_r in Hr.
  assert (EvRequest r ∈ evs) as Hin.
  { unfold requests_of in Hr. apply list_elem_of_omap in Hr as (ev & Hev & Hm).
    destruct ev; inversion Hm; by subst. }
  rewrite Forall_forall in HP. specialize (HP _ Hin). cbn in HP.
  destruct HP as [->|[[sid ->]|(step & b & ->)]];
    [by left | right; left; by eexists |].
  right; right. by eexists _, _, _.
Qed.

(** ** One deletion task *)

Lemma requests_of_retry_events req a k :
  requests_of (retry_events req a k) = replicate (S k) req.
Proof.
  revert a. induction k as [|k IH]; intros a; [done|].
  cbn [retry_events]. change (requests_of (EvRequest req :: EvRetrySleep a
                                             :: retry_events req (a + 1) k))
    with (req :: requests_of (retry_events req (a + 1) k)).
  by rewrite IH.
Qed.

Lemma delete_sleeps_of_retry_events req a k :
  delete_sleeps_of (retry_events req a k) = [].
Proof. revert a. induction k as [|k IH]; intros a; [done|]. apply IH. Qed.

Lemma delete_sleeps_of_app evs1 evs2 :
  delete_sleeps_of (evs1 ++ evs2)
  = delete_sleeps_of evs1 ++ delete_sleeps_of evs2.
Proof. unfold delete_sleeps_of. apply omap_app. Qed.

Lemma shifted_seq (a : Z) (j : nat) :
  (fun i => a + Z.of_nat i) <$> seq 1 (S j)
  = (a + 1) :: ((fun i => a + 1 + Z.of_nat i) <$> seq 1 j).
Proof.
  cbn [seq fmap list_fmap]. f_equal.
  rewrite <- fmap_S_seq, <- list_fmap_compose.
  apply list_fmap_ext. intros _ i _. cbn. lia.
Qed.

Lemma delete_rounds_spec issue_id project_id step_id remaining :
  forall attempts st,
  exists evs (j : nat),
    let run := delete_rounds remaining attempts issue_id project_id step_id
                             st in
    trace run.2 = trace st ++ evs
    /\ requests_of evs
       = replicate (length (requests_of evs))
                   (delete_request issue_id project_id step_id)
    /\ (length (requests_of evs) <= 3 * remaining)%nat
    /\ (remaining <> 0%nat -> requests_of evs <> [])
    /\ delete_sleeps_of evs = (fun i => attempts + Z.of_nat i) <$> seq 1 j
    /\ (if run.1 then (j < remaining)%nat else j = remaining).
Proof.
  induction remaining as [|n IH]; intros attempts st.
  { exists [], 0%nat. cbn. rewrite app_nil_r. done. }
  cbv zeta. cbn [delete_rounds]. unfold tbind, try_except, tret.
  pose proof (delete_test_step_state issue_id project_id step_id st) as Hst.
  destruct (make_request_shape "DELETE"
              ("/public/rest/api/1.0/teststep/" +:+ issue_id +:+ "/"
               +:+ step_id) (project_query project_id) None st eq_refl)
    as (k & Hk & Htr & _).
  rewrite <- Hst in Htr. fold (delete_request issue_id project_id step_id) in Htr.
  set (req := delete_request issue_id project_id step_id) in *.
  assert (forall st1 : state,
             trace st1 = trace st ++ retry_events req 1 k ->
             exists evs j,
               let run := delete_rounds n (attempts + 1) issue_id project_id
                            step_id (log (EvDeleteSleep (attempts + 1)) st1) in
               trace run.2 = trace st ++ evs
               /\ requests_of evs = replicate (length (requests_of evs)) req
               /\ (length (requests_of evs) <= 3 * S n)%nat
               /\ (S n <> 0%nat -> requests_of evs <> [])
               /\ delete_sleeps_of evs
                  = (fun i => attempts + Z.of_nat i) <$> seq 1 j
               /\ (if run.1 then (j < S n)%nat else j = S n)) as Hretry.
  { intros st1 Htr1.
    destruct (IH (attempts + 1) (log (EvDeleteSleep (attempts + 1)) st1))
      as (evs & j & Hevs & Hreqs & Hlen & _ & Hsl & Hj).
    exists (retry_events req 1 k ++ EvDeleteSleep (attempts + 1) :: evs), (S j).
    cbv zeta in *. split; [|split; [|split; [|split; [|split]]]].
    - rewrite Hevs. cbn [log trace]. rewrite Htr1, <- !app_assoc. done.
    - rewrite requests_of_app, requests_of_retry_events.
      change (requests_of (EvDeleteSleep (attempts + 1) :: evs))
        with (requests_of evs).
      rewrite Hreqs, length_app, !length_replicate, <- replicate_add. done.
    - rewrite requests_of_app, requests_of_retry_events.
      change (requests_of (EvDeleteSleep (attempts + 1) :: evs))
        with (requests_of evs).
      rewrite length_app, length_replicate. lia.
    - intros _. rewrite requests_of_app, requests_of_retry_events. done.
    - rewrite delete_sleeps_of_app, delete_sleeps_of_retry_events.
      change (delete_sleeps_of (EvDeleteSleep (attempts + 1) :: evs))
        with ((attempts + 1) :: delete_sleeps_of evs).
      by rewrite Hsl, shifted_seq.
    - destruct (delete_rounds _ _ _ _ _ _).1; lia. }
  destruct (delete_test_step issue_id project_id step_id st)
    as [[[|]|e] st1]; cbn [snd] in Htr.
  - exists (retry_events req 1 k), 0%nat. cbn [fst snd].
    rewrite requests_of_retry_events, length_replicate.
    split; [done|]. split; [done|]. split; [lia|]. split; [done|].
    split; [apply delete_sleeps_of_retry_events|lia].
  - by apply Hretry.
  - by apply Hretry.
Qed.

(** X18: one deletion task ([_delete_one]) sends only the DELETE of its
    step, at least once and at most nine times (three rounds of up to three
    sendings).  It sleeps after every round that did not succeed, for
    0.2 times 1, 2, 3: a task that returns [True] has slept at most
    twice, and a task that returns [False] has slept three times, the
    third time after its last round. *)
Theorem delete_one_rounds_and_sleeps
    (issue_id : string) (project_id : Z) (step_id : string) (st : state) :
  let run := _delete_one issue_id project_id step_id st in
  exists evs,
    trace run.2 = trace st ++ evs
    /\ (forall r, r ∈ requests_of evs ->
          r = delete_request issue_id project_id step_id)
    /\ (1 <= length (requests_of evs) <= 9)%nat
    /\ (if run.1
        then delete_sleeps_of evs = [] \/ delete_sleeps_of evs = [1]
             \/ delete_sleeps_of evs = [1; 2]
        else delete_sleeps_of evs = [1; 2; 3]).
Proof.
  destruct (delete_rounds_spec issue_id project_id step_id 3 0 st)
    as (evs & j & Htr & Hreqs & Hlen & Hne & Hsl & Hj).
  cbv zeta in *. unfold _delete_one. exists evs.
  split; [done|]. split; [|split].
  - intros r Hr. rewrite Hreqs in Hr. by apply elem_of_replicate in Hr as [-> _].
  - specialize (Hne ltac:(done)).
    destruct (requests_of evs); [done|]. cbn in *. lia.
  - rewrite Hsl.
    destruct (delete_rounds 3 0 issue_id project_id step_id st).1.
    + destruct j as [|[|[|j]]]; [by left|right; by left|right; by right|lia].
    + by subst j.
Qed.

End Facts.

Lemma update_test_steps_holds_lock_witness :
  let st := Mock.start Mock.flaky [] in
  let st' := (@update_test_steps Mock.mock_env "42" 7 Mock.steps2 st).2 in
  exists evs,
    trace st' = trace st ++ [EvAcquire "42"] ++ evs ++ [EvRelease "42"]
    /\ (forall key, (EvAcquire key ∉ evs) /\ (EvRelease key ∉ evs))
    /\ issue_locks st' = {["42"]} ∪ issue_locks st.
Proof.
  apply (@update_test_steps_holds_lock Mock.mock_env "42" 7 Mock.steps2
           (Mock.start Mock.flaky [])).
  discriminate.
Defined.

Lemma update_test_steps_requests_witness :
  let st := Mock.start Mock.flaky [] in
  exists evs,
    trace (@update_test_steps Mock.mock_env "42" 7 Mock.steps2 st).2
    = trace st ++ evs
    /\ forall r, r ∈ requests_of evs ->
         r = mkRequest "GET" (@teststep_uri "42") "projectId=24300" None
         \/ (exists step_id,
               r = mkRequest "DELETE"
                     ("/public/rest/api/1.0/teststep/42/" +:+ step_id)
                     "projectId=7" None)
         \/ (exists text data result,
               r = @create_request "42" 7 text data result).
Proof.
  apply (@update_test_steps_requests Mock.mock_env "42" 7 Mock.steps2
           (Mock.start Mock.flaky [])).
  discriminate.
Defined.

End ZephyrInvFacts.

(* ================================================================== *)
(** * The result of update_test_steps and of add_test_to_cycle *)

Module ZephyrResultFacts.
Import Json Zephyr ZephyrFacts.

Section Facts.
Context `{Env}.

Lemma delete_snapshot_nonneg issue_id project_id ids st :
  0 <= (delete_snapshot issue_id project_id ids 0 [] st).1.1.
Proof.
  unfold delete_snapshot. destruct ids as [|sid ids]; [done|].
  unfold tbind, tret. destruct (gather _ st) as [results st1]. cbn [fst].
  rewrite count_results_spec. cbn [fst]. lia.
Qed.

(** X19: the result of [update_test_steps] is consistent:
    [steps_created] is the length of [created_ids], which is at most the
    number of new steps; [steps_deleted] is not negative; and every new
    step that was not created has left an entry in [errors], so a partial
    failure always shows there. *)
Theorem update_test_steps_accounting
    (issue_id : string) (project_id : Z) (steps : list StepIn) (st : state) :
  let r := (update_test_steps issue_id project_id steps st).1 in
  upd_steps_created r = Z.of_nat (length (upd_created_ids r))
  /\ (length (upd_created_ids r) <= length steps)%nat
  /\ 0 <= steps_deleted r
  /\ (length steps - length (upd_created_ids r) <= length (upd_errors r))%nat.
Proof.
  destruct (decide (steps = [])) as [->|Hne]; [cbn; lia|].
  rewrite update_test_steps_nonempty by done.
  destruct (get_test_case _ _) as [tc st1].
  pose proof (delete_snapshot_nonneg issue_id project_id (snapshot_ids_of tc)
                st1) as Hdel.
  destruct (delete_snapshot _ _ _ _ _ st1) as [[d e] st2]. cbn [fst snd] in *.
  destruct (cleanup_leftovers_spec issue_id project_id d e st2)
    as (k & more & Hclean & _).
  destruct (cleanup_leftovers _ _ _ _ st2) as [r st3]. cbn [fst] in Hclean.
  subst r. cbn [fst snd].
  rewrite add_test_steps_nonempty by done.
  destruct (add_loop_spec (teststep_uri issue_id) project_id
              (Z.of_nat (length steps)) steps 0 [] [] st3)
    as (outs & evs & Hres & Hlen & _).
  destruct (add_loop _ _ _ _ _ _ _ st3) as [[created errs] st4].
  cbn [fst snd] in *. inversion Hres; subst created errs. cbn [app].
  cbn [upd_steps_created upd_created_ids steps_deleted upd_errors
       steps_created created_ids errors].
  pose proof (outcomes_length outs) as Hsum.
  rewrite !length_app. repeat split; lia.
Qed.

Lemma handle_existing_shapes
    (issue_id : string) (project_id cycle_id : Z) (e : exn) (st : state) :
  let r := (_handle_existing_execution issue_id project_id cycle_id e st).1 in
  (created r = false /\ error r = None /\ raw r = None
   /\ exists i, execution_id r = Some i /\ i <> "")
  \/ (created r = false /\ execution_id r = None /\ raw r = None
      /\ is_Some (error r)).
Proof.
  unfold _handle_existing_execution.
  destruct (PyStr.contains _ _); [|right; cbn; eauto 6].
  unfold try_except, bind.
  destruct (_find_execution _ _ _ st) as [[[i|]|e1] st1];
    [|right; cbn; eauto 6..].
  destruct (PyStr.nonempty i) eqn:Hi; [|right; cbn; eauto 6].
  left. cbn. repeat split; try done.
  exists i. split; [done|]. intros ->. discriminate.
Qed.

(** X20: [add_test_to_cycle] raises nothing and its result has one of three
    shapes: created, with the raw response and no error; found, with a
    non-empty identifier, not created and no error; or failed, with an error
    text and neither identifier nor raw response. *)
Theorem add_test_to_cycle_result_shapes
    (issue_id : string) (project_id cycle_id : Z)
    (version_id folder_id : option Z) (st : state) :
  let r := (add_test_to_cycle issue_id project_id cycle_id version_id
              folder_id st).1 in
  (created r = true /\ error r = None /\ is_Some (raw r))
  \/ (created r = false /\ error r = None /\ raw r = None
      /\ exists i, execution_id r = Some i /\ i <> "")
  \/ (created r = false /\ execution_id r = None /\ raw r = None
      /\ is_Some (error r)).
Proof.
  unfold add_test_to_cycle, try_except, try_except_status.
  match goal with
  | |- context [match ?c st with _ => _ end] =>
      match type of c with
      | M ExecResult => destruct (c st) as [[r|e] st1] eqn:Hc
      end
  end.
  - left. cbn [fst]. revert Hc. unfold bind, lift, ret.
    destruct (execution_body _ _ _ _ _); [|discriminate].
    destruct (_make_request _ _ _ _ st) as [[data|e] st2]; [|discriminate].
    destruct (or_else _ _); [|discriminate].
    intros Hc. inversion Hc; subst. cbn. eauto.
  - destruct e as [m|c t m|c d|m]; try solve [right; right; cbn; eauto 6].
    pose proof (handle_existing_shapes issue_id project_id cycle_id
                  (HTTPStatusError c t m) st1) as Hshape.
    destruct (_handle_existing_execution _ _ _ _ st1) as [r st2].
    right. exact Hshape.
Qed.

(** X21: when the creation request fails with an HTTP error whose text
    does not contain "already exist", nothing is looked up: the state is
    the one the failed request left, and the result is the failure with
    the first 500 characters of the response text as its error. *)
Theorem add_test_to_cycle_other_http_error
    (issue_id : string) (project_id cycle_id : Z)
    (version_id folder_id : option Z) (body : json)
    (status : Z) (text msg : string) (st st1 : state) :
  execution_body issue_id project_id cycle_id version_id folder_id
  = Return body ->
  _make_request "POST" "/public/rest/api/1.0/execution"
    ("issueId=" +:+ issue_id +:+ "&projectId=" +:+ PyStr.of_Z project_id)
    (Some body) st
  = (Raise (HTTPStatusError status text msg), st1) ->
  PyStr.contains "already exist" (PyStr.lower text) = false ->
  add_test_to_cycle issue_id project_id cycle_id version_id folder_id st
  = (mkExecResult None false None (Some (PyStr.take 500 text)), st1).
Proof.
  intros Hbody Hpost Htext.
  unfold add_test_to_cycle, try_except, try_except_status.
  unfold bind at 1. unfold lift. rewrite Hbody.
  unfold bind at 1. rewrite Hpost.
  unfold _handle_existing_execution. rewrite Htext. reflexivity.
Qed.

(** X22: when the creation request fails with "already exist" but the
    lookup finds no execution, or itself ends in an exception, the result
    is the failure carrying the text of the creation error; the exception
    of the lookup is not passed on. *)
Theorem add_test_to_cycle_conflict_not_found
    (issue_id : string) (project_id cycle_id : Z)
    (version_id folder_id : option Z) (body : json)
    (status : Z) (text msg : string) (looked_up : outcome (option string))
    (st st1 st2 : state) :
  execution_body issue_id project_id cycle_id version_id folder_id
  = Return body ->
  _make_request "POST" "/public/rest/api/1.0/execution"
    ("issueId=" +:+ issue_id +:+ "&projectId=" +:+ PyStr.of_Z project_id)
    (Some body) st
  = (Raise (HTTPStatusError status text msg), st1) ->
  PyStr.contains "already exist" (PyStr.lower text) = true ->
  _find_execution issue_id project_id (Some cycle_id) st1 = (looked_up, st2) ->
  (forall i, looked_up = Return (Some i) -> i = "") ->
  add_test_to_cycle issue_id project_id cycle_id version_id folder_id st
  = (mkExecResult None false None (Some (PyStr.take 500 text)), st2).
Proof.
  intros Hbody Hpost Htext Hfind Hnone.
  unfold add_test_to_cycle, try_except, try_except_status.
  unfold bind at 1. unfold lift. rewrite Hbody.
  unfold bind at 1. rewrite Hpost.
  unfold _handle_existing_execution. rewrite Htext.
  unfold try_except, bind. rewrite Hfind.
  destruct looked_up as [[i|]|e]; [|done..].
  by rewrite (Hnone i eq_refl).
Qed.

(** The item behind an identifier that the loop of [_find_execution]
    picks. *)
Lemma find_in_sound
    (items : list json) (cycle_id : Z) (found : string) :
  find_in items (Some cycle_id) = Return (Some found) ->
  exists item obj try_cycle exec_id,
    item ∈ items
    /\ or_else (get item "execution") (Return item) = Return obj
    /\ or_else (get obj "cycleId")
         (obind (get_or_empty obj "cycle") (fun c => get c "id"))
       = Return try_cycle
    /\ (try_cycle = JNull \/ try_cycle = JNum cycle_id
        \/ try_cycle = JStr (PyStr.of_Z cycle_id)
        \/ try_cycle = JBool true /\ cycle_id = 1
        \/ try_cycle = JBool false /\ cycle_id = 0)
    /\ or_else (get obj "id") (get obj "executionId") = Return exec_id
    /\ exec_id <> JNull
    /\ found = py_str exec_id.
Proof.
  induction items as [|item items IH]; intros Hfind; [discriminate|].
  cbn [find_in] in Hfind.
  destruct (or_else (get item "execution") (Return item)) as [obj|e] eqn:Hobj;
    [|discriminate].
  cbn [obind] in Hfind.
  destruct (or_else (get obj "cycleId") _) as [try_cycle|e] eqn:Hcycle;
    [|discriminate].
  cbn [obind] in Hfind.
  assert (forall rest, find_in items (Some cycle_id) = Return (Some found) ->
            rest = items ->
            exists item0 obj0 try_cycle0 exec_id0,
              item0 ∈ item :: rest
              /\ or_else (get item0 "execution") (Return item0) = Return obj0
              /\ or_else (get obj0 "cycleId")
                   (obind (get_or_empty obj0 "cycle") (fun c => get c "id"))
                 = Return try_cycle0
              /\ (try_cycle0 = JNull \/ try_cycle0 = JNum cycle_id
                  \/ try_cycle0 = JStr (PyStr.of_Z cycle_id)
                  \/ try_cycle0 = JBool true /\ cycle_id = 1
                  \/ try_cycle0 = JBool false /\ cycle_id = 0)
              /\ or_else (get obj0 "id") (get obj0 "executionId")
                 = Return exec_id0
              /\ exec_id0 <> JNull
              /\ found = py_str exec_id0) as Hrest.
  { intros rest Hf ->.
    destruct (IH Hf) as (i0 & o0 & t0 & x0 & Hin & Hrest).
    exists i0, o0, t0, x0. split; [by apply list_elem_of_further|done]. }
  destruct (cycle_differs try_cycle cycle_id) eqn:Hdiff;
    [by eapply Hrest|].
  destruct (or_else (get obj "id") (get obj "executionId")) as [exec_id|e]
    eqn:Hid; [|discriminate].
  cbn [obind] in Hfind.
  assert (exec_id <> JNull ->
          Return (Some (py_str exec_id)) = Return (Some found) ->
          exists item0 obj0 try_cycle0 exec_id0,
            item0 ∈ item :: items
            /\ or_else (get item0 "execution") (Return item0) = Return obj0
            /\ or_else (get obj0 "cycleId")
                 (obind (get_or_empty obj0 "cycle") (fun c => get c "id"))
               = Return try_cycle0
            /\ (try_cycle0 = JNull \/ try_cycle0 = JNum cycle_id
                \/ try_cycle0 = JStr (PyStr.of_Z cycle_id)
                \/ try_cycle0 = JBool true /\ cycle_id = 1
                \/ try_cycle0 = JBool false /\ cycle_id = 0)
            /\ or_else (get obj0 "id") (get obj0 "executionId")
               = Return exec_id0
            /\ exec_id0 <> JNull
            /\ found = py_str exec_id0) as Hhere.
  { intros Hnn Heq. inversion Heq; subst found.
    exists item, obj, try_cycle, exec_id.
    split; [apply list_elem_of_here|]. split; [done|]. split; [done|].
    split; [|done].
    unfold cycle_differs in Hdiff.
    destruct try_cycle as [|[|]|n|s| |]; cbv beta iota in Hdiff;
      try discriminate.
    - by left.
    - right; right; right; left. split; [done|].
      apply negb_false_iff, Z.eqb_eq in Hdiff. lia.
    - right; right; right; right. split; [done|].
      apply negb_false_iff, Z.eqb_eq in Hdiff. lia.
    - right; left. apply negb_false_iff, Z.eqb_eq in Hdiff. by subst.
    - right; right; left. apply negb_false_iff, String.eqb_eq in Hdiff.
      by subst. }
  destruct exec_id; first [by eapply Hrest | by apply Hhere].
Qed.

(** X23: the loop of [_find_execution] compares only the effective cycle
    of an item, the first truthy one of [cycleId] and [cycle.id].  An
    identifier it picks for a cycle belongs to a listed item whose
    effective cycle is [None] or equal to the cycle asked for (as a number,
    as its decimal text, or as the boolean equal to it), and whose
    identifier is not [None].  An item whose [cycleId] is present but falsy
    (0, the empty text) and whose [cycle.id] is [None] has the effective
    cycle [None]: standing first in the list, it is picked whatever cycle
    is asked for. *)
Theorem find_in_compares_effective_cycle (items : list json) (cycle_id : Z) :
  (forall found,
     find_in items (Some cycle_id) = Return (Some found) ->
     exists item obj try_cycle exec_id,
       item ∈ items
       /\ or_else (get item "execution") (Return item) = Return obj
       /\ or_else (get obj "cycleId")
            (obind (get_or_empty obj "cycle") (fun c => get c "id"))
          = Return try_cycle
       /\ (try_cycle = JNull \/ try_cycle = JNum cycle_id
           \/ try_cycle = JStr (PyStr.of_Z cycle_id)
           \/ try_cycle = JBool true /\ cycle_id = 1
           \/ try_cycle = JBool false /\ cycle_id = 0)
       /\ or_else (get obj "id") (get obj "executionId") = Return exec_id
       /\ exec_id <> JNull
       /\ found = py_str exec_id)
  /\ (forall item obj raw_cycle exec_id,
        or_else (get item "execution") (Return item) = Return obj ->
        get obj "cycleId" = Return raw_cycle ->
        truthy raw_cycle = false ->
        obind (get_or_empty obj "cycle") (fun c => get c "id") = Return JNull ->
        or_else (get obj "id") (get obj "executionId") = Return exec_id ->
        exec_id <> JNull ->
        find_in (item :: items) (Some cycle_id)
        = Return (Some (py_str exec_id))).
Proof.
  split; [intros found; apply find_in_sound|].
  intros item obj raw_cycle exec_id Hobj Hraw Hfalsy Hcycle Hid Hsome.
  cbn [find_in]. rewrite Hobj. cbn [obind].
  unfold or_else at 1. rewrite Hraw, Hfalsy, Hcycle. cbn [obind cycle_differs].
  rewrite Hid. cbn [obind]. by destruct exec_id.
Qed.

End Facts.

Lemma add_test_to_cycle_other_http_error_witness :
  exists st1,
    @add_test_to_cycle Busy.busy_env "42" 7 3 None None
      (@mkState Busy.busy_env [] ∅ [] 0%nat)
    = (mkExecResult None false None (Some "busy"), st1).
Proof.
  set (st := @mkState Busy.busy_env [] ∅ [] 0%nat).
  set (body := JObj [("issueId", JNum 42); ("projectId", JNum 7);
                     ("versionId", JNull); ("cycleId", JNum 3)]).
  set (posted := @_make_request Busy.busy_env "POST"
                   "/public/rest/api/1.0/execution"
                   "issueId=42&projectId=7" (Some body) st).
  exists posted.2.
  apply (@add_test_to_cycle_other_http_error Busy.busy_env "42" 7 3 None None
           body 503 "busy" "Server error '503'" st posted.2).
  - vm_compute. reflexivity.
  - apply injective_projections; [vm_compute; reflexivity | reflexivity].
  - vm_compute. reflexivity.
Defined.

(** The remote system answers the creation with "already exists", and the
    only execution it lists belongs to cycle 3, not to cycle 5. *)
Lemma add_test_to_cycle_conflict_not_found_witness :
  exists st2,
    @add_test_to_cycle Mock.mock_env "42" 7 5 (Some 10000) None
      (Mock.start (Mock.mkWorld [] [] 0 1) [])
    = (mkExecResult None false None
         (Some "Execution Already Exists for this cycle"), st2).
Proof.
  set (st := Mock.start (Mock.mkWorld [] [] 0 1) []).
  set (body := JObj [("issueId", JNum 42); ("projectId", JNum 7);
                     ("versionId", JNum 10000); ("cycleId", JNum 5)]).
  set (posted := @_make_request Mock.mock_env "POST"
                   "/public/rest/api/1.0/execution"
                   "issueId=42&projectId=7" (Some body) st).
  set (found := @_find_execution Mock.mock_env "42" 7 (Some 5) posted.2).
  exists found.2.
  apply (@add_test_to_cycle_conflict_not_found Mock.mock_env "42" 7 5
           (Some 10000) None body 400
           "Execution Already Exists for this cycle"
           "Client error '400 Bad Request'" (Return None)
           st posted.2 found.2).
  - vm_compute. reflexivity.
  - apply injective_projections; [vm_compute; reflexivity | reflexivity].
  - vm_compute. reflexivity.
  - apply injective_projections; [vm_compute; reflexivity | reflexivity].
  - discriminate.
Defined.

Section FindWitness.
#[local] Existing Instance Mock.mock_builtins.

Lemma find_in_compares_effective_cycle_witness :
  exists item obj try_cycle exec_id,
    item ∈ [JObj [("id", JStr "e1"); ("cycleId", JNum 5)];
            JObj [("id", JStr "e2"); ("cycleId", JStr "3")]]
    /\ or_else (get item "execution") (Return item) = Return obj
    /\ or_else (get obj "cycleId")
         (obind (get_or_empty obj "cycle") (fun c => get c "id"))
       = Return try_cycle
    /\ (try_cycle = JNull \/ try_cycle = JNum 3
        \/ try_cycle = JStr (PyStr.of_Z 3)
        \/ try_cycle = JBool true /\ 3 = 1
        \/ try_cycle = JBool false /\ 3 = 0)
    /\ or_else (get obj "id") (get obj "executionId") = Return exec_id
    /\ exec_id <> JNull
    /\ "e2" = @py_str Mock.mock_builtins exec_id.
Proof.
  destruct (@find_in_compares_effective_cycle Mock.mock_env
              [JObj [("id", JStr "e1"); ("cycleId", JNum 5)];
               JObj [("id", JStr "e2"); ("cycleId", JStr "3")]] 3)
    as [Hsound _].
  apply Hsound. vm_compute. reflexivity.
Defined.

(** An execution of cycle 0 is picked for cycle 3: its [cycleId] is falsy,
    so its effective cycle is [None]. *)
Example find_in_falsy_cycle :
  @find_in Mock.mock_env [JObj [("id", JStr "e1"); ("cycleId", JNum 0)]]
    (Some 3)
  = Return (Some "e1").
Proof. vm_compute. reflexivity. Qed.

End FindWitness.

End ZephyrResultFacts.

(* ================================================================== *)
(** * Creating an execution and setting its status *)

Module ZephyrExecFacts.
Import Json Zephyr ZephyrTrace ZephyrExec.

Section Facts.
Context `{Env}.

Lemma execute_test_run project_id issue_id execution_id status_id cycle_id
      version_id st :
  let r := execute_request project_id issue_id execution_id status_id
             cycle_id version_id in
  let put := _make_request (req_method r) (req_uri r) (req_query r)
               (req_json r) st in
  execute_test project_id issue_id execution_id status_id cycle_id
    version_id st
  = (match put.1 with
     | Return _ => Return tt
     | Raise e => Raise e
     end, put.2)
  /\ exists k,
       (k <= 2)%nat /\ trace put.2 = trace st ++ retry_events r 1 k.
Proof.
  intros r put. split.
  - unfold execute_test, bind, ret. fold r. fold put.
    by destruct put as [[d|e] st1].
  - destruct (ZephyrTraceFacts.make_request_shape (req_method r) (req_uri r)
                (req_query r) (req_json r) st eq_refl)
      as (k & Hk & Htrace & _).
    by exists k.
Qed.

(** X24: without a status, or when [add_test_to_cycle] gave no usable
    execution identifier, [create_execution_and_optionally_execute] sends
    nothing more: it returns in the state [add_test_to_cycle] left, with
    [status_updated] false, and the error text of a failed creation is
    not part of what it returns. *)
Theorem create_execution_without_status_update
    (issue_id : string) (project_id cycle_id : Z)
    (version_id status_id : option Z) (st : state) :
  let added := add_test_to_cycle issue_id project_id cycle_id version_id
                 None st in
  status_id = None \/ truthy_id (execution_id added.1) = None ->
  create_execution_and_optionally_execute issue_id project_id cycle_id
    version_id status_id st
  = (Return (mkCreateExecution (truthy_id (execution_id added.1))
               (created added.1) false), added.2).
Proof.
  intros added Hno. unfold create_execution_and_optionally_execute.
  unfold bind at 1. unfold await. fold added.
  destruct added as [res st1]. cbn [fst snd] in *.
  destruct Hno as [-> | ->]; [|reflexivity].
  by destruct (truthy_id (execution_id res)).
Qed.

Lemma create_execution_run
    (issue_id : string) (project_id cycle_id : Z)
    (version_id : option Z) (status_id : Z) (i : string) (st : state) :
  truthy_id (execution_id (add_test_to_cycle issue_id project_id cycle_id
                             version_id None st).1) = Some i ->
  create_execution_and_optionally_execute issue_id project_id cycle_id
    version_id (Some status_id) st
  = (let added := add_test_to_cycle issue_id project_id cycle_id version_id
                    None st in
     let ran := execute_test project_id (issue_number issue_id) i status_id
                  None None added.2 in
     (match ran.1 with
      | Return _ => Return (mkCreateExecution (Some i) (created added.1) true)
      | Raise e => Raise e
      end, ran.2)).
Proof.
  unfold create_execution_and_optionally_execute, bind, await, ret.
  destruct (add_test_to_cycle _ _ _ _ _ st) as [res st1].
  cbn [fst snd]. intros Hid. rewrite Hid.
  by destruct (execute_test _ _ _ _ _ _ st1) as [[u|e] st2].
Qed.

(** X25: with a status and an execution identifier, one PUT for that
    execution follows the work of [add_test_to_cycle], sent one to three
    times, for the issue number read from the text of [issue_id] and
    without cycle or version in its body.  When it fails, the exception is
    raised and the identifier of the execution is not returned; when it
    succeeds, [status_updated] is true. *)
Theorem create_execution_status_update
    (issue_id : string) (project_id cycle_id : Z)
    (version_id : option Z) (status_id : Z) (i : string) (st : state) :
  let added := add_test_to_cycle issue_id project_id cycle_id version_id
                 None st in
  let r := execute_request project_id (issue_number issue_id) i status_id
             None None in
  let put := _make_request "PUT" (req_uri r) (req_query r) (req_json r)
               added.2 in
  let out := create_execution_and_optionally_execute issue_id project_id
               cycle_id version_id (Some status_id) st in
  truthy_id (execution_id added.1) = Some i ->
  out.2 = put.2
  /\ out.1 = match put.1 with
             | Return _ =>
                 Return (mkCreateExecution (Some i) (created added.1) true)
             | Raise e => Raise e
             end
  /\ exists k,
       (k <= 2)%nat
       /\ trace out.2 = trace added.2 ++ retry_events r 1 k.
Proof.
  intros added r put out Hid. subst out.
  rewrite (create_execution_run _ _ _ _ _ i st Hid). fold added. cbv zeta.
  destruct (execute_test_run project_id (issue_number issue_id) i status_id
              None None added.2) as (Hrun & k & Hk & Htrace).
  fold r in Hrun, Htrace. change (req_method r) with "PUT" in Hrun, Htrace.
  fold put in Hrun, Htrace. rewrite Hrun. cbn [fst snd].
  split; [done|]. split; [by destruct put.1|]. by exists k.
Qed.

End Facts.

Lemma create_execution_without_status_update_witness :
  @create_execution_and_optionally_execute Busy.busy_env "42" 7 3 None
    (Some 1) (@mkState Busy.busy_env [] ∅ [] 0%nat)
  = (Return (mkCreateExecution None false false),
     (@add_test_to_cycle Busy.busy_env "42" 7 3 None None
        (@mkState Busy.busy_env [] ∅ [] 0%nat)).2).
Proof.
  apply (@create_execution_without_status_update Busy.busy_env "42" 7 3 None
           (Some 1) (@mkState Busy.busy_env [] ∅ [] 0%nat)).
  right. vm_compute. reflexivity.
Defined.

Lemma create_execution_status_update_witness :
  let st := Mock.start (Mock.mkWorld [] [] 0 1) [] in
  let out := @create_execution_and_optionally_execute Mock.mock_env "42" 7 3
               (Some 10000) (Some 1) st in
  out.1 = Return (mkCreateExecution (Some "exec-77") false true).
Proof.
  intros st out.
  destruct (@create_execution_status_update Mock.mock_env "42" 7 3
              (Some 10000) 1 "exec-77" st) as (_ & Hout & _).
  - vm_compute. reflexivity.
  - subst out. rewrite Hout. vm_compute. reflexivity.
Defined.

End ZephyrExecFacts.

(* ================================================================== *)
(** * The endpoints of app/routers/zephyr.py *)

Module ZephyrRouterFacts.
Import Json Zephyr ZephyrTrace ZephyrExec ZephyrRouter.

Section Facts.
Context `{Env}.

(** X26: the endpoint that fetches a test case never answers 404: the
    404 it raises for a missing test case is caught by its own handler,
    so every failure of the fetch, whatever its cause, is answered with
    500 and the same text. *)
Theorem get_test_case_route_never_404 (test_case_id : string) (st : state) :
  let fetched := Zephyr.get_test_case test_case_id st in
  let out := ZephyrRouter.get_test_case test_case_id st in
  out = (match fetched.1 with
         | Some tc => Return tc
         | None => Raise (HTTPException 500 "Failed to fetch test case")
         end, fetched.2)
  /\ forall detail, out.1 <> Raise (HTTPException 404 detail).
Proof.
  intros fetched out.
  assert (out = (match fetched.1 with
                 | Some tc => Return tc
                 | None => Raise (HTTPException 500 "Failed to fetch test case")
                 end, fetched.2)) as Hout.
  { subst out fetched.
    unfold ZephyrRouter.get_test_case, try_reraise, bind, await, lift, ret.
    by destruct (Zephyr.get_test_case test_case_id st) as [[tc|] st1]. }
  split; [exact Hout|].
  intros detail. rewrite Hout. cbn [fst].
  by destruct fetched.1.
Qed.

(** X27: the endpoint that replaces the steps raises nothing and always
    answers with [success] true.  With at least one step it answers
    "updated", with [steps] as the updated field, in the state that
    [update_test_steps] left: nothing of the result of [update_test_steps],
    its errors included, reaches the answer. *)
Theorem update_test_case_always_success
    (issue_id : string) (payload : UpdateZephyrTestCaseRequest) (st : state) :
  let out := update_test_case issue_id payload st in
  exists reply,
    out.1 = Return reply
    /\ success reply = true
    /\ forall s rest,
         req_steps payload = Some (s :: rest) ->
         reply = mkUpdateReply true "Test case updated successfully"
                   (Some ["steps"])
         /\ out.2 = (update_test_steps issue_id PROJECT_ID
                       (model_dump <$> s :: rest) st).2.
Proof.
  intros out. subst out.
  unfold update_test_case, try_reraise, bind, await, ret.
  destruct (req_steps payload) as [[|s rest]|] eqn:Hsteps.
  - eexists. cbn [fst snd]. split; [reflexivity|]. split; [reflexivity|].
    intros ? ? [=].
  - destruct (update_test_steps _ _ _ st) as [res st1] eqn:Hupdate.
    eexists. cbn [fst snd]. split; [reflexivity|]. split; [reflexivity|].
    intros s' rest' [= <- <-]. by rewrite Hupdate.
  - destruct (req_expected_result payload);
      (eexists; cbn [fst snd]; split; [reflexivity|]; split; [reflexivity|];
       intros ? ? [=]).
Qed.

(** X28: [expected_result] is read only to decide whether there is
    something to update.  A payload that has no step but is not empty is
    answered "updated successfully" with no updated field, and nothing is
    sent: the state is the one before. *)
Theorem update_test_case_expected_result_not_applied
    (issue_id : string) (payload : UpdateZephyrTestCaseRequest) (st : state) :
  req_steps payload = None \/ req_steps payload = Some [] ->
  req_steps payload <> None \/ req_expected_result payload <> None ->
  update_test_case issue_id payload st
  = (Return (mkUpdateReply true "Test case updated successfully" (Some [])),
     st).
Proof.
  intros Hnone Hsome.
  unfold update_test_case, try_reraise, bind, await, ret.
  destruct Hnone as [Hs|Hs]; rewrite Hs in *; [|done].
  destruct (req_expected_result payload); [done|].
  by destruct Hsome.
Qed.

(** X29: the endpoint that sets a status needs [status_id]: a body with a
    status name only is answered 400 and nothing is sent.  With a
    [status_id] it sends the PUT of [execute_test] for the configured
    project, one to three times; on success the reply gives the inputs
    back, with the status name of the body, or "<by-id>" when the body has
    none or an empty one; an [HTTPException] of that call passes through,
    and any other exception becomes a 502 that quotes it. *)
Theorem execute_test_route_outcomes
    (execution_id : string) (issue_id : Z) (body : ExecuteBody) (st : state) :
  let out := execute_test_route execution_id issue_id body st in
  match eb_status_id body with
  | None =>
      out = (Raise (HTTPException 400 "'status_id' must be provided."), st)
  | Some status_id =>
      let r := execute_request PROJECT_ID issue_id execution_id status_id
                 (eb_cycle_id body) (eb_version_id body) in
      let put := _make_request "PUT" (req_uri r) (req_query r) (req_json r)
                   st in
      out.2 = put.2
      /\ (exists k,
            (k <= 2)%nat /\ trace out.2 = trace st ++ retry_events r 1 k)
      /\ match put.1 with
         | Return _ =>
             exists name,
               out.1 = Return (mkExecuteReply true execution_id issue_id name
                                 status_id (eb_cycle_id body)
                                 (eb_version_id body))
               /\ (forall s, eb_status body = Some s -> s <> "" -> name = s)
               /\ (eb_status body = None \/ eb_status body = Some "" ->
                   name = "<by-id>")
         | Raise (HTTPException code detail) =>
             out.1 = Raise (HTTPException code detail)
         | Raise e =>
             out.1 = Raise (HTTPException 502
                              ("Failed to execute test: " +:+ exn_str e))
         end
  end.
Proof.
  intros out. subst out. unfold execute_test_route.
  destruct (eb_status_id body) as [status_id|]; [|reflexivity].
  set (r := execute_request PROJECT_ID issue_id execution_id status_id
              (eb_cycle_id body) (eb_version_id body)).
  set (put := _make_request "PUT" (req_uri r) (req_query r) (req_json r) st).
  destruct (ZephyrExecFacts.execute_test_run PROJECT_ID issue_id execution_id
              status_id (eb_cycle_id body) (eb_version_id body) st)
    as (Hrun & k & Hk & Htrace).
  fold r in Hrun, Htrace. change (req_method r) with "PUT" in Hrun, Htrace.
  fold put in Hrun, Htrace.
  unfold try_reraise, bind, ret. rewrite Hrun.
  destruct put as [[d|e] st1]; cbn [fst snd] in *.
  - split; [done|]. split; [by exists k|].
    eexists. split; [reflexivity|]. split.
    + intros s -> Hs. by destruct s.
    + by intros [-> | ->].
  - split; [done|]. split; [by exists k|]. by destruct e.
Qed.

End Facts.

Lemma update_test_case_expected_result_not_applied_witness :
  @update_test_case Mock.mock_env "10001"
    (mkUpdateRequest None (Some "the page opens"))
    (Mock.start Mock.flaky [])
  = (Return (mkUpdateReply true "Test case updated successfully" (Some [])),
     Mock.start Mock.flaky []).
Proof.
  apply (@update_test_case_expected_result_not_applied Mock.mock_env "10001"
           (mkUpdateRequest None (Some "the page opens"))
           (Mock.start Mock.flaky [])).
  - left. reflexivity.
  - right. discriminate.
Defined.

End ZephyrRouterFacts.

(* ================================================================== *)
(** * The work on one item of a bulk request *)

Module FullCreateFacts.
Import Json Zephyr ZephyrExec FullCreate.

Section Facts.
Context `{Env}.
Variable create_test_issue : Bulk.FullCreateBody -> M (Z * string).

(** [both] is [gather] on the two tasks. *)
Lemma both_gather {A B : Type} (a : task A) (b : task B) (st : state) :
  gather [(fun s => let '(x, s') := a s in (inl x, s'));
          (fun s => let '(y, s') := b s in (inr y, s'))] st
  = let '(r, st') := both a b st in ([inl r.1; inr r.2], st').
Proof.
  unfold gather, both. cbn [length gather_loop].
  unfold tbind, tret, next_choice. cbn [length].
  destruct (Nat.eqb_spec (hd 0%nat (schedule st) `mod` 2) 0) as [Heq|Hne].
  - rewrite Heq. cbn [lookup list_lookup delete list_delete take drop app fst snd].
    destruct (a _) as [x st1]. cbn [schedule trace issue_locks remote].
    rewrite Nat.mod_1_r. cbn [lookup list_lookup delete list_delete take drop app fst snd].
    destruct (b _) as [y st2].
    by cbn [lookup list_lookup delete list_delete take drop app fst snd].
  - assert (hd 0%nat (schedule st) `mod` 2 = 1)%nat as Heq.
    { pose proof (Nat.mod_upper_bound (hd 0%nat (schedule st)) 2). lia. }
    rewrite Heq. cbn [lookup list_lookup delete list_delete take drop app fst snd].
    destruct (b _) as [y st1]. cbn [schedule trace issue_locks remote].
    rewrite Nat.mod_1_r. cbn [lookup list_lookup delete list_delete take drop app fst snd].
    destruct (a _) as [x st2].
    by cbn [lookup list_lookup delete list_delete take drop app fst snd].
Qed.

(** X30: an item whose execution status has no usable [id] (a status
    given by name, say) fails after everything else was done: when the
    issue is created and an execution is obtained, reading the status
    identifier raises, [_full_create_one] raises that exception in the
    state the creations left, and the bulk endpoint records the item as
    failed. *)
Theorem full_create_status_without_id
    (body : Bulk.FullCreateBody) (n : Z) (key i : string) (status : json)
    (e : exn) (idx : Z) (st st1 st2 : state) :
  create_test_issue body st = (Return (n, key), st1) ->
  steps_and_cycle body (PyStr.of_Z n) st1 = (Some i, st2) ->
  i <> "" ->
  Bulk.execution_status body = Some status ->
  truthy status = true ->
  obind (get status "id") py_int = Raise e ->
  _full_create_one create_test_issue body st = (Raise e, st2)
  /\ exists r,
       Bulk.run_one (_full_create_one create_test_issue) idx body st
       = (r, st2)
       /\ Bulk.success r = false /\ Bulk.result r = None.
Proof.
  intros Hcreate Hzephyr Hi Hstatus Htruthy Hid.
  assert (_full_create_one create_test_issue body st = (Raise e, st2)) as Hone.
  { unfold _full_create_one. unfold bind at 1. rewrite Hcreate.
    cbn [fst snd]. unfold bind at 1. unfold await. rewrite Hzephyr.
    assert (truthy_id (Some i) = Some i) as ->.
    { unfold truthy_id. by destruct i. }
    rewrite Hstatus, Htruthy. unfold bind, lift.
    destruct (get status "id") as [v|e0]; cbn [obind] in Hid.
    - by rewrite Hid.
    - by inversion Hid. }
  split; [exact Hone|].
  unfold Bulk.run_one. rewrite Hone.
  destruct e; eexists; (split; [reflexivity|]); done.
Qed.

End Facts.

Lemma full_create_status_without_id_witness :
  exists st2,
    @_full_create_one Mock.mock_env mock_create by_name
      (Mock.start (Mock.mkWorld [] [] 0 1) [])
    = (Raise (OtherException "int() argument is not a number"), st2).
Proof.
  set (st := Mock.start (Mock.mkWorld [] [] 0 1) []).
  set (done := @steps_and_cycle Mock.mock_env by_name "10001" st).
  exists done.2.
  destruct (@full_create_status_without_id Mock.mock_env mock_create by_name
              10001 "SE2-1" "exec-77" (JObj [("name", JStr "PASS")])
              (OtherException "int() argument is not a number") 0
              st st done.2) as [Hone _].
  - reflexivity.
  - apply injective_projections; [vm_compute; reflexivity | reflexivity].
  - discriminate.
  - reflexivity.
  - reflexivity.
  - vm_compute. reflexivity.
  - exact Hone.
Defined.

End FullCreateFacts.

(* ================================================================== *)
(** * The step replacement after its first phase *)

Module ZephyrReplaceFacts.
Import Json Zephyr ZephyrTrace ZephyrInv ZephyrReplace ZephyrFacts.

Section Facts.
Context `{Env}.

Lemma get_test_case_fetches issue_id st :
  exists k,
    trace (get_test_case issue_id st).2
    = trace st ++ retry_events (fetch_request issue_id) 1 k.
Proof.
  rewrite ZephyrInvFacts.get_test_case_state.
  destruct (ZephyrTraceFacts.make_request_shape "GET" (teststep_uri issue_id)
              (project_query PROJECT_ID) None st eq_refl)
    as (k & _ & Htrace & _).
  by exists k.
Qed.

Lemma delete_test_step_sends issue_id project_id step_id st :
  exists k,
    trace (delete_test_step issue_id project_id step_id st).2
    = trace st ++ retry_events (delete_request issue_id project_id step_id) 1 k.
Proof.
  rewrite ZephyrInvFacts.delete_test_step_state.
  destruct (ZephyrTraceFacts.make_request_shape "DELETE"
              ("/public/rest/api/1.0/teststep/" +:+ issue_id +:+ "/"
               +:+ step_id) (project_query project_id) None st eq_refl)
    as (k & _ & Htrace & _).
  by exists k.
Qed.

Lemma deleted_among_cons o outs :
  deleted_among (o :: outs)
  = (deleted_among [o] + deleted_among outs)%nat.
Proof.
  unfold deleted_among. destruct o as [msg|].
  - by rewrite !filter_cons_False by done.
  - by rewrite !filter_cons_True by done.
Qed.

(** One round of the loop over the leftovers. *)
Lemma leftover_step issue_id project_id sid deleted_count errors st :
  let deleted := delete_test_step issue_id project_id sid st in
  let out := leftover_outcome sid deleted.1 in
  try_except
    (bind (delete_test_step issue_id project_id sid) (fun ok : bool =>
     if ok then ret (deleted_count + 1, errors)
     else ret (deleted_count,
               errors ++ ["Failed to delete leftover step " +:+ sid])))
    (fun e =>
       tret (deleted_count,
             errors ++ ["Exception deleting leftover step " +:+ sid
                        +:+ ": " +:+ PyStr.take 200 (exn_str e)])) st
  = ((deleted_count + Z.of_nat (deleted_among [out]),
      errors ++ errors_among [out]), deleted.2).
Proof.
  intros deleted out. subst out deleted.
  unfold try_except, bind, ret, tret.
  destruct (delete_test_step issue_id project_id sid st) as [[[|]|e] st1];
    cbn [fst snd leftover_outcome errors_among option_bind mbind option_ret].
  - unfold deleted_among. rewrite filter_cons_True by done. by rewrite app_nil_r.
  - unfold deleted_among. rewrite filter_cons_False by done.
    cbn. by rewrite Z.add_0_r.
  - unfold deleted_among. rewrite filter_cons_False by done.
    cbn. by rewrite Z.add_0_r.
Qed.

(** The loop over the leftovers: one outcome per leftover step, and the
    DELETE of every leftover step is sent. *)
Lemma delete_leftovers_run issue_id project_id leftovers :
  forall deleted_count errors st,
  exists outs evs,
    let run := delete_leftovers issue_id project_id leftovers deleted_count
                 errors st in
    run.1 = (deleted_count + Z.of_nat (deleted_among outs),
             errors ++ errors_among outs)
    /\ length outs = length leftovers
    /\ (forall j sid, leftovers !! j = Some sid ->
          exists s,
            outs !! j
            = Some (leftover_outcome sid
                      (delete_test_step issue_id project_id sid s).1))
    /\ trace run.2 = trace st ++ evs
    /\ (forall sid, sid ∈ leftovers ->
          delete_request issue_id project_id sid ∈ requests_of evs)
    /\ (forall r, r ∈ requests_of evs ->
          exists sid,
            sid ∈ leftovers /\ r = delete_request issue_id project_id sid).
Proof.
  induction leftovers as [|sid rest IH]; intros deleted_count errors st.
  - exists [], []. cbn. rewrite Z.add_0_r, !app_nil_r.
    repeat split; try done.
    + intros sid Hin. by apply elem_of_nil in Hin.
    + intros r Hin. by apply elem_of_nil in Hin.
  - cbn [delete_leftovers]. unfold tbind.
    rewrite leftover_step. cbv zeta.
    destruct (delete_test_step_sends issue_id project_id sid st)
      as (k & Hsent).
    set (deleted := delete_test_step issue_id project_id sid st) in *.
    set (out := leftover_outcome sid deleted.1).
    cbn [fst snd].
    destruct (IH (deleted_count + Z.of_nat (deleted_among [out]))
                 (errors ++ errors_among [out]) deleted.2)
      as (outs & evs & Hres & Hlen & Houts & Htrace & Hall & Honly).
    cbv zeta in *.
    exists (out :: outs),
      (retry_events (delete_request issue_id project_id sid) 1 k ++ evs).
    split; [|split; [|split; [|split; [|split]]]].
    + rewrite Hres, (deleted_among_cons out outs).
      assert (errors_among (out :: outs)
              = errors_among [out] ++ errors_among outs) as ->
        by (unfold errors_among; by destruct out).
      rewrite <- app_assoc. f_equal. lia.
    + cbn [length]. by rewrite Hlen.
    + intros [|j] sid' Hj.
      * inversion Hj; subst sid'. by exists st.
      * apply (Houts j sid' Hj).
    + rewrite Htrace, Hsent, <- app_assoc. done.
    + intros sid' Hin. rewrite requests_of_app.
      apply elem_of_cons in Hin as [->|Hin].
      * apply elem_of_app. left.
        rewrite ZephyrInvFacts.requests_of_retry_events. apply list_elem_of_here.
      * apply elem_of_app. right. by apply Hall.
    + intros r Hin. rewrite requests_of_app in Hin.
      apply elem_of_app in Hin as [Hin|Hin].
      * rewrite ZephyrInvFacts.requests_of_retry_events in Hin.
        apply elem_of_replicate in Hin as [-> _].
        exists sid. split; [apply list_elem_of_here|done].
      * destruct (Honly r Hin) as (sid' & Hsid & ->).
        exists sid'. split; [by apply list_elem_of_further|done].
Qed.

(** What [add_test_steps] sends. *)
Lemma add_test_steps_sends issue_id project_id steps st :
  exists evs,
    trace (add_test_steps issue_id project_id steps st).2 = trace st ++ evs
    /\ (forall r, r ∈ requests_of evs ->
          exists j step,
            steps !! j = Some step
            /\ r = step_request (teststep_uri issue_id) project_id step
                     (bool_decide (S j = length steps)))
    /\ (forall j step,
          steps !! j = Some step ->
          PyStr.nonempty
            (p_step (make_payload step (bool_decide (S j = length steps))))
          = true ->
          step_request (teststep_uri issue_id) project_id step
            (bool_decide (S j = length steps)) ∈ requests_of evs).
Proof.
  destruct (decide (steps = [])) as [->|Hsteps].
  { exists []. cbn. rewrite app_nil_r. split; [done|].
    split; [intros r Hr; by apply elem_of_nil in Hr | done]. }
  rewrite add_test_steps_nonempty by done.
  destruct (add_loop_spec (teststep_uri issue_id) project_id
              (Z.of_nat (length steps)) steps 0 [] [] st)
    as (outs & evs & _ & _ & Htr & _ & Hin & Hout).
  destruct (add_loop _ _ _ _ _ _ _ st) as [res st1]. cbn [snd] in *.
  exists evs. split; [exact Htr|]. split.
  - intros r Hr. destruct (Hin r Hr) as (j & step & Hj & _ & ->).
    exists j, step. split; [done|]. by rewrite is_last_index.
  - intros j step Hj Htext. rewrite <- is_last_index.
    apply Hout; [done|]. by rewrite is_last_index.
Qed.

(** Phase 3 of [update_test_steps], from the state [st2] in which phase 2
    ended with [deleted_count] and [errors]: the second fetch, one deletion
    for every step it reports, the last fetch and its warning. *)
Lemma cleanup_leftovers_run issue_id project_id deleted_count errors st2 :
  let post := get_test_case issue_id st2 in
  let leftovers := present_ids_of post.1 in
  exists k outs evs_delete st_deleted evs_confirm st3 warning,
    trace post.2 = trace st2 ++ retry_events (fetch_request issue_id) 1 k
    /\ length outs = length leftovers
    /\ (forall j sid, leftovers !! j = Some sid ->
          exists s,
            outs !! j
            = Some (leftover_outcome sid
                      (delete_test_step issue_id project_id sid s).1))
    /\ trace st_deleted = trace post.2 ++ evs_delete
    /\ (forall sid, sid ∈ leftovers ->
          delete_request issue_id project_id sid ∈ requests_of evs_delete)
    /\ (forall r, r ∈ requests_of evs_delete ->
          exists sid,
            sid ∈ leftovers /\ r = delete_request issue_id project_id sid)
    /\ trace st3 = trace st_deleted ++ evs_confirm
    /\ (leftovers = [] ->
        st3 = post.2 /\ evs_delete = [] /\ evs_confirm = [] /\ warning = [])
    /\ (leftovers <> [] ->
        st3 = (get_test_case issue_id st_deleted).2
        /\ (exists k', evs_confirm = retry_events (fetch_request issue_id) 1 k')
        /\ warning
           = still_present_warning issue_id
               (present_ids_of (get_test_case issue_id st_deleted).1))
    /\ cleanup_leftovers issue_id project_id deleted_count errors st2
       = ((deleted_count + Z.of_nat (deleted_among outs),
           errors ++ errors_among outs ++ warning), st3).
Proof.
  intros post leftovers.
  destruct (get_test_case_fetches issue_id st2) as (k & Hfetch).
  fold post in Hfetch.
  unfold cleanup_leftovers, tbind, tret. fold post.
  destruct post as [post_case st_post] eqn:Hpost.
  cbn [fst snd] in *. subst leftovers. cbn [fst].
  destruct (present_ids_of post_case) as [|sid rest] eqn:Hleft.
  - exists k, [], [], st_post, [], st_post, [].
    split; [done|]. split; [done|].
    split; [intros j sid' Hj; by rewrite lookup_nil in Hj|].
    split; [by rewrite app_nil_r|].
    split; [intros sid' Hin; by apply elem_of_nil in Hin|].
    split; [intros r Hin; by apply elem_of_nil in Hin|].
    split; [by rewrite app_nil_r|]. split; [done|]. split; [done|].
    cbn. by rewrite Z.add_0_r, app_nil_r.
  - destruct (delete_leftovers_run issue_id project_id (sid :: rest)
                deleted_count errors st_post)
      as (outs & evs_delete & Hres & Hlen & Houts & Htrace & Hsent & Honly).
    cbv zeta in *.
    destruct (delete_leftovers _ _ _ _ _ st_post) as [r st_deleted].
    cbn [fst snd] in *. subst r. cbn [fst snd].
    destruct (get_test_case_fetches issue_id st_deleted) as (k' & Hlast).
    destruct (get_test_case issue_id st_deleted) as [confirm st3] eqn:Hconfirm.
    cbn [snd] in Hlast.
    exists k, outs, evs_delete, st_deleted,
      (retry_events (fetch_request issue_id) 1 k'), st3,
      (still_present_warning issue_id (present_ids_of confirm)).
    split; [done|]. split; [done|]. split; [exact Houts|].
    split; [exact Htrace|]. split; [exact Hsent|]. split; [exact Honly|].
    split; [exact Hlast|]. split; [done|].
    split; [intros _; rewrite Hconfirm; eauto|].
    unfold still_present_warning.
    destruct (present_ids_of confirm) as [|s0 still].
    + by rewrite app_nil_r.
    + by rewrite <- app_assoc.
Qed.

(** Phases 3 and 4 of [update_test_steps]: after phase 3 the new steps
    are created, and the result is put together. *)
Lemma verification_and_creation issue_id project_id steps deleted_count
      errors st2 :
  let post := get_test_case issue_id st2 in
  let leftovers := present_ids_of post.1 in
  let run := tbind (cleanup_leftovers issue_id project_id deleted_count errors)
               (fun r => recreate issue_id project_id steps r.1 r.2) st2 in
  exists k outs evs_delete st_deleted evs_confirm st3 warning evs_add,
    trace post.2 = trace st2 ++ retry_events (fetch_request issue_id) 1 k
    /\ length outs = length leftovers
    /\ (forall j sid, leftovers !! j = Some sid ->
          exists s,
            outs !! j
            = Some (leftover_outcome sid
                      (delete_test_step issue_id project_id sid s).1))
    /\ trace st_deleted = trace post.2 ++ evs_delete
    /\ (forall sid, sid ∈ leftovers ->
          delete_request issue_id project_id sid ∈ requests_of evs_delete)
    /\ (forall r, r ∈ requests_of evs_delete ->
          exists sid,
            sid ∈ leftovers /\ r = delete_request issue_id project_id sid)
    /\ trace st3 = trace st_deleted ++ evs_confirm
    /\ (leftovers = [] ->
        st3 = post.2 /\ evs_delete = [] /\ evs_confirm = [] /\ warning = [])
    /\ (leftovers <> [] ->
        st3 = (get_test_case issue_id st_deleted).2
        /\ (exists k', evs_confirm = retry_events (fetch_request issue_id) 1 k')
        /\ warning
           = still_present_warning issue_id
               (present_ids_of (get_test_case issue_id st_deleted).1))
    /\ trace run.2 = trace st3 ++ evs_add
    /\ (forall r, r ∈ requests_of evs_add ->
          exists j step,
            steps !! j = Some step
            /\ r = step_request (teststep_uri issue_id) project_id step
                     (bool_decide (S j = length steps)))
    /\ (forall j step,
          steps !! j = Some step ->
          PyStr.nonempty
            (p_step (make_payload step (bool_decide (S j = length steps))))
          = true ->
          step_request (teststep_uri issue_id) project_id step
            (bool_decide (S j = length steps)) ∈ requests_of evs_add)
    /\ run = (let added := add_test_steps issue_id project_id steps st3 in
              (mkUpdateResult
                 (deleted_count + Z.of_nat (deleted_among outs))
                 (steps_created added.1) (created_ids added.1)
                 (errors ++ errors_among outs ++ warning
                  ++ Zephyr.errors added.1),
               added.2)).
Proof.
  intros post leftovers run.
  destruct (cleanup_leftovers_run issue_id project_id deleted_count errors st2)
    as (k & outs & evs_delete & st_deleted & evs_confirm & st3 & warning
        & Hfetch & Hlen & Houts & Htrace & Hsent & Honly & Hlast & Hnone
        & Hsome & Hclean).
  fold post in Hfetch, Htrace, Hnone, Hsome, Houts, Hlen, Hsent, Honly.
  fold leftovers in Hlen, Houts, Hsent, Honly, Hnone, Hsome.
  destruct (add_test_steps_sends issue_id project_id steps st3)
    as (evs_add & Hadd & Hadd_only & Hadd_all).
  assert (run = (let added := add_test_steps issue_id project_id steps st3 in
                 (mkUpdateResult
                    (deleted_count + Z.of_nat (deleted_among outs))
                    (steps_created added.1) (created_ids added.1)
                    (errors ++ errors_among outs ++ warning
                     ++ Zephyr.errors added.1),
                  added.2))) as Hrun.
  { subst run. unfold tbind. rewrite Hclean. cbn [fst snd].
    unfold recreate, tbind, tret.
    destruct (add_test_steps _ _ _ st3) as [a st4]. cbn [fst snd].
    by rewrite <- !app_assoc. }
  exists k, outs, evs_delete, st_deleted, evs_confirm, st3, warning, evs_add.
  split; [done|]. split; [done|]. split; [done|]. split; [done|].
  split; [done|]. split; [done|]. split; [done|]. split; [done|].
  split; [done|].
  split; [by rewrite Hrun|]. split; [done|]. split; [done|]. exact Hrun.
Qed.

(** The phases of a run with at least one new step. *)
Lemma update_test_steps_phases issue_id project_id steps st :
  steps <> [] ->
  update_test_steps issue_id project_id steps st
  = (let fetched :=
       get_test_case issue_id
         (log (EvAcquire issue_id) (lock_entry issue_id st)) in
     let deleted :=
       delete_snapshot issue_id project_id (snapshot_ids_of fetched.1) 0 []
         fetched.2 in
     let rest :=
       tbind (cleanup_leftovers issue_id project_id deleted.1.1 deleted.1.2)
         (fun r => recreate issue_id project_id steps r.1 r.2) deleted.2 in
     (rest.1, log (EvRelease issue_id) rest.2)).
Proof.
  intros Hsteps. rewrite update_test_steps_nonempty by done.
  cbv zeta. unfold recreate, tbind, tret.
  destruct (get_test_case _ _) as [test_case st1]. cbn [fst snd].
  destruct (delete_snapshot _ _ _ _ _ st1) as [r st2]. cbn [fst snd].
  destruct (cleanup_leftovers _ _ _ _ st2) as [r' st3]. cbn [fst snd].
  by destruct (add_test_steps _ _ _ st3) as [added st4].
Qed.

(** C1, as the code has it: a failed first fetch does not end the
    workflow.  The failed fetch leaves only its own GETs on the trace; the
    snapshot is empty, so no snapshot deletion is sent and the second
    fetch follows at once.  For every step the second fetch reports, its
    DELETE is sent (and nothing else, until the last fetch); each of these
    steps is counted as deleted or leaves an error entry.  Then the create
    request of every new step with a non-empty text is sent, and the
    result is put together from the deletions of the leftovers and from
    what [add_test_steps] returns. *)
Theorem update_test_steps_fetch_failure_continues
    (issue_id : string) (project_id : Z) (steps : list StepIn)
    (st st1 : state) :
  steps <> [] ->
  get_test_case issue_id (log (EvAcquire issue_id) (lock_entry issue_id st))
  = (None, st1) ->
  let post := get_test_case issue_id st1 in
  let leftovers := present_ids_of post.1 in
  let run := update_test_steps issue_id project_id steps st in
  exists k1 k2 outs evs_delete st_deleted evs_confirm st3 warning evs_add,
    trace st1
    = trace st ++ EvAcquire issue_id
                  :: retry_events (fetch_request issue_id) 1 k1
    /\ trace post.2 = trace st1 ++ retry_events (fetch_request issue_id) 1 k2
    /\ length outs = length leftovers
    /\ (forall j sid, leftovers !! j = Some sid ->
          exists s,
            outs !! j
            = Some (leftover_outcome sid
                      (delete_test_step issue_id project_id sid s).1))
    /\ trace st_deleted = trace post.2 ++ evs_delete
    /\ (forall sid, sid ∈ leftovers ->
          delete_request issue_id project_id sid ∈ requests_of evs_delete)
    /\ (forall r, r ∈ requests_of evs_delete ->
          exists sid,
            sid ∈ leftovers /\ r = delete_request issue_id project_id sid)
    /\ trace st3 = trace st_deleted ++ evs_confirm
    /\ (leftovers = [] ->
        st3 = post.2 /\ evs_delete = [] /\ evs_confirm = [] /\ warning = [])
    /\ (leftovers <> [] ->
        st3 = (get_test_case issue_id st_deleted).2
        /\ (exists k', evs_confirm = retry_events (fetch_request issue_id) 1 k')
        /\ warning
           = still_present_warning issue_id
               (present_ids_of (get_test_case issue_id st_deleted).1))
    /\ trace run.2 = trace st3 ++ evs_add ++ [EvRelease issue_id]
    /\ (forall r, r ∈ requests_of evs_add ->
          exists j step,
            steps !! j = Some step
            /\ r = step_request (teststep_uri issue_id) project_id step
                     (bool_decide (S j = length steps)))
    /\ (forall j step,
          steps !! j = Some step ->
          PyStr.nonempty
            (p_step (make_payload step (bool_decide (S j = length steps))))
          = true ->
          step_request (teststep_uri issue_id) project_id step
            (bool_decide (S j = length steps)) ∈ requests_of evs_add)
    /\ run.1
       = (let added := (add_test_steps issue_id project_id steps st3).1 in
          mkUpdateResult (Z.of_nat (deleted_among outs))
            (steps_created added) (created_ids added)
            (errors_among outs ++ warning ++ Zephyr.errors added)).
Proof.
  intros Hsteps Hfetch post leftovers run.
  destruct (get_test_case_fetches issue_id
              (log (EvAcquire issue_id) (lock_entry issue_id st)))
    as (k1 & Hfirst).
  rewrite Hfetch in Hfirst. cbn [snd log lock_entry trace] in Hfirst.
  destruct (verification_and_creation issue_id project_id steps 0 [] st1)
    as (k2 & outs & evs_delete & st_deleted & evs_confirm & st3 & warning
        & evs_add & Hsecond & Hlen & Houts & Htrace & Hsent & Honly & Hlast
        & Hnone & Hsome & Hadd & Hadd_only & Hadd_all & Hrun).
  cbv zeta in Hadd, Hrun.
  assert (run
          = ((tbind (cleanup_leftovers issue_id project_id 0 [])
                (fun r => recreate issue_id project_id steps r.1 r.2) st1).1,
             log (EvRelease issue_id)
               (tbind (cleanup_leftovers issue_id project_id 0 [])
                  (fun r => recreate issue_id project_id steps r.1 r.2)
                  st1).2)) as ->.
  { subst run. rewrite update_test_steps_phases by done. by rewrite Hfetch. }
  exists k1, k2, outs, evs_delete, st_deleted, evs_confirm, st3, warning,
    evs_add.
  split; [by rewrite Hfirst, <- app_assoc|].
  split; [done|]. split; [done|]. split; [done|]. split; [done|].
  split; [done|]. split; [done|]. split; [done|]. split; [done|].
  split; [done|].
  split; [cbn [snd log trace]; by rewrite Hadd, <- app_assoc|].
  split; [done|]. split; [done|].
  cbn [fst]. by rewrite Hrun.
Qed.

(** C4, as the code has it: with a snapshot of 5 steps of which exactly 2
    deletions fail, the workflow goes on with the second fetch.  For
    every step that fetch reports, its DELETE is sent, and the step is
    counted as deleted or leaves an error entry: [steps_deleted] is 3 plus
    the number of these steps that are deleted, and [errors] is the 2
    deletion failures, then one entry for every leftover step that is not
    deleted, then the warning when the last fetch still reports steps,
    then the errors of the creation.  When the second fetch reports no
    step, nothing of this is added.  The create request of every new step
    with a non-empty text is sent. *)
Theorem update_test_steps_partial_delete
    (issue_id : string) (project_id : Z) (steps : list StepIn)
    (st st1 st2 : state) (test_case : option ZephyrTestCaseWithSteps)
    (results : list bool) :
  steps <> [] ->
  get_test_case issue_id (log (EvAcquire issue_id) (lock_entry issue_id st))
  = (test_case, st1) ->
  length (snapshot_ids_of test_case) = 5%nat ->
  gather (_delete_one issue_id project_id <$> snapshot_ids_of test_case) st1
  = (results, st2) ->
  length (filter (fun ok : bool => ok = false) results) = 2%nat ->
  let post := get_test_case issue_id st2 in
  let leftovers := present_ids_of post.1 in
  let run := update_test_steps issue_id project_id steps st in
  exists k outs evs_delete st_deleted evs_confirm st3 warning evs_add,
    trace post.2 = trace st2 ++ retry_events (fetch_request issue_id) 1 k
    /\ length outs = length leftovers
    /\ (forall j sid, leftovers !! j = Some sid ->
          exists s,
            outs !! j
            = Some (leftover_outcome sid
                      (delete_test_step issue_id project_id sid s).1))
    /\ trace st_deleted = trace post.2 ++ evs_delete
    /\ (forall sid, sid ∈ leftovers ->
          delete_request issue_id project_id sid ∈ requests_of evs_delete)
    /\ (forall r, r ∈ requests_of evs_delete ->
          exists sid,
            sid ∈ leftovers /\ r = delete_request issue_id project_id sid)
    /\ trace st3 = trace st_deleted ++ evs_confirm
    /\ (leftovers = [] ->
        st3 = post.2 /\ evs_delete = [] /\ evs_confirm = [] /\ warning = [])
    /\ (leftovers <> [] ->
        st3 = (get_test_case issue_id st_deleted).2
        /\ (exists k', evs_confirm = retry_events (fetch_request issue_id) 1 k')
        /\ warning
           = still_present_warning issue_id
               (present_ids_of (get_test_case issue_id st_deleted).1))
    /\ trace run.2 = trace st3 ++ evs_add ++ [EvRelease issue_id]
    /\ (forall r, r ∈ requests_of evs_add ->
          exists j step,
            steps !! j = Some step
            /\ r = step_request (teststep_uri issue_id) project_id step
                     (bool_decide (S j = length steps)))
    /\ (forall j step,
          steps !! j = Some step ->
          PyStr.nonempty
            (p_step (make_payload step (bool_decide (S j = length steps))))
          = true ->
          step_request (teststep_uri issue_id) project_id step
            (bool_decide (S j = length steps)) ∈ requests_of evs_add)
    /\ run.1
       = (let added := (add_test_steps issue_id project_id steps st3).1 in
          mkUpdateResult (3 + Z.of_nat (deleted_among outs))
            (steps_created added) (created_ids added)
            ([delete_failed_msg; delete_failed_msg]
             ++ errors_among outs ++ warning ++ Zephyr.errors added)).
Proof.
  intros Hsteps Hfetch Hsnap Hgather Hfailed post leftovers run.
  assert (length results = 5%nat) as Hlen5.
  { pose proof (gather_spec
                  (_delete_one issue_id project_id
                     <$> snapshot_ids_of test_case) st1) as [Hl _].
    rewrite Hgather, length_fmap in Hl. cbn [fst] in Hl. lia. }
  pose proof (bool_filter_length results) as Hsum.
  assert (delete_snapshot issue_id project_id (snapshot_ids_of test_case)
            0 [] st1
          = ((3, [delete_failed_msg; delete_failed_msg]), st2)) as Hdel.
  { unfold delete_snapshot.
    destruct (snapshot_ids_of test_case) as [|sid rest] eqn:Hids;
      [discriminate Hsnap|].
    unfold tbind, tret. rewrite Hgather, count_results_spec, Hfailed.
    replace (length (filter (fun ok : bool => ok = true) results))
      with 3%nat by lia.
    reflexivity. }
  destruct (verification_and_creation issue_id project_id steps 3
              [delete_failed_msg; delete_failed_msg] st2)
    as (k & outs & evs_delete & st_deleted & evs_confirm & st3 & warning
        & evs_add & Hsecond & Hlen & Houts & Htrace & Hsent & Honly & Hlast
        & Hnone & Hsome & Hadd & Hadd_only & Hadd_all & Hrun).
  cbv zeta in Hadd, Hrun.
  assert (run
          = ((tbind (cleanup_leftovers issue_id project_id 3
                       [delete_failed_msg; delete_failed_msg])
                (fun r => recreate issue_id project_id steps r.1 r.2) st2).1,
             log (EvRelease issue_id)
               (tbind (cleanup_leftovers issue_id project_id 3
                         [delete_failed_msg; delete_failed_msg])
                  (fun r => recreate issue_id project_id steps r.1 r.2)
                  st2).2)) as ->.
  { subst run. rewrite update_test_steps_phases by done.
    cbv zeta. rewrite Hfetch. cbn [fst snd]. by rewrite Hdel. }
  exists k, outs, evs_delete, st_deleted, evs_confirm, st3, warning, evs_add.
  split; [done|]. split; [done|]. split; [done|]. split; [done|].
  split; [done|]. split; [done|]. split; [done|]. split; [done|].
  split; [done|].
  split; [cbn [snd log trace]; by rewrite Hadd, <- app_assoc|].
  split; [done|]. split; [done|].
  cbn [fst]. by rewrite Hrun.
Qed.

End Facts.

(** The first fetch fails on the mock, the second one reports two steps:
    both are deleted, and the two new steps are created. *)
Lemma update_test_steps_fetch_failure_continues_witness :
  let st := Mock.start Mock.flaky [] in
  exists outs : list (option string),
    length outs = 2%nat
    /\ steps_deleted (@update_test_steps Mock.mock_env "42" 7 Mock.steps2 st).1
       = Z.of_nat (deleted_among outs).
Proof.
  intros st.
  destruct (@update_test_steps_fetch_failure_continues Mock.mock_env "42" 7
              Mock.steps2 st
              (get_test_case "42" (Mock.locked "42" st)).2)
    as (k1 & k2 & outs & evs_delete & st_deleted & evs_confirm & st3
        & warning & evs_add
        & _ & _ & Hlen & _ & _ & _ & _ & _ & _ & _ & _ & _ & _ & Hresult).
  - discriminate.
  - apply injective_projections; [vm_compute; reflexivity | reflexivity].
  - exists outs. split.
    + rewrite Hlen. vm_compute. reflexivity.
    + rewrite Hresult. reflexivity.
Defined.

(** Five steps, two of which the remote system never deletes: the second
    fetch reports the two, and the result counts 3 plus what the second
    pass deletes of them. *)
Lemma update_test_steps_partial_delete_witness :
  let st := Mock.start Mock.stubborn [2; 0]%nat in
  exists outs : list (option string),
    length outs = 2%nat
    /\ steps_deleted (@update_test_steps Mock.mock_env "42" 7 Mock.steps2 st).1
       = 3 + Z.of_nat (deleted_among outs).
Proof.
  intros st.
  set (fetched := get_test_case "42" (Mock.locked "42" st)).
  set (deleted :=
         gather (_delete_one "42" 7 <$> snapshot_ids_of fetched.1) fetched.2).
  destruct (@update_test_steps_partial_delete Mock.mock_env "42" 7
              Mock.steps2 st fetched.2 deleted.2 fetched.1 deleted.1)
    as (k & outs & evs_delete & st_deleted & evs_confirm & st3 & warning
        & evs_add
        & _ & Hlen & _ & _ & _ & _ & _ & _ & _ & _ & _ & _ & Hresult).
  - discriminate.
  - apply surjective_pairing.
  - vm_compute. reflexivity.
  - apply surjective_pairing.
  - vm_compute. reflexivity.
  - exists outs. split.
    + rewrite Hlen. vm_compute. reflexivity.
    + rewrite Hresult. reflexivity.
Defined.

End ZephyrReplaceFacts.
